(** * blogz: reading a directory of files into a blog structure

    A shallow embedding of [readBlogSync] (index.js) and the properties of
    the corpus it returns.

    Conventions of the model
    - JavaScript strings are [string]; a time value (the number held by a
      [Date]) is [option Z], milliseconds since the epoch, [None] being the
      Invalid Date.
    - An object of the program that is used through references (a post) lives
      in a table indexed by its key in the [post] object; the arrays [posts],
      [latest] and the buckets of [archive] and [tagged] hold such keys, so
      that two array slots alias the same post exactly when they hold the
      same key.
    - The npm packages and the built-ins whose algorithms are not part of
      index.js (markup renderers, decoders, moment's formatter, data2xml,
      Date.parse, ...) are the fields of the class [Env].
    - The file system and the system clock are the record [World]; every
      access is recorded in a trace. *)

From Stdlib Require Import ZArith Ascii String.
From stdpp Require Import base strings list gmap sorting.

Local Open Scope string_scope.
Local Open Scope Z_scope.

(* ------------------------------------------------------------------------ *)
(** ** Strings *)

(** [s.split(c)] for a one-character separator: always at least one part. *)
Fixpoint split_on (c : ascii) (s : string) : list string :=
  match s with
  | EmptyString => [EmptyString]
  | String a s' =>
      if Ascii.eqb a c then EmptyString :: split_on c s'
      else match split_on c s' with
           | h :: t => String a h :: t
           | [] => [String a EmptyString]
           end
  end.

(** [parts.join(sep)]. *)
Fixpoint join (sep : string) (parts : list string) : string :=
  match parts with
  | [] => ""
  | [p] => p
  | p :: rest => p ++ sep ++ join sep rest
  end.

(** The character class [\d]. *)
Definition is_digit (a : ascii) : bool :=
  let n := N_of_ascii a in (48 <=? n)%N && (n <=? 57)%N.

Fixpoint drop_digits (s : string) : string :=
  match s with
  | String a s' => if is_digit a then drop_digits s' else s
  | EmptyString => EmptyString
  end.

(** [basename.match(/^\d+-/)] and [basename.replace(/^\d+-/, '')] together:
    a non-empty run of digits followed by a hyphen is removed, once. *)
Definition strip_number_prefix (basename : string) : string :=
  match basename with
  | String a _ =>
      if is_digit a then
        match drop_digits basename with
        | String "-" rest => rest
        | _ => basename
        end
      else basename
  | EmptyString => basename
  end.

(** [str.substr(0, 1)] and [str.substr(1)]. *)
Definition substr01 (s : string) : string :=
  match s with String a _ => String a EmptyString | EmptyString => EmptyString end.
Definition substr1 (s : string) : string :=
  match s with String _ r => r | EmptyString => EmptyString end.

(* ------------------------------------------------------------------------ *)
(** ** Objects used as look-up tables *)

(** The properties every object literal inherits from [Object.prototype];
    all of them are truthy, so that [obj[k]] is truthy for these [k] even when
    [obj] has no such property of its own. *)
Definition Object_prototype_names : list string :=
  [ "constructor"; "__defineGetter__"; "__defineSetter__"; "hasOwnProperty";
    "__lookupGetter__"; "__lookupSetter__"; "isPrototypeOf";
    "propertyIsEnumerable"; "toString"; "valueOf"; "__proto__";
    "toLocaleString" ].

Definition inherited (k : string) : bool :=
  bool_decide (k ∈ Object_prototype_names).

(** The names of [Object.prototype] that hold a function: all of them but
    "__proto__", an accessor that answers [Object.prototype] itself when read
    and sets the prototype when written. *)
Definition prototype_function (k : string) : bool :=
  inherited k && negb (String.eqb k "__proto__").

Definition validExt : list (string * bool) :=
  [ ("md", true); ("textile", true); ("txt", true); ("html", true);
    ("json", true); ("yaml", true); ("ini", true) ].

Fixpoint assoc {A} (k : string) (l : list (string * A)) : option A :=
  match l with
  | [] => None
  | (k', v) :: r => if String.eqb k k' then Some v else assoc k r
  end.

(** Truthiness of [validExt[ext]]; [ext] is [None] when [parts[1]] is
    [undefined], which reads the property named "undefined". *)
Definition validExt_truthy (ext : option string) : bool :=
  let k := default "undefined" ext in
  match assoc k validExt with
  | Some b => b
  | None => inherited k
  end.

(** [ext === lit]. *)
Definition ext_is (ext : option string) (lit : string) : bool :=
  match ext with Some e => String.eqb e lit | None => false end.

(* ------------------------------------------------------------------------ *)
(** ** Values held in metadata *)

#[local] Set Warnings "-register-all".

(** What a field of [meta] can hold: the values a decoder produces (numbers
    are the integral ones), the [Date] objects (the default date, the dates a
    decoder builds, the normalised dates) and the moment objects of the
    program; the time value [None] is the Invalid Date. *)
Inductive Value : Type :=
  | VUndef
  | VNull
  | VBool (b : bool)
  | VNum (n : Z)
  | VStr (s : string)
  | VArr (l : list Value)
  | VObj (l : list (string * Value))
  | VDate (t : option Z)
  | VMoment (t : option Z).

(** The time value of [new Date(n)] for an integral number: TimeClip. *)
Definition TimeClip (n : Z) : option Z :=
  if Z.abs n <=? 8640000000000000 then Some n else None.

Fixpoint indexed (i : nat) (l : list Value) : list (string * Value) :=
  match l with
  | [] => []
  | v :: r => (pretty.pretty i, v) :: indexed (S i) r
  end.

(** The own enumerable properties that [xtend] copies from a source: the
    fields of an object, the elements of an array under their indices and the
    characters of a string under theirs (for-in goes through the indices of
    a string, and each of them is an own property of its wrapper). The other
    primitive values and a [Date] contribute nothing; no decoder returns a
    moment. *)
Definition ownProps (v : Value) : list (string * Value) :=
  match v with
  | VObj l => l
  | VArr l => indexed 0 l
  | VStr s => indexed 0 ((λ a, VStr (String a EmptyString)) <$> list_ascii_of_string s)
  | _ => []
  end.

(** [target[key] = source[key]] on a plain object: assigning to "__proto__"
    goes through the inherited setter and creates no own property. *)
Definition assign (m : gmap string Value) (kv : string * Value) : gmap string Value :=
  if String.eqb kv.1 "__proto__" then m else <[kv.1 := kv.2]> m.

(** [xtend({}, meta, source)]: shallow replacement, field by field. *)
Definition xtend (m : gmap string Value) (source : Value) : gmap string Value :=
  foldl assign m (ownProps source).

(* ------------------------------------------------------------------------ *)
(** ** Dates: [Date.prototype.toISOString]

    The comparator of the sort reads [toISOString()]. The calendar arithmetic
    is that of ECMA-262 (Day, DayFromYear, YearFromTime, MonthFromTime,
    DateFromTime), on UTC time values. *)

Definition msPerDay : Z := 86400000.

Definition Day (t : Z) : Z := t / msPerDay.
Definition TimeWithinDay (t : Z) : Z := t mod msPerDay.

Definition DayFromYear (y : Z) : Z :=
  365 * (y - 1970) + (y - 1969) / 4 - (y - 1901) / 100 + (y - 1601) / 400.

Definition DaysInYear (y : Z) : Z :=
  if negb (y mod 4 =? 0) then 365
  else if negb (y mod 100 =? 0) then 366
  else if negb (y mod 400 =? 0) then 365
  else 366.

(** The largest [y] with [DayFromYear y <= Day t], found next to the estimate
    given by the mean length of a year. *)
Definition YearFromTime (t : Z) : Z :=
  let d := Day t in
  let e := 1970 + d * 400 / 146097 in
  if DayFromYear (e + 1) <=? d then e + 1
  else if DayFromYear e <=? d then e
  else e - 1.

Definition InLeapYear (t : Z) : Z :=
  if DaysInYear (YearFromTime t) =? 366 then 1 else 0.

Definition DayWithinYear (t : Z) : Z := Day t - DayFromYear (YearFromTime t).

(** Months are numbered from 0. *)
Definition MonthFromTime (t : Z) : Z :=
  let d := DayWithinYear t in
  let l := InLeapYear t in
  if d <? 31 then 0
  else if d <? 59 + l then 1
  else if d <? 90 + l then 2
  else if d <? 120 + l then 3
  else if d <? 151 + l then 4
  else if d <? 181 + l then 5
  else if d <? 212 + l then 6
  else if d <? 243 + l then 7
  else if d <? 273 + l then 8
  else if d <? 304 + l then 9
  else if d <? 334 + l then 10
  else 11.

Definition DateFromTime (t : Z) : Z :=
  let d := DayWithinYear t in
  let l := InLeapYear t in
  match MonthFromTime t with
  | 0 => d + 1
  | 1 => d - 30
  | 2 => d - 58 - l
  | 3 => d - 89 - l
  | 4 => d - 119 - l
  | 5 => d - 150 - l
  | 6 => d - 180 - l
  | 7 => d - 211 - l
  | 8 => d - 242 - l
  | 9 => d - 272 - l
  | 10 => d - 303 - l
  | _ => d - 333 - l
  end.

Definition digit (d : Z) : ascii := ascii_of_N (48 + Z.to_N (d mod 10)).

(** The last [width] decimal digits of [n], most significant first; all of
    [n] when [0 <= n < 10 ^ width]. *)
Fixpoint PadInt (width : nat) (n : Z) : string :=
  match width with
  | O => ""
  | S w => PadInt w (n / 10) ++ String (digit n) ""
  end.

(** Years 0 to 9999 are written with four digits, the others with a sign and
    six digits. *)
Definition toISOString (t : Z) : string :=
  let y := YearFromTime t in
  let w := TimeWithinDay t in
  let year_string :=
    if (0 <=? y) && (y <=? 9999) then PadInt 4 y
    else if y <? 0 then "-" ++ PadInt 6 (- y)
    else "+" ++ PadInt 6 y in
  year_string ++ "-" ++ PadInt 2 (MonthFromTime t + 1)
    ++ "-" ++ PadInt 2 (DateFromTime t)
    ++ "T" ++ PadInt 2 (w / 3600000)
    ++ ":" ++ PadInt 2 (w / 60000 mod 60)
    ++ ":" ++ PadInt 2 (w / 1000 mod 60)
    ++ "." ++ PadInt 3 (w mod 1000) ++ "Z".

(* ------------------------------------------------------------------------ *)
(** ** Collaborators, world, outcomes *)

(** The packages and built-ins [readBlogSync] calls. A decoder answers
    [inl v] with the decoded value or [inr e] with the text of the exception
    it throws. *)
Class Env := {
  marked : string → string;
  textile : string → string;
  escape : string → string;
  JSON_parse : string → Value + string;
  yaml_load : string → Value + string;
  ini_decode : string → Value + string;
  (** [Date.parse]; [None] is NaN. *)
  Date_parse : string → option Z;
  (** The abstract operation ToString on a value that is not a string;
      [None] when it throws a TypeError. *)
  ToString : Value → option string;
  toUpperCase : string → string;
  (** [moment(d).format(fmt)]; [moment_format None d] is [format()]. *)
  moment_format : option string → option Z → string;
  data2xml : string → Value → string;
}.

(** The directory tree and the system clock. [None] is a call that throws;
    [clock k] is the time at the [k]-th reading. *)
Record World := {
  readdirSync : string → option (list string);
  isDirectory : string → option bool;
  readFileSync : string → option string;
  clock : nat → Z;
}.

Inductive event : Type :=
  | ReadDir (dir : string)
  | Stat (path : string)
  | ReadFile (path : string)
  | ClockRead
  | ConsoleWarn (msg : string)
  | ConsoleLog (msg : string).

Inductive exn : Type :=
  | Error (msg : string)
  | TypeError
  | SystemError (path : string)
  | DecodeFailure (e : string).

(** How a computation ends. [Unmodelled] marks the runs that leave the
    fragment of JavaScript embedded here, at the point where they do: a key
    that names a function of [Object.prototype] makes line 103 store that
    function in [post] (and line 229 in [archive]), and a file whose
    identifier is "__proto__" makes lines 124-159 write into
    [Object.prototype] itself, which every object of the program and of the
    packages inherits from. *)
Inductive outcome (A : Type) : Type :=
  | Return (a : A)
  | Throw (e : exn)
  | Exit (code : Z)
  | Unmodelled.
Arguments Return {A} a.
Arguments Throw {A} e.
Arguments Exit {A} code.
Arguments Unmodelled {A}.

Definition bindO {A B} (o : outcome A) (k : A → outcome B) : outcome B :=
  match o with
  | Return a => k a
  | Throw e => Throw e
  | Exit c => Exit c
  | Unmodelled => Unmodelled
  end.

Notation "'let?' x ':=' o 'in' k" := (bindO o (fun x => k))
  (at level 10, x name, k at level 200).

Fixpoint foldO {A B} (f : A → B → outcome A) (l : list B) (a : A) : outcome A :=
  match l with
  | [] => Return a
  | b :: r => let? a' := f a b in foldO f r a'
  end.

(** What a run has done so far: the number of clock readings and the trace
    of its accesses and console lines, oldest first. *)
Record State := { ticks : nat; trace : list event }.

Definition M (A : Type) : Type := State → outcome A * State.

Definition ret {A} (a : A) : M A := fun s => (Return a, s).
Definition bind {A B} (m : M A) (k : A → M B) : M B :=
  fun s =>
    match m s with
    | (Return a, s') => k a s'
    | (Throw e, s') => (Throw e, s')
    | (Exit c, s') => (Exit c, s')
    | (Unmodelled, s') => (Unmodelled, s')
    end.
Definition lift {A} (o : outcome A) : M A := fun s => (o, s).
Definition throw {A} (e : exn) : M A := lift (Throw e).
Definition emit (ev : event) : M unit :=
  fun s => (Return tt, {| ticks := ticks s; trace := trace s ++ [ev] |}).

Notation "'let!' x ':=' m 'in' k" := (bind m (fun x => k))
  (at level 10, x name, k at level 200).
Notation "m1 ';;' m2" := (bind m1 (fun _ => m2))
  (at level 100, right associativity).

Fixpoint foldM {A B} (f : A → B → M A) (l : list B) (a : A) : M A :=
  match l with
  | [] => ret a
  | b :: r => let! a' := f a b in foldM f r a'
  end.

(** [files.filter(keep)] with an effectful callback. *)
Fixpoint filterM {B} (keep : B → M bool) (l : list B) : M (list B) :=
  match l with
  | [] => ret []
  | b :: r =>
      let! k := keep b in
      let! r' := filterM keep r in
      ret (if k then b :: r' else r')
  end.

Section World.
Context (W : World).

Definition call {A} (ev : event) (path : string) (r : option A) : M A :=
  emit ev ;; match r with Some a => ret a | None => throw (SystemError path) end.

Definition fs_readdirSync (dir : string) : M (list string) :=
  call (ReadDir dir) dir (readdirSync W dir).
Definition fs_isDirectory (path : string) : M bool :=
  call (Stat path) path (isDirectory W path).
Definition fs_readFileSync (path : string) : M string :=
  call (ReadFile path) path (readFileSync W path).

(** [new Date()] and [moment()]: one more reading of the clock. *)
Definition read_clock : M Z :=
  fun s => (Return (clock W (ticks s)),
            {| ticks := S (ticks s); trace := trace s ++ [ClockRead] |}).

(** [process.exit(code)]. *)
Definition process_exit {A} (code : Z) : M A := lift (Exit code).
End World.

(* ------------------------------------------------------------------------ *)
(** ** Posts *)

(** A reference to a post: its key in the [post] object. *)
Abbreviation ref := string.

Record Post := {
  name : string;
  meta : gmap string Value;
  content : string;
  html : string;
  prev : option ref;
  next : option ref;
}.

(** The [post] object: its own keys in the order of their creation, and the
    object each key holds. *)
Record Table := { order : list string; objs : gmap string Post }.

Definition set_meta (f : gmap string Value → gmap string Value) (p : Post) : Post :=
  {| name := name p; meta := f (meta p); content := content p; html := html p;
     prev := prev p; next := next p |}.
Definition set_body (c h : string) (p : Post) : Post :=
  {| name := name p; meta := meta p; content := c; html := h;
     prev := prev p; next := next p |}.
Definition set_prev (r : option ref) (p : Post) : Post :=
  {| name := name p; meta := meta p; content := content p; html := html p;
     prev := r; next := next p |}.
Definition set_next (r : option ref) (p : Post) : Post :=
  {| name := name p; meta := meta p; content := content p; html := html p;
     prev := prev p; next := r |}.

(** [post[k].field = ...]: an update of the object the key refers to. *)
Definition update (k : string) (f : Post → Post) (tbl : Table) : Table :=
  {| order := order tbl; objs := alter f k (objs tbl) |}.

(** [Array.prototype.sort] under a comparator that puts [a] before [b] when
    [R a b]: the sort is stable, so the elements the comparator finds equal
    keep the order they had. Each element, from the last one, is inserted
    before the first element of the sorted rest it may stay before. *)
Fixpoint insert_sorted {A} (R : relation A) `{!RelDecision R} (x : A) (l : list A)
  : list A :=
  match l with
  | [] => [x]
  | y :: r => if decide (R x y) then x :: l else y :: insert_sorted R x r
  end.

Definition stable_sort {A} (R : relation A) `{!RelDecision R} (l : list A) : list A :=
  foldr (insert_sorted R) [] l.

(** Array indices come first in [Object.keys], in numeric order; the other
    keys follow in the order of their creation. *)
Fixpoint parse_digits (acc : N) (s : string) : option N :=
  match s with
  | EmptyString => Some acc
  | String a r =>
      if is_digit a then parse_digits (10 * acc + (N_of_ascii a - 48))%N r
      else None
  end.

Definition array_index (k : string) : option N :=
  match k with
  | EmptyString => None
  | _ =>
      match parse_digits 0 k with
      | Some n =>
          if String.eqb (pretty.pretty n) k && (n <? 4294967295)%N
          then Some n else None
      | None => None
      end
  end.

Definition index_le (a b : string) : Prop :=
  (default 0 (array_index a) <= default 0 (array_index b))%N.

#[local] Instance index_le_dec : RelDecision index_le :=
  λ a b, decide (default 0 (array_index a) <= default 0 (array_index b))%N.

Definition Object_keys (tbl : Table) : list string :=
  stable_sort index_le (filter (λ k, is_Some (array_index k)) (order tbl))
    ++ filter (λ k, ¬ is_Some (array_index k)) (order tbl).

(** The time value of [post.meta.date] once it is a [Date]. *)
Definition date_of (p : Post) : option Z :=
  match meta p !! "date" with
  | Some (VDate t) => t
  | _ => None
  end.

Definition moment_of (p : Post) : option Z :=
  match meta p !! "moment" with
  | Some (VMoment t) => t
  | _ => None
  end.

Definition meta_string (k : string) (p : Post) : string :=
  match meta p !! k with
  | Some (VStr s) => s
  | _ => ""
  end.

Section Pipeline.
Context {E : Env} (W : World).

(** [str.substr(0, 1).toUpperCase() + str.substr(1)]. *)
Definition capitalize (str : string) : string :=
  toUpperCase (substr01 str) ++ substr1 str.

(** The default post of lines 103-117. *)
Definition default_post (now : Z) (basename : string) : Post :=
  {| name := basename;
     meta :=
       <["title" := VStr (join " " (map capitalize (split_on "-" basename)))]>
       (<["date" := VDate (Some now)]>
       (<["moment" := VMoment (Some now)]>
       (<["year" := VStr (moment_format (Some "YYYY") (Some now))]>
       (<["month" := VStr (moment_format (Some "MM") (Some now))]>
       (<["day" := VStr (moment_format (Some "DD") (Some now))]>
       (<["monthname" := VStr (moment_format (Some "MMMM") (Some now))]>
       (<["tags" := VArr []]> ∅)))))));
     content := "";
     html := "";
     prev := None;
     next := None |}.

(** [post[basename] = post[basename] || {...}]. For "__proto__" the right
    hand side is [Object.prototype], which is truthy, and the assignment sets
    the prototype of [post] to what it is already: [post] gets no property. *)
Definition ensure (now : Z) (basename : string) (tbl : Table) : Table :=
  if String.eqb basename "__proto__" then tbl
  else
    match objs tbl !! basename with
    | Some _ => tbl
    | None =>
        {| order := order tbl ++ [basename];
           objs := <[basename := default_post now basename]> (objs tbl) |}
    end.

(** [post[basename].field = ...] (lines 124-159). Under a name of
    [Object.prototype] the object written to is one of the runtime:
    [Object.prototype] itself for "__proto__", and for the others the
    function that line 103 has stored in [post]. *)
Definition write (basename : string) (f : Post → Post) (tbl : Table) : M Table :=
  if inherited basename then lift Unmodelled
  else ret (update basename f tbl).

(** The body of [files.forEach] (lines 80-161). Under a name that holds a
    function of [Object.prototype], line 103 stores that function in [post]:
    the file is read and decoded as any other, and the run leaves the
    embedded fragment with the first write into the function or, when no
    branch is taken, at the end of the callback, since [post] then holds an
    object of the runtime. *)
Definition processFile (now : Z) (dir : string) (tbl : Table) (filename : string)
  : M Table :=
  let parts := split_on "." filename in
  let basename := hd "" parts in
  let ext := parts !! 1%nat in
  if negb (validExt_truthy ext) then ret tbl
  else
    let basename := strip_number_prefix basename in
    let tbl := if prototype_function basename then tbl
               else ensure now basename tbl in
    let! contents := fs_readFileSync W (dir ++ "/" ++ filename) in
    let! tbl :=
      (if ext_is ext "json" then
         match JSON_parse contents with
         | inl v => write basename (set_meta (λ m, xtend m v)) tbl
         | inr e =>
             emit (ConsoleWarn ("Error parsing " ++ filename ++ " file : " ++ e)) ;;
             process_exit 2
         end
       else ret tbl) in
    let! tbl :=
      (if ext_is ext "yaml" then
         match yaml_load contents with
         | inl v => write basename (set_meta (λ m, xtend m v)) tbl
         | inr e =>
             emit (ConsoleLog ("Error parsing file " ++ dir ++ "/" ++ filename)) ;;
             throw (DecodeFailure e)
         end
       else ret tbl) in
    let! tbl :=
      (if ext_is ext "ini" then
         match ini_decode contents with
         | inl v => write basename (set_meta (λ m, xtend m v)) tbl
         | inr e => throw (DecodeFailure e)
         end
       else ret tbl) in
    let! tbl :=
      (if ext_is ext "html"
       then write basename (set_body contents contents) tbl else ret tbl) in
    let! tbl :=
      (if ext_is ext "md"
       then write basename (set_body contents (marked contents)) tbl else ret tbl) in
    let! tbl :=
      (if ext_is ext "textile"
       then write basename (set_body contents (textile contents)) tbl else ret tbl) in
    let! tbl :=
      (if ext_is ext "text"
       then write basename
              (set_body contents ("<pre>" ++ escape contents ++ "</pre>")) tbl
       else ret tbl) in
    if prototype_function basename then lift Unmodelled else ret tbl.

(** [new Date(v)]: a [Date] or a moment gives its own time value, a string
    is parsed, an array or an object goes through its string form. *)
Definition new_Date (v : Value) : outcome (option Z) :=
  match v with
  | VDate t | VMoment t => Return t
  | VNum n => Return (TimeClip n)
  | VStr s => Return (Date_parse s)
  | VUndef => Return None
  | VNull => Return (Some 0)
  | VBool b => Return (Some (if b then 1 else 0))
  | VArr _ | VObj _ =>
      match ToString v with
      | Some s => Return (Date_parse s)
      | None => Throw TypeError
      end
  end.

(** The body of the first [posts.forEach] (lines 171-183). *)
Definition normalize_post (p : Post) : outcome Post :=
  let? t := new_Date (default VUndef (meta p !! "date")) in
  Return (set_meta (λ m,
    <["moment" := VMoment t]>
    (<["monthname" := VStr (moment_format (Some "MMMM") t)]>
    (<["day" := VStr (moment_format (Some "DD") t)]>
    (<["month" := VStr (moment_format (Some "MM") t)]>
    (<["year" := VStr (moment_format (Some "YYYY") t)]>
    (<["date" := VDate t]> m)))))) p).

Definition normalize_step (tbl : Table) (k : ref) : outcome Table :=
  match objs tbl !! k with
  | Some p => let? p' := normalize_post p in Return (update k (λ _, p') tbl)
  | None => Return tbl
  end.

Definition normalize (tbl : Table) : outcome Table :=
  foldO normalize_step (Object_keys tbl) tbl.

(** [post.meta.date < now] (line 190): false on the Invalid Date. *)
Definition published (now : Z) (tbl : Table) (k : ref) : bool :=
  match objs tbl !! k with
  | Some p => match date_of p with Some t => t <? now | None => false end
  | None => false
  end.

(** The key the comparator of lines 191-198 compares; every post that
    reaches the sort has a valid date. *)
Definition iso_of (tbl : Table) (k : ref) : string :=
  match objs tbl !! k with
  | Some p => match date_of p with Some t => toISOString t | None => "" end
  | None => ""
  end.

(** [a] may stay before [b]: the comparator does not answer 1. *)
Definition iso_le (tbl : Table) (a b : ref) : Prop :=
  String.leb (iso_of tbl a) (iso_of tbl b).

#[local] Instance iso_le_dec tbl : RelDecision (iso_le tbl) :=
  λ a b, decide (Is_true (String.leb (iso_of tbl a) (iso_of tbl b))).

(** Lines 188-198: the filter, then [sort] with the comparator, which keeps
    the order of two posts whose strings are equal. *)
Definition publish (now : Z) (tbl : Table) : list ref :=
  stable_sort (iso_le tbl) (filter (λ k, published now tbl k) (Object_keys tbl)).

(** The body of the linking [posts.forEach] (lines 203-210) at index [i]. *)
Definition link_one (posts : list ref) (os : gmap string Post) (i : nat)
  : gmap string Post :=
  match posts !! i with
  | None => os
  | Some k =>
      let os := if (0 <? i)%nat
                then alter (set_prev (posts !! (i - 1)%nat)) k os else os in
      if (i <? length posts - 1)%nat
      then alter (set_next (posts !! (i + 1)%nat)) k os else os
  end.

Definition link (posts : list ref) (tbl : Table) : Table :=
  {| order := order tbl;
     objs := foldl (link_one posts) (objs tbl) (seq 0 (length posts)) |}.

(** [l.slice(0, e)]: a negative end counts from the end of the array. *)
Definition slice0 {A} (l : list A) (e : Z) : list A :=
  let len := Z.of_nat (length l) in
  let k := if e <? 0 then Z.max (len + e) 0 else Z.min e len in
  take (Z.to_nat k) l.

(** The archive loop (lines 224-234). A year that names an inherited
    property makes [archive[year]] an object of the runtime; a month that
    does makes [archive[year][month]] a function, which has no [push]. *)
Definition archive_step (tbl : Table) (ar : gmap string (gmap string (list ref)))
    (k : ref) : outcome (gmap string (gmap string (list ref))) :=
  match objs tbl !! k with
  | None => Return ar
  | Some p =>
      let year := meta_string "year" p in
      let month := meta_string "month" p in
      match ar !! year with
      | None =>
          if inherited year then Unmodelled
          else if inherited month then Throw TypeError
          else Return (<[year := {[ month := [k] ]}]> ar)
      | Some months =>
          match months !! month with
          | None =>
              if inherited month then Throw TypeError
              else Return (<[year := <[month := [k]]> months]> ar)
          | Some bucket => Return (<[year := <[month := (bucket ++ [k])%list]> months]> ar)
          end
      end
  end.

(** The tag loop (lines 237-242). [tags.forEach] exists on arrays only, and
    a tag that names an inherited property finds a function in
    [tagged[tag]], which has no [push]. *)
Definition tag_key (tag : Value) : outcome string :=
  match tag with
  | VStr s => Return s
  | _ => match ToString tag with Some s => Return s | None => Throw TypeError end
  end.

Definition tag_one (k : ref) (tg : gmap string (list ref)) (tag : Value)
  : outcome (gmap string (list ref)) :=
  let? key := tag_key tag in
  match tg !! key with
  | None => if inherited key then Throw TypeError else Return (<[key := [k]]> tg)
  | Some bucket => Return (<[key := (bucket ++ [k])%list]> tg)
  end.

Definition tagged_step (tbl : Table) (tg : gmap string (list ref)) (k : ref)
  : outcome (gmap string (list ref)) :=
  match objs tbl !! k with
  | None => Return tg
  | Some p =>
      match meta p !! "tags" with
      | Some (VArr tags) => foldO (tag_one k) tags tg
      | _ => Throw TypeError
      end
  end.
End Pipeline.

(* ------------------------------------------------------------------------ *)
(** ** Options, feeds and the corpus *)

(** The argument of [readBlogSync]; [None] is an absent field. *)
Record Options := {
  domain : option string;
  contentDir : option string;
  title : option string;
  description : option string;
  base : option string;
  latestCount : option Z;
  indexCount : option Z;
}.

Definition defaults : Options :=
  {| domain := None; contentDir := None;
     title := Some ""; description := Some ""; base := Some "";
     latestCount := Some 10; indexCount := Some 10 |}.

Definition or_else {A} (o d : option A) : option A :=
  match o with Some _ => o | None => d end.

(** [xtend({}, defaults, opts)]. *)
Definition xtend_opts (d o : Options) : Options :=
  {| domain := or_else (domain o) (domain d);
     contentDir := or_else (contentDir o) (contentDir d);
     title := or_else (title o) (title d);
     description := or_else (description o) (description d);
     base := or_else (base o) (base d);
     latestCount := or_else (latestCount o) (latestCount d);
     indexCount := or_else (indexCount o) (indexCount d) |}.

(** [!opts.field] for a field that holds a string when present. *)
Definition falsy (o : option string) : bool :=
  match o with
  | None => true
  | Some s => String.eqb s ""
  end.

Record Corpus := {
  posts : list ref;
  post : Table;
  pages : list ref;
  latest : list ref;
  archive : gmap string (gmap string (list ref));
  tagged : gmap string (list ref);
  rss : string;
  atom : string;
}.

Section Feeds.
Context {E : Env}.

Definition rfc822 : option string := Some "ddd, DD MMM YYYY HH:mm:ss ZZ".

(** ['http://' + opts.domain + opts.base + path]. *)
Definition url (opts : Options) (path : string) : string :=
  "http://" ++ default "" (domain opts) ++ default "" (base opts) ++ path.

Definition str_opt (o : option string) : Value :=
  match o with Some s => VStr s | None => VUndef end.

(** The posts an array of references holds. *)
Definition deref (tbl : Table) (l : list ref) : list Post :=
  omap (λ k, objs tbl !! k) l.

Definition rss_item (opts : Options) (p : Post) : Value :=
  VObj [ ("title", default VUndef (meta p !! "title"));
         ("description", VStr (html p));
         ("link", VStr (url opts ("/" ++ name p)));
         ("guid", VStr (url opts ("/" ++ name p)));
         ("pubDate", VStr (moment_format rfc822 (moment_of p))) ].

Definition rssData (opts : Options) (now : Z) (items : list Post) : Value :=
  VObj [ ("@", VObj [ ("version", VStr "2.0") ]);
         ("channel", VObj
            [ ("title", str_opt (title opts));
              ("description", str_opt (description opts));
              ("link", VStr (url opts "/rss20.xml"));
              ("lastBuildDate", VStr (moment_format rfc822 (Some now)));
              ("pubDate", VStr (moment_format rfc822 (Some now)));
              ("ttl", VNum 1800);
              ("item", VArr (rss_item opts <$> items)) ]) ].

Definition atom_entry (opts : Options) (p : Post) : Value :=
  VObj [ ("title", default VUndef (meta p !! "title"));
         ("id", VStr (url opts ("/" ++ name p)));
         ("link", VArr
            [ VObj [ ("@", VObj [ ("href", VStr (url opts ("/" ++ name p))) ]) ];
              VObj [ ("@", VObj [ ("href", VStr (url opts ("/" ++ name p)));
                                  ("rel", VStr "self") ]) ] ]);
         ("content", VObj [ ("@", VObj [ ("type", VStr "html") ]);
                            ("#", VStr (html p)) ]);
         ("updated", VStr (moment_format None (moment_of p))) ].

(** [updated] is [moment().format()]: the clock as read at line 280. *)
Definition atomData (opts : Options) (at280 : Z) (items : list Post) : Value :=
  VObj [ ("@", VObj [ ("xmlns", VStr "http://www.w3.org/2005/Atom") ]);
         ("title", str_opt (title opts));
         ("link", VObj [ ("@", VObj [ ("href", VStr (url opts "/atom.xml"));
                                      ("rel", VStr "self") ]) ]);
         ("updated", VStr (moment_format None (Some at280)));
         ("id", VStr ("http://" ++ default "" (domain opts) ++ "/"));
         ("author", VObj [ ("name", VStr "Andrew Chilton");
                           ("email", VStr "andychilton@gmail.com") ]);
         ("entry", VArr (atom_entry opts <$> items)) ].
End Feeds.

(* ------------------------------------------------------------------------ *)
(** ** [readBlogSync] *)

Section ReadBlog.
Context {E : Env} (W : World).

(** Lines 73-161: list the directory, drop the directories, read each
    file into the [post] object. *)
Definition load (dir : string) (now : Z) : M Table :=
  let! files := fs_readdirSync W dir in
  let! files :=
    filterM (λ filename,
      let! d := fs_isDirectory W (dir ++ "/" ++ filename) in ret (negb d)) files in
  foldM (processFile W now dir) files {| order := []; objs := ∅ |}.

(** What lines 163-268 compute from the [post] object, up to the RSS
    document. *)
Record Assembled := {
  a_posts : list ref;
  a_post : Table;
  a_latest : list ref;
  a_archive : gmap string (gmap string (list ref));
  a_tagged : gmap string (list ref);
  a_rss : string;
}.

Definition assemble (opts : Options) (now : Z) (tbl : Table) : outcome Assembled :=
  let? tbl := normalize tbl in
  let posts := publish now tbl in
  let tbl := link posts tbl in
  let reverse := reverse posts in
  let latest := slice0 reverse (default 0 (latestCount opts)) in
  let? archive := foldO (archive_step tbl) posts ∅ in
  let? tagged := foldO (tagged_step tbl) posts ∅ in
  Return {| a_posts := posts; a_post := tbl; a_latest := latest;
            a_archive := archive; a_tagged := tagged;
            a_rss := data2xml "rss" (rssData opts now (deref tbl latest)) |}.

Definition readBlogSync (opts : Options) : M Corpus :=
  if falsy (domain opts) then throw (Error "Provide a domain")
  else if falsy (contentDir opts) then throw (Error "Provide a contentDir")
  else
    let opts := xtend_opts defaults opts in
    let dir := default "" (contentDir opts) in
    let! now := read_clock W in
    let! tbl := load dir now in
    let! a := lift (assemble opts now tbl) in
    let! at280 := read_clock W in
    ret {| posts := a_posts a;
           post := a_post a;
           pages := [];
           latest := a_latest a;
           archive := a_archive a;
           tagged := a_tagged a;
           rss := a_rss a;
           atom := data2xml "feed"
                     (atomData opts at280 (deref (a_post a) (a_latest a))) |}.

(** A run from the start of the process. *)
Definition run (opts : Options) : outcome Corpus * State :=
  readBlogSync opts {| ticks := 0; trace := [] |}.
End ReadBlog.

(* ------------------------------------------------------------------------ *)
(** ** The reading of a file name, and the effect of one file *)

(** [parts[1]] and the final [basename] of lines 83-97. *)
Definition ext_of (filename : string) : option string :=
  split_on "." filename !! 1%nat.
Definition ident (filename : string) : string :=
  strip_number_prefix (hd "" (split_on "." filename)).

(** The file passes the test of line 89. *)
Definition accepted (filename : string) : bool :=
  validExt_truthy (ext_of filename).

(** The extension selects one of the three metadata branches. *)
Definition is_overlay (ext : option string) : bool :=
  ext_is ext "json" || ext_is ext "yaml" || ext_is ext "ini".

(** The extension selects one of the three body branches that can be taken
    (lines 145-156). *)
Definition is_body (ext : option string) : bool :=
  ext_is ext "html" || ext_is ext "md" || ext_is ext "textile".

(** The file makes the run leave the embedded fragment: its identifier names
    a function of [Object.prototype], or it is "__proto__" and a branch of
    lines 122-160 is taken for the extension. *)
Definition leaves_fragment (filename : string) : bool :=
  prototype_function (ident filename)
  || (String.eqb (ident filename) "__proto__"
      && (is_overlay (ext_of filename) || is_body (ext_of filename)
          || ext_is (ext_of filename) "text")).

Section Effect.
Context {E : Env}.

Definition overlay (decoder : string → Value + string) (contents : string)
  : Post → Post :=
  match decoder contents with
  | inl v => set_meta (λ m, xtend m v)
  | inr _ => id
  end.

Definition when (b : bool) (f : Post → Post) : Post → Post :=
  if b then f else id.

(** What lines 121-160 do to [post[basename]] when no decoder fails, the
    branches taken in the order of the source. *)
Definition file_effect (ext : option string) (contents : string) : Post → Post :=
  when (ext_is ext "text")
       (set_body contents ("<pre>" ++ escape contents ++ "</pre>"))
  ∘ when (ext_is ext "textile") (set_body contents (textile contents))
  ∘ when (ext_is ext "md") (set_body contents (marked contents))
  ∘ when (ext_is ext "html") (set_body contents contents)
  ∘ when (ext_is ext "ini") (overlay ini_decode contents)
  ∘ when (ext_is ext "yaml") (overlay yaml_load contents)
  ∘ when (ext_is ext "json") (overlay JSON_parse contents).

(** No branch of lines 121-139 aborts on this file. *)
Definition decodes (ext : option string) (contents : string) : Prop :=
  (ext_is ext "json" → ∃ v, JSON_parse contents = inl v)
  ∧ (ext_is ext "yaml" → ∃ v, yaml_load contents = inl v)
  ∧ (ext_is ext "ini" → ∃ v, ini_decode contents = inl v).
End Effect.

(* ------------------------------------------------------------------------ *)
(** ** Vocabulary of the statements *)

(** The text after the first dot of a file name, which the specification
    calls its extension. *)
Fixpoint after_first_dot (filename : string) : option string :=
  match filename with
  | EmptyString => None
  | String a r => if Ascii.eqb a "." then Some r else after_first_dot r
  end.

Section Files.
Context {E : Env} (W : World).

(** The files of the directory, as the loop of line 80 receives them. *)
Definition regular_files (dir : string) (names : list string) : list string :=
  filter (λ f, isDirectory W (dir ++ "/" ++ f) = Some false) names.

(** The file is skipped, or it is read and no decoder fails on it. *)
Definition loads (dir f : string) : Prop :=
  accepted f = false
  ∨ (leaves_fragment f = false
     ∧ ∃ contents, readFileSync W (dir ++ "/" ++ f) = Some contents
                   ∧ decodes (ext_of f) contents).

(** What such a file does to the [post] object. *)
Definition file_step (now : Z) (dir : string) (tbl : Table) (f : string) : Table :=
  if accepted f then
    match readFileSync W (dir ++ "/" ++ f) with
    | Some contents =>
        update (ident f) (file_effect (ext_of f) contents) (ensure now (ident f) tbl)
    | None => tbl
    end
  else tbl.

End Files.

(** A post and one that differs from it in [prev] and [next] at most. *)
Definition same_body (p p' : Post) : Prop :=
  name p' = name p ∧ meta p' = meta p ∧ content p' = content p ∧ html p' = html p.

Definition same_bodies (os os' : gmap string Post) : Prop :=
  ∀ k, option_Forall2 same_body (os !! k) (os' !! k).

(** The fields of [meta] that lines 171-183 rewrite. *)
Definition date_fields : list string :=
  ["date"; "year"; "month"; "day"; "monthname"; "moment"].

(** A post and one that differs from it in the date fields at most. *)
Definition same_but_dates (p p' : Post) : Prop :=
  name p' = name p ∧ content p' = content p ∧ html p' = html p
  ∧ prev p' = prev p ∧ next p' = next p
  ∧ ∀ j, j ∉ date_fields → meta p' !! j = meta p !! j.


(** The [post] object before the linking loop: each key was created once,
    holds a post of that name, and no post has a [prev] or a [next]. *)
Record well_formed (tbl : Table) : Prop := {
  wf_NoDup : NoDup (order tbl);
  wf_keys : ∀ k, k ∈ order tbl ↔ is_Some (objs tbl !! k);
  wf_fresh : ∀ k p, objs tbl !! k = Some p →
                    name p = k ∧ prev p = None ∧ next p = None;
}.


(** The times whose year, in UTC, has four digits: from the first millisecond
    of the year 0000 to the last one of the year 9999. *)
Definition four_digit_years (t : Z) : Prop :=
  -62167219200000 <= t <= 253402300799999.

(** The time of the post under a key, and the order of two keys by it. *)
Definition time_of (tbl : Table) (k : ref) : option Z :=
  objs tbl !! k ≫= date_of.

Definition date_le (tbl : Table) (a b : ref) : Prop :=
  ∀ ta tb, time_of tbl a = Some ta → time_of tbl b = Some tb → ta <= tb.

(** The same directory tree under another clock. *)
Definition with_clock (W : World) (clk : nat → Z) : World :=
  {| readdirSync := readdirSync W; isDirectory := isDirectory W;
     readFileSync := readFileSync W; clock := clk |}.

(* ------------------------------------------------------------------------ *)
(** ** A small environment and directory to run the model on *)

Module Sample.

(** The double quote, U+0022. *)
Definition dq : string := String (ascii_of_nat 34) "".
Definition quoted (s : string) : string := dq ++ s ++ dq.

(** [{"title":"Hi","tags":["x"]}] *)
Definition hello_json : string :=
  "{" ++ quoted "title" ++ ":" ++ quoted "Hi" ++ ","
      ++ quoted "tags" ++ ":[" ++ quoted "x" ++ "]}".

(** [{"date":n,"tags":["x"]}] for the numbers the examples use. *)
Definition dated_json (n : string) : string :=
  "{" ++ quoted "date" ++ ":" ++ n ++ "," ++ quoted "tags" ++ ":[" ++ quoted "x" ++ "]}".

Definition documents : list (string * Value) :=
  [ (hello_json, VObj [ ("title", VStr "Hi"); ("tags", VArr [VStr "x"]) ]);
    (dated_json "-70000000000000",
     VObj [ ("date", VNum (-70000000000000)); ("tags", VArr [VStr "x"]) ]);
    (dated_json "-80000000000000",
     VObj [ ("date", VNum (-80000000000000)); ("tags", VArr [VStr "x"]) ]);
    (dated_json "1356998400000",
     VObj [ ("date", VNum 1356998400000); ("tags", VArr [VStr "x"]) ]);
    (dated_json "1388534400000",
     VObj [ ("date", VNum 1388534400000); ("tags", VArr [VStr "x"]) ]);
    (dated_json "1420070400000",
     VObj [ ("date", VNum 1420070400000); ("tags", VArr [VStr "x"]) ]);
    (dated_json "1483228800000",
     VObj [ ("date", VNum 1483228800000); ("tags", VArr [VStr "x"]) ]) ].

(** A decoder that knows the documents above; the other texts the examples
    feed it are not JSON. *)
Definition decode (s : string) : Value + string :=
  match assoc s documents with
  | Some v => inl v
  | None => inr "SyntaxError: Unexpected token"
  end.

Definition upper (a : ascii) : ascii :=
  let n := N_of_ascii a in
  if (97 <=? n)%N && (n <=? 122)%N then ascii_of_N (n - 32) else a.

Fixpoint map_string (f : ascii → ascii) (s : string) : string :=
  match s with
  | EmptyString => EmptyString
  | String a r => String (f a) (map_string f r)
  end.

Fixpoint escape_html (s : string) : string :=
  match s with
  | EmptyString => EmptyString
  | String a r =>
      (if Ascii.eqb a "&" then "&amp;"
       else if Ascii.eqb a "<" then "&lt;"
       else if Ascii.eqb a ">" then "&gt;"
       else String a "") ++ escape_html r
  end.

(** A formatter on UTC fields. *)
Definition format (fmt : option string) (t : option Z) : string :=
  match t with
  | None => "Invalid date"
  | Some t =>
      match fmt with
      | Some "YYYY" => substring 0 4 (toISOString t)
      | Some "MM" => PadInt 2 (MonthFromTime t + 1)
      | Some "DD" => PadInt 2 (DateFromTime t)
      | Some "MMMM" => "month " ++ PadInt 2 (MonthFromTime t + 1)
      | _ => substring 0 19 (toISOString t) ++ "+00:00"
      end
  end.

(** A serializer in the manner of data2xml: one element per field. *)
Fixpoint xml (tag : string) (v : Value) : string :=
  match v with
  | VStr s => "<" ++ tag ++ ">" ++ s ++ "</" ++ tag ++ ">"
  | VNum n => "<" ++ tag ++ ">" ++ pretty.pretty n ++ "</" ++ tag ++ ">"
  | VArr l => (fix each l := match l with [] => "" | x :: r => xml tag x ++ each r end) l
  | VObj l =>
      "<" ++ tag ++ ">"
        ++ (fix each l :=
              match l with [] => "" | (k, x) :: r => xml k x ++ each r end) l
        ++ "</" ++ tag ++ ">"
  | _ => "<" ++ tag ++ "/>"
  end.

Definition env : Env := {|
  marked := λ s, "<p>" ++ s ++ "</p>";
  textile := λ s, "<p>" ++ s ++ "</p>";
  escape := escape_html;
  JSON_parse := decode;
  yaml_load := decode;
  ini_decode := λ _, inl (VObj []);
  Date_parse := λ _, None;
  ToString := λ _, Some "[object Object]";
  toUpperCase := map_string upper;
  moment_format := format;
  data2xml := xml;
|}.

(** A directory [dir] whose entries are files with their contents
    ([Some c]) or subdirectories ([None]). *)
Definition entry_at (dir path : string) (entries : list (string * option string))
  : option (option string) :=
  assoc path (map (λ e, (dir ++ "/" ++ e.1, e.2)) entries).

Definition world (dir : string) (entries : list (string * option string))
    (clk : nat → Z) : World :=
  {| readdirSync := λ d, if String.eqb d dir then Some (entries.*1) else None;
     isDirectory := λ path, (λ e, negb (bool_decide (is_Some e))) <$> entry_at dir path entries;
     readFileSync := λ path, mjoin (entry_at dir path entries);
     clock := clk |}.

Definition opts : Options :=
  {| domain := Some "example.org"; contentDir := Some "content";
     title := Some "Blog"; description := None; base := None;
     latestCount := None; indexCount := None |}.

(** January 1st 2016, and the following readings one second apart. *)
Definition clk (k : nat) : Z := 1451606400000 + 1000 * Z.of_nat k.

(** A post of 2015, a post without metadata, a post dated 2017, a
    subdirectory and a file that is not content. *)
Definition blog : World :=
  world "content"
    [ ("01-first.md", Some "First");
      ("first.json", Some (dated_json "1420070400000"));
      ("draft.md", Some "Draft");
      ("later.md", Some "Later");
      ("later.json", Some (dated_json "1483228800000"));
      ("images", None);
      ("README", Some "notes") ]
    clk.

(** Two posts of the third and the sixth century before the common era. *)
Definition antiquity : World :=
  world "content"
    [ ("a.json", Some (dated_json "-70000000000000"));
      ("b.json", Some (dated_json "-80000000000000")) ]
    clk.

(** The clock of a slower run: the first reading is that of [clk], the
    second comes five seconds later. *)
Definition slow_clk (k : nat) : Z := 1451606400000 + 5000 * Z.of_nat k.

Definition first_post (clock : nat → Z) : World :=
  world "content"
    [ ("01-first.md", Some "First");
      ("first.json", Some (dated_json "1420070400000")) ]
    clock.
End Sample.


(* ------------------------------------------------------------------------ *)
(** ** Vocabulary of the further properties *)

(** The paths the run builds for the entries of the directory. *)
Definition path_of (dir f : string) : string := dir ++ "/" ++ f.

(** What the body branch of an extension puts in [html] (lines 145-156). *)
Definition rendered `{E : Env} (ext : option string) (contents : string) : string :=
  if ext_is ext "textile" then textile contents
  else if ext_is ext "md" then marked contents
  else contents.

(** The decoder the extension selects (lines 122-142). *)
Definition decoder_of `{E : Env} (ext : option string) : string → Value + string :=
  if ext_is ext "json" then JSON_parse
  else if ext_is ext "yaml" then yaml_load
  else ini_decode.

(** The list [archive[year][month]], empty when there is none. *)
Definition archive_bucket (ar : gmap string (gmap string (list ref)))
    (year month : string) : list ref :=
  default [] (ar !! year ≫= (λ months, months !! month)).

(** The list [tagged[tag]], empty when there is none. *)
Definition tagged_bucket (tg : gmap string (list ref)) (tag : string) : list ref :=
  default [] (tg !! tag).

(** The year and the month under which line 225-226 file the post. *)
Definition year_month (tbl : Table) (k : ref) : option (string * string) :=
  (λ p, (meta_string "year" p, meta_string "month" p)) <$> objs tbl !! k.

(** The keys under which lines 238-241 list a post: one for each element of
    [meta.tags], repeated when the element is. *)
Definition tag_keys `{E : Env} (p : Post) : list string :=
  match meta p !! "tags" with
  | Some (VArr tags) =>
      omap (λ tag, match tag_key tag with Return s => Some s | _ => None end) tags
  | _ => []
  end.

(** The references a post contributes to [tagged[tag]]. *)
Definition tag_entries `{E : Env} (tbl : Table) (tag : string) (k : ref) : list ref :=
  match objs tbl !! k with
  | Some p => (λ _, k) <$> filter (λ s, s = tag) (tag_keys p)
  | None => []
  end.


(** A string of decimal digits, and a string without a dot. *)
Definition all_digits (s : string) : Prop :=
  Forall (λ a, is_digit a = true) (list_ascii_of_string s).
Definition no_dot (s : string) : Prop :=
  Forall (λ a, a ≠ "."%char) (list_ascii_of_string s).

(** The values the metadata files of the post [k] decode to, in the order
    of the files. *)
Definition overlays `{E : Env} (W : World) (dir : string) (k : string)
    (files : list string) : list Value :=
  omap (λ f,
    if decide (ident f = k) then
      if is_overlay (ext_of f) then
        match readFileSync W (dir ++ "/" ++ f) with
        | Some contents =>
            match decoder_of (ext_of f) contents with
            | inl v => Some v
            | inr _ => None
            end
        | None => None
        end
      else None
    else None) files.

(** The files that write the body of the post [k]. *)
Definition body_files (k : string) (files : list string) : list string :=
  filter (λ f, ident f = k ∧ is_body (ext_of f) = true) files.

(** More directories to run the model on. *)
Module Cases.

(** The decoders of [Sample.env], with an ini decoder that rejects what the
    JSON decoder rejects. *)
Definition strict_env : Env := {|
  marked := marked (Env := Sample.env);
  textile := textile (Env := Sample.env);
  escape := escape (Env := Sample.env);
  JSON_parse := Sample.decode;
  yaml_load := Sample.decode;
  ini_decode := Sample.decode;
  Date_parse := Date_parse (Env := Sample.env);
  ToString := ToString (Env := Sample.env);
  toUpperCase := toUpperCase (Env := Sample.env);
  moment_format := Sample.format;
  data2xml := Sample.xml;
|}.

(** Three posts of 2013, 2014 and 2015, the first two with two files each. *)
Definition three_posts : World :=
  Sample.world "content"
    [ ("01-one.md", Some "One");
      ("02-two.html", Some "<b>Two</b>");
      ("one.json", Some (Sample.dated_json "1356998400000"));
      ("three.json", Some (Sample.dated_json "1420070400000"));
      ("two.json", Some (Sample.dated_json "1388534400000"));
      ("two.md", Some "Two");
      ("notes.bak", Some "scratch");
      ("img", None) ]
    Sample.clk.

(** The same posts in a directory without the entries that are skipped. *)
Definition three_posts_only : World :=
  Sample.world "content"
    [ ("01-one.md", Some "One");
      ("02-two.html", Some "<b>Two</b>");
      ("one.json", Some (Sample.dated_json "1356998400000"));
      ("three.json", Some (Sample.dated_json "1420070400000"));
      ("two.json", Some (Sample.dated_json "1388534400000"));
      ("two.md", Some "Two") ]
    Sample.clk.

(** A single post with a numbered file name and no metadata. *)
Definition numbered_post : World :=
  Sample.world "content" [ ("2013-my-first-post.md", Some "Hello") ] Sample.clk.

(** A directory whose second file is a metadata file no decoder accepts. *)
Definition broken (filename : string) : World :=
  Sample.world "content"
    [ ("a.md", Some "A"); (filename, Some "{oops"); ("z.md", Some "Z") ]
    Sample.clk.

(** A world whose directory cannot be listed, one with an entry that cannot
    be examined, and one with a file that cannot be read. *)
Definition no_directory : World :=
  {| readdirSync := λ _, None; isDirectory := λ _, None;
     readFileSync := λ _, None; clock := Sample.clk |}.

Definition no_stat : World :=
  {| readdirSync := λ d, if String.eqb d "content" then Some ["a.md"; "b.md"] else None;
     isDirectory := λ path, if String.eqb path "content/a.md" then Some false else None;
     readFileSync := λ path, if String.eqb path "content/a.md" then Some "A" else None;
     clock := Sample.clk |}.

Definition no_read : World :=
  {| readdirSync := λ d, if String.eqb d "content" then Some ["a.md"; "b.md"; "c.xyz"] else None;
     isDirectory := λ _, Some false;
     readFileSync := λ path, if String.eqb path "content/a.md" then Some "A" else None;
     clock := Sample.clk |}.

(** Three posts of one date, listed in an order that is not that of their
    names. *)
Definition same_date : World :=
  Sample.world "content"
    [ ("c.json", Some (Sample.dated_json "1356998400000"));
      ("a.json", Some (Sample.dated_json "1356998400000"));
      ("b.json", Some (Sample.dated_json "1356998400000")) ]
    Sample.clk.


(** A metadata file that [JSON.parse] rejects, next to an entry that cannot
    be examined. *)
Definition dangling : World :=
  {| readdirSync := λ d, if String.eqb d "content" then Some ["bad.json"; "ghost"] else None;
     isDirectory := λ path, if String.eqb path "content/bad.json" then Some false else None;
     readFileSync := λ path, if String.eqb path "content/bad.json" then Some "{oops" else None;
     clock := Sample.clk |}.
End Cases.

(* ======================================================================== *)
(** * Properties *)

(* ------------------------------------------------------------------------ *)
(** ** The calendar *)

(** [YearFromTime] is the year of ECMA-262: the one whose first day is not
    after the day of [t] while the first day of the next year is. *)
Lemma YearFromTime_spec t :
  DayFromYear (YearFromTime t) <= Day t < DayFromYear (YearFromTime t + 1).
Proof.
  unfold YearFromTime. generalize (Day t) as d. intros d.
  set (e := 1970 + d * 400 / 146097).
  assert (146097 * (e - 1970) <= d * 400 < 146097 * (e - 1970) + 146097) as He.
  { subst e. pose proof (Z.div_mod (d * 400) 146097 ltac:(lia)).
    pose proof (Z.mod_pos_bound (d * 400) 146097 ltac:(lia)). lia. }
  clearbody e.
  destruct (Z.leb_spec (DayFromYear (e + 1)) d) as [H1|H1].
  - split; [assumption|]. unfold DayFromYear in *. Z.div_mod_to_equations. lia.
  - destruct (Z.leb_spec (DayFromYear e) d) as [H2|H2]; [by split|].
    split; [|by replace (e - 1 + 1) with e by lia].
    unfold DayFromYear in *. Z.div_mod_to_equations. lia.
Qed.

Lemma DayFromYear_succ y : DayFromYear (y + 1) = DayFromYear y + DaysInYear y.
Proof.
  unfold DayFromYear, DaysInYear.
  repeat match goal with |- context [ ?a =? ?b ] => destruct (Z.eqb_spec a b) end;
    simpl; Z.div_mod_to_equations; lia.
Qed.

Lemma DayFromYear_mono y1 y2 : y1 <= y2 → DayFromYear y1 <= DayFromYear y2.
Proof. unfold DayFromYear. intros. Z.div_mod_to_equations. lia. Qed.

Lemma YearFromTime_mono t1 t2 :
  Day t1 <= Day t2 → YearFromTime t1 <= YearFromTime t2.
Proof.
  intros H. pose proof (YearFromTime_spec t1). pose proof (YearFromTime_spec t2).
  destruct (decide (YearFromTime t1 <= YearFromTime t2)); [done|].
  pose proof (DayFromYear_mono (YearFromTime t2 + 1) (YearFromTime t1) ltac:(lia)).
  lia.
Qed.

Lemma DayWithinYear_bounds t : 0 <= DayWithinYear t < 365 + InLeapYear t.
Proof.
  unfold DayWithinYear, InLeapYear. pose proof (YearFromTime_spec t) as H.
  rewrite DayFromYear_succ in H. unfold DaysInYear in *.
  repeat match goal with
         | |- context [ ?a =? ?b ] => destruct (Z.eqb_spec a b); simpl in *
         | H : context [ ?a =? ?b ] |- _ => destruct (Z.eqb_spec a b); simpl in *
         end; lia.
Qed.

Lemma InLeapYear_bounds t : 0 <= InLeapYear t <= 1.
Proof. unfold InLeapYear. destruct (_ =? _); lia. Qed.

Ltac split_tests :=
  repeat match goal with
         | |- context [ ?a <? ?b ] => destruct (Z.ltb_spec a b); cbn iota beta
         end.

Lemma MonthFromTime_bounds t : 0 <= MonthFromTime t <= 11.
Proof. unfold MonthFromTime. split_tests; lia. Qed.

Lemma DateFromTime_bounds t : 1 <= DateFromTime t <= 31.
Proof.
  pose proof (DayWithinYear_bounds t). pose proof (InLeapYear_bounds t).
  unfold DateFromTime, MonthFromTime.
  generalize dependent (DayWithinYear t). generalize dependent (InLeapYear t).
  intros l Hl d Hd. split_tests; lia.
Qed.

Lemma month_date_lt t1 t2 :
  Day t1 < Day t2 → YearFromTime t1 = YearFromTime t2 →
  MonthFromTime t1 < MonthFromTime t2
  ∨ (MonthFromTime t1 = MonthFromTime t2 ∧ DateFromTime t1 < DateFromTime t2).
Proof.
  intros Hd Hy.
  assert (DayWithinYear t1 < DayWithinYear t2) as Hw
    by (unfold DayWithinYear; rewrite Hy; lia).
  assert (InLeapYear t1 = InLeapYear t2) as Hl
    by (unfold InLeapYear; by rewrite Hy).
  pose proof (InLeapYear_bounds t2).
  unfold DateFromTime, MonthFromTime. rewrite Hl.
  generalize dependent (DayWithinYear t1). generalize dependent (DayWithinYear t2).
  generalize dependent (InLeapYear t2). clear.
  intros l Hl d2 d1 Hw. split_tests; lia.
Qed.

Lemma length_append_string (a b : string) :
  String.length (a ++ b) = (String.length a + String.length b)%nat.
Proof. induction a as [|x a IH]; simpl; [done|]. by rewrite IH. Qed.

Lemma length_PadInt w n : String.length (PadInt w n) = w.
Proof.
  revert n. induction w as [|w IH]; intros n; [done|]. simpl.
  rewrite length_append_string, IH. simpl. lia.
Qed.

Lemma compare_append a b s1 s2 :
  String.length a = String.length b →
  String.compare (a ++ s1) (b ++ s2) =
    match String.compare a b with Eq => String.compare s1 s2 | c => c end.
Proof.
  revert b. induction a as [|x a IH]; intros [|y b] Hlen; try done.
  simpl. destruct (Ascii.compare x y); [|done..].
  apply IH. simpl in Hlen. lia.
Qed.

Lemma compare_digit a b :
  Ascii.compare (digit a) (digit b) = (a mod 10 ?= b mod 10).
Proof.
  unfold Ascii.compare, digit.
  pose proof (Z.mod_pos_bound a 10 ltac:(lia)).
  pose proof (Z.mod_pos_bound b 10 ltac:(lia)).
  rewrite !N_ascii_embedding by lia.
  destruct (Z.compare_spec (a mod 10) (b mod 10)),
    (N.compare_spec (48 + Z.to_N (a mod 10)) (48 + Z.to_N (b mod 10)));
    try reflexivity; lia.
Qed.

(** Numbers padded to the same width compare as numbers. *)
Lemma compare_PadInt w a b :
  0 <= a < 10 ^ Z.of_nat w → 0 <= b < 10 ^ Z.of_nat w →
  String.compare (PadInt w a) (PadInt w b) = (a ?= b).
Proof.
  revert a b. induction w as [|w IH]; intros a b Ha Hb.
  - simpl in *. symmetry. apply Z.compare_eq_iff. lia.
  - rewrite Nat2Z.inj_succ, Z.pow_succ_r in Ha, Hb by lia.
    cbn [PadInt]. rewrite compare_append by (by rewrite !length_PadInt).
    rewrite IH by (Z.div_mod_to_equations; lia).
    simpl. rewrite compare_digit.
    destruct (Z.compare_spec (a / 10) (b / 10)),
      (Z.compare_spec (a mod 10) (b mod 10)), (Z.compare_spec a b);
      try reflexivity; Z.div_mod_to_equations; lia.
Qed.

(** A padded field and a separator in front of the rest of the string. *)
Lemma compare_field w a b c r1 r2 :
  0 <= a < 10 ^ Z.of_nat w → 0 <= b < 10 ^ Z.of_nat w →
  String.compare (PadInt w a ++ String c r1) (PadInt w b ++ String c r2) =
    match a ?= b with Eq => String.compare r1 r2 | x => x end.
Proof.
  intros Ha Hb. rewrite compare_append by (by rewrite !length_PadInt).
  rewrite compare_PadInt by done. simpl.
  assert (Ascii.compare c c = Eq) as ->; [|done].
  unfold Ascii.compare. apply N.compare_refl.
Qed.

Lemma four_digit_years_YearFromTime t :
  four_digit_years t → 0 <= YearFromTime t <= 9999.
Proof.
  unfold four_digit_years. intros Ht. pose proof (YearFromTime_spec t) as Hs.
  assert (-719528 <= Day t <= 2932896) as Hd
    by (unfold Day, msPerDay; Z.div_mod_to_equations; lia).
  split.
  - destruct (decide (0 <= YearFromTime t)); [done|].
    pose proof (DayFromYear_mono (YearFromTime t + 1) 0 ltac:(lia)) as Hm.
    change (DayFromYear 0) with (-719528) in Hm. lia.
  - destruct (decide (YearFromTime t <= 9999)); [done|].
    pose proof (DayFromYear_mono 10000 (YearFromTime t) ltac:(lia)) as Hm.
    change (DayFromYear 10000) with 2932897 in Hm. lia.
Qed.

Lemma toISOString_four_digit_years t :
  four_digit_years t →
  toISOString t =
    PadInt 4 (YearFromTime t)
      ++ String "-" (PadInt 2 (MonthFromTime t + 1)
      ++ String "-" (PadInt 2 (DateFromTime t)
      ++ String "T" (PadInt 2 (TimeWithinDay t / 3600000)
      ++ String ":" (PadInt 2 (TimeWithinDay t / 60000 mod 60)
      ++ String ":" (PadInt 2 (TimeWithinDay t / 1000 mod 60)
      ++ String "." (PadInt 3 (TimeWithinDay t mod 1000) ++ String "Z" "")))))).
Proof.
  intros [H0 H1]%four_digit_years_YearFromTime. unfold toISOString.
  apply Z.leb_le in H0, H1. by rewrite H0, H1.
Qed.

(** Within the years 0000 to 9999 the ISO strings are ordered as the times. *)
Lemma toISOString_lt t1 t2 :
  four_digit_years t1 → four_digit_years t2 → t1 < t2 →
  String.compare (toISOString t1) (toISOString t2) = Lt.
Proof.
  intros H1 H2 Hlt.
  rewrite !toISOString_four_digit_years by done.
  pose proof (four_digit_years_YearFromTime _ H1).
  pose proof (four_digit_years_YearFromTime _ H2).
  pose proof (MonthFromTime_bounds t1). pose proof (MonthFromTime_bounds t2).
  pose proof (DateFromTime_bounds t1). pose proof (DateFromTime_bounds t2).
  assert (0 <= TimeWithinDay t1 < 86400000 ∧ 0 <= TimeWithinDay t2 < 86400000)
    as [Hw1 Hw2] by (unfold TimeWithinDay, msPerDay; Z.div_mod_to_equations; lia).
  rewrite !compare_field
    by (change (10 ^ Z.of_nat 4) with 10000; change (10 ^ Z.of_nat 2) with 100;
        change (10 ^ Z.of_nat 3) with 1000; Z.div_mod_to_equations; lia).
  assert (Day t1 < Day t2 ∨ (Day t1 = Day t2 ∧ TimeWithinDay t1 < TimeWithinDay t2))
    as [Hd|[Hd Hw]]
    by (unfold Day, TimeWithinDay, msPerDay; Z.div_mod_to_equations; lia).
  - pose proof (YearFromTime_mono t1 t2 ltac:(lia)) as Hy.
    destruct (Z.compare_spec (YearFromTime t1) (YearFromTime t2)) as [Heq| |];
      [|done|lia].
    destruct (month_date_lt t1 t2 Hd Heq) as [Hm|[Hm Hdt]].
    + by replace (MonthFromTime t1 + 1 ?= MonthFromTime t2 + 1) with Lt
        by (symmetry; apply Z.compare_lt_iff; lia).
    + rewrite Hm, Z.compare_refl.
      by replace (DateFromTime t1 ?= DateFromTime t2) with Lt
        by (symmetry; by apply Z.compare_lt_iff).
  - assert (YearFromTime t1 = YearFromTime t2) as ->
      by (unfold YearFromTime; by rewrite Hd).
    assert (MonthFromTime t1 = MonthFromTime t2) as ->
      by (unfold MonthFromTime, DayWithinYear, InLeapYear, YearFromTime;
          by rewrite Hd).
    assert (DateFromTime t1 = DateFromTime t2) as ->
      by (unfold DateFromTime, MonthFromTime, DayWithinYear, InLeapYear,
            YearFromTime; by rewrite Hd).
    rewrite !Z.compare_refl.
    generalize dependent (TimeWithinDay t1). generalize dependent (TimeWithinDay t2).
    clear. intros w2 Hw2 w1 Hw1 Hw.
    repeat match goal with
           | |- context [ ?a ?= ?b ] => destruct (Z.compare_spec a b)
           end; try reflexivity; Z.div_mod_to_equations; lia.
Qed.

Example toISOString_epoch : toISOString 0 = "1970-01-01T00:00:00.000Z".
Proof. reflexivity. Qed.

Example toISOString_leap_day :
  toISOString 1709251199999 = "2024-02-29T23:59:59.999Z".
Proof. reflexivity. Qed.

Example toISOString_year_zero :
  toISOString (-62167219200000) = "0000-01-01T00:00:00.000Z"
  ∧ toISOString (-62167219200001) = "-000001-12-31T23:59:59.999Z".
Proof. by split. Qed.

Example toISOString_year_10000 :
  toISOString 253402300799999 = "9999-12-31T23:59:59.999Z"
  ∧ toISOString 253402300800000 = "+010000-01-01T00:00:00.000Z".
Proof. by split. Qed.

(** File names as lines 83-97 read them. *)
Example reading_of_file_names :
  (ext_of "01-hello.md", ident "01-hello.md") = (Some "md", "hello")
  ∧ (ext_of "a.b.md", accepted "a.b.md") = (Some "b", false)
  ∧ (ext_of "README", accepted "README") = (None, false)
  ∧ (ext_of "x.constructor", accepted "x.constructor") = (Some "constructor", true)
  ∧ ident "2013-12-first-post.md" = "12-first-post"
  ∧ ident "7up.md" = "7up".
Proof. by repeat split. Qed.

(* ------------------------------------------------------------------------ *)
(** ** The monad *)

Lemma bind_Return {A B} (m : M A) (k : A → M B) s b s' :
  bind m k s = (Return b, s') →
  ∃ a s1, m s = (Return a, s1) ∧ k a s1 = (Return b, s').
Proof.
  unfold bind. destruct (m s) as [[a| | |] s1]; intros H; try discriminate.
  by exists a, s1.
Qed.

Lemma bindO_Return {A B} (o : outcome A) (k : A → outcome B) b :
  bindO o k = Return b → ∃ a, o = Return a ∧ k a = Return b.
Proof. destruct o; simpl; intros H; try discriminate. eauto. Qed.

Lemma foldM_Return_ind {A B} (f : A → B → M A) (P : A → Prop) l :
  (∀ a b s a' s', b ∈ l → f a b s = (Return a', s') → P a → P a') →
  ∀ a s a' s', foldM f l a s = (Return a', s') → P a → P a'.
Proof.
  induction l as [|b l IH]; intros Hstep a s a' s' Hrun Ha.
  - by inversion Hrun; subst.
  - simpl in Hrun. apply bind_Return in Hrun as (a1 & s1 & H1 & H2).
    eapply IH; [|exact H2|].
    + intros; eapply Hstep; [by right|done..].
    + eapply Hstep; [by left|done..].
Qed.

Lemma foldO_Return_ind {A B} (f : A → B → outcome A) (P : A → Prop) l :
  (∀ a b a', b ∈ l → f a b = Return a' → P a → P a') →
  ∀ a a', foldO f l a = Return a' → P a → P a'.
Proof.
  induction l as [|b l IH]; intros Hstep a a' Hrun Ha.
  - by inversion Hrun; subst.
  - simpl in Hrun. apply bindO_Return in Hrun as (a1 & H1 & H2).
    eapply IH; [|exact H2|].
    + intros; eapply Hstep; [by right|done..].
    + eapply Hstep; [by left|done..].
Qed.

(* ------------------------------------------------------------------------ *)
(** ** One file *)

Lemma update_update k g1 g2 tbl :
  update k g1 (update k g2 tbl) = update k (g1 ∘ g2) tbl.
Proof. unfold update; simpl. by rewrite alter_alter_eq. Qed.

Lemma update_when k (b : bool) g tbl :
  (if b then update k g tbl else tbl) = update k (when b g) tbl.
Proof.
  destruct b; [done|]. unfold update, when. destruct tbl; simpl.
  by rewrite alter_id.
Qed.

Section OneFile.
Context {E : Env} (W : World).

Lemma processFile_skipped now dir tbl f s :
  accepted f = false → processFile W now dir tbl f s = (Return tbl, s).
Proof. unfold accepted, ext_of, processFile. by intros ->. Qed.

Lemma prototype_function_inherited k :
  inherited k = false → prototype_function k = false.
Proof. unfold prototype_function. by intros ->. Qed.

Lemma leaves_fragment_inherited f :
  inherited (ident f) = false → leaves_fragment f = false.
Proof.
  intros H. unfold leaves_fragment, prototype_function. rewrite H.
  destruct (String.eqb_spec (ident f) "__proto__") as [Heq|]; [|done].
  by rewrite Heq in H.
Qed.

(** What [leaves_fragment] excludes, branch by branch. *)
Lemma leaves_fragment_false f :
  leaves_fragment f = false →
  prototype_function (ident f) = false
  ∧ ∀ lit, lit ∈ ["json"; "yaml"; "ini"; "html"; "md"; "textile"; "text"] →
           inherited (ident f) && ext_is (ext_of f) lit = false.
Proof.
  unfold leaves_fragment, is_overlay, is_body, prototype_function.
  intros [Hp H]%orb_false_iff. split; [done|]. intros lit Hlit.
  destruct (inherited (ident f)); [|done].
  destruct (String.eqb (ident f) "__proto__"); [|done]. simpl in *.
  repeat match goal with
         | H : _ || _ = false |- _ => apply orb_false_iff in H as [? ?]
         end.
  repeat (apply elem_of_cons in Hlit as [->|Hlit]; [done|]).
  by apply elem_of_nil in Hlit.
Qed.

(** One metadata branch whose decoder accepts the contents. *)
Lemma stage_decoded {B} (b : bool) decoder c key tbl
    (abort : string → M Table) (k : Table → M B) s :
  (b → ∃ v, decoder c = inl v) →
  inherited key && b = false →
  bind (if b then
          match decoder c with
          | inl v => write key (set_meta (λ m, xtend m v)) tbl
          | inr e => abort e
          end
        else ret tbl) k s
  = k (update key (when b (overlay decoder c)) tbl) s.
Proof.
  intros H Hk. rewrite <- update_when. destruct b; [|done].
  destruct H as [v Hv]; [done|]. unfold overlay, write. rewrite Hv.
  rewrite andb_true_r in Hk. by rewrite Hk.
Qed.

(** One body branch. *)
Lemma stage_written {B} (b : bool) g key tbl (k : Table → M B) s :
  inherited key && b = false →
  bind (if b then write key g tbl else ret tbl) k s
  = k (update key (when b g) tbl) s.
Proof.
  intros Hk. rewrite <- update_when. destruct b; [|done]. unfold write.
  rewrite andb_true_r in Hk. by rewrite Hk.
Qed.

(** A file that passes the test of line 89 and makes no decoder fail. *)
Lemma processFile_accepted now dir tbl f s contents :
  accepted f = true → leaves_fragment f = false →
  readFileSync W (dir ++ "/" ++ f) = Some contents →
  decodes (ext_of f) contents →
  processFile W now dir tbl f s =
    (Return (update (ident f) (file_effect (ext_of f) contents)
               (ensure now (ident f) tbl)),
     {| ticks := ticks s; trace := trace s ++ [ReadFile (dir ++ "/" ++ f)] |}).
Proof.
  intros Hacc [Hfun Hlit]%leaves_fragment_false Hread (Hj & Hy & Hi).
  unfold accepted in Hacc. unfold processFile.
  fold (ext_of f) (ident f). rewrite Hacc, Hfun.
  generalize dependent (ext_of f). generalize dependent (ident f).
  intros b Hfun ext Hacc Hlit Hj Hy Hi. cbn [negb].
  unfold bind at 1, fs_readFileSync, call, bind at 1, emit. rewrite Hread. simpl.
  rewrite (stage_decoded _ JSON_parse) by (done || (apply Hlit; repeat constructor)).
  rewrite (stage_decoded _ yaml_load) by (done || (apply Hlit; repeat constructor)).
  rewrite (stage_decoded _ ini_decode) by (done || (apply Hlit; repeat constructor)).
  rewrite !stage_written by (apply Hlit; repeat constructor).
  unfold ret. by rewrite !update_update.
Qed.

Lemma stage_Return (b : bool) decoder c key tbl (abort : string → M Table)
    s t s' :
  (∀ e s t s', abort e s ≠ (Return t, s')) →
  (if b then
     match decoder c with
     | inl v => write key (set_meta (λ m, xtend m v)) tbl
     | inr e => abort e
     end
   else ret tbl) s = (Return t, s') →
  (b → ∃ v, decoder c = inl v)
  ∧ inherited key && b = false
  ∧ t = update key (when b (overlay decoder c)) tbl.
Proof.
  intros Habort. rewrite <- update_when. unfold overlay, write.
  destruct b; [|intros [= <- <-]; by rewrite andb_false_r].
  rewrite andb_true_r. destruct (decoder c) as [v|e].
  - destruct (inherited key); [done|]. intros [= <- <-]. eauto.
  - intros H. by apply Habort in H.
Qed.

Lemma stage_written_Return (b : bool) g key tbl s t s' :
  (if b then write key g tbl else ret tbl) s = (Return t, s') →
  inherited key && b = false ∧ t = update key (when b g) tbl.
Proof.
  rewrite <- update_when. unfold write.
  destruct b; [|intros [= <- <-]; by rewrite andb_false_r].
  rewrite andb_true_r.
  destruct (inherited key); [done|]. by intros [= <- <-].
Qed.

(** Conversely, a file whose processing returns was skipped, or passed the
    test of line 89, made no decoder fail and left no object of the runtime
    in [post] or written to. *)
Lemma processFile_Return now dir tbl f s tbl' s' :
  processFile W now dir tbl f s = (Return tbl', s') →
  (accepted f = false ∧ tbl' = tbl)
  ∨ (accepted f = true ∧ leaves_fragment f = false
     ∧ ∃ contents,
         readFileSync W (dir ++ "/" ++ f) = Some contents
         ∧ decodes (ext_of f) contents
         ∧ tbl' = update (ident f) (file_effect (ext_of f) contents)
                    (ensure now (ident f) tbl)).
Proof.
  intros H. destruct (accepted f) eqn:Ha.
  2: { rewrite processFile_skipped in H by done. left. by inversion H. }
  right. split; [done|].
  unfold processFile in H. fold (ext_of f) (ident f) in H.
  unfold accepted in Ha. rewrite Ha in H. cbn [negb] in H.
  apply bind_Return in H as (c & s0 & Hread & H).
  apply bind_Return in H as (t1 & s1 & H1 & H).
  apply bind_Return in H as (t2 & s2 & H2 & H).
  apply bind_Return in H as (t3 & s3 & H3 & H).
  apply bind_Return in H as (t4 & s4 & H4 & H).
  apply bind_Return in H as (t5 & s5 & H5 & H).
  apply bind_Return in H as (t6 & s6 & H6 & H).
  apply bind_Return in H as (t7 & s7 & H7 & H).
  destruct (prototype_function (ident f)) eqn:Hfun; [done|].
  apply stage_Return in H1 as (Hj & Kj & ->); [|by intros ????; unfold bind, emit].
  apply stage_Return in H2 as (Hy & Ky & ->); [|by intros ????; unfold bind, emit].
  apply stage_Return in H3 as (Hi & Ki & ->); [|done].
  apply stage_written_Return in H4 as (K4 & ->).
  apply stage_written_Return in H5 as (K5 & ->).
  apply stage_written_Return in H6 as (K6 & ->).
  apply stage_written_Return in H7 as (K7 & ->).
  split.
  { unfold leaves_fragment, is_overlay, is_body. rewrite Hfun. cbn [orb].
    destruct (String.eqb_spec (ident f) "__proto__") as [Heq|]; [|done].
    rewrite Heq in *. cbn [andb inherited] in *.
    change (inherited "__proto__") with true in *. cbn [andb] in *.
    by rewrite Kj, Ky, Ki, K4, K5, K6, K7. }
  exists c. split; [|split; [done|]].
  - unfold fs_readFileSync, call, bind, emit in Hread.
    destruct (readFileSync W _); [|done]. by inversion Hread.
  - unfold ret in H. inversion H; subst.
    by rewrite !update_update.
Qed.
End OneFile.

(* ------------------------------------------------------------------------ *)
(** ** The shape of a run that returns *)

Section Runs.
Context {E : Env} (W : World).

Lemma filterM_files dir names s files s' :
  filterM (λ filename,
    let! d := fs_isDirectory W (dir ++ "/" ++ filename) in ret (negb d)) names s
    = (Return files, s') →
  files = filter (λ f, isDirectory W (dir ++ "/" ++ f) = Some false) names
  ∧ ticks s' = ticks s.
Proof.
  revert s files s'. induction names as [|f names IH]; intros s files s' H.
  - by inversion H.
  - simpl in H.
    apply bind_Return in H as (k & s1 & Hk & H).
    apply bind_Return in H as (r & s2 & Hr & H).
    apply IH in Hr as [-> Ht]. unfold ret in H. inversion H; subst.
    apply bind_Return in Hk as (d & s0 & Hd & Hk).
    unfold fs_isDirectory, call, bind, emit in Hd.
    destruct (isDirectory W (dir ++ "/" ++ f)) as [d'|] eqn:Hdir; [|done].
    inversion Hd; subst. inversion Hk; subst. simpl in Ht. split; [|done].
    rewrite filter_cons, Hdir. destruct d; simpl.
    + destruct (decide (Some true = Some false)); congruence.
    + destruct (decide (Some false = Some false)); congruence.
Qed.

Lemma processFile_ticks now dir tbl f s tbl' s' :
  processFile W now dir tbl f s = (Return tbl', s') → ticks s' = ticks s.
Proof.
  intros H. pose proof H as H'.
  apply processFile_Return in H' as [[Ha ->]|(Ha & Hi & c & Hr & Hd & ->)].
  - rewrite processFile_skipped in H by done. by inversion H.
  - rewrite (processFile_accepted _ _ _ _ _ _ c) in H by done. by inversion H.
Qed.

Lemma foldM_processFile_ticks now dir files tbl s tbl' s' :
  foldM (processFile W now dir) files tbl s = (Return tbl', s') →
  ticks s' = ticks s.
Proof.
  revert tbl s. induction files as [|f files IH]; intros tbl s H.
  - by inversion H.
  - simpl in H. apply bind_Return in H as (t1 & s1 & H1 & H).
    apply IH in H. apply processFile_ticks in H1. congruence.
Qed.

Lemma load_Return dir now s tbl s' :
  load W dir now s = (Return tbl, s') →
  ticks s' = ticks s
  ∧ ∃ names s1,
      readdirSync W dir = Some names
      ∧ foldM (processFile W now dir) (regular_files W dir names)
          {| order := []; objs := ∅ |} s1 = (Return tbl, s').
Proof.
  unfold load. intros H.
  apply bind_Return in H as (names & s0 & Hn & H).
  apply bind_Return in H as (files & s1 & Hf & H).
  apply filterM_files in Hf as [-> Ht1].
  pose proof (foldM_processFile_ticks _ _ _ _ _ _ _ H) as Ht2.
  unfold fs_readdirSync, call, bind, emit in Hn.
  destruct (readdirSync W dir) as [names'|]; [|done]. inversion Hn; subst.
  simpl in *. split; [congruence|]. by exists names, s1.
Qed.

(** Everything a returned corpus is made of. *)
Lemma run_Return opts c st :
  run W opts = (Return c, st) →
  let opts' := xtend_opts defaults opts in
  let dir := default "" (contentDir opts) in
  let now := clock W 0 in
  falsy (domain opts) = false ∧ falsy (contentDir opts) = false
  ∧ ∃ names tbl tblN s1 s2,
      readdirSync W dir = Some names
      ∧ foldM (processFile W now dir) (regular_files W dir names)
          {| order := []; objs := ∅ |} s1 = (Return tbl, s2)
      ∧ normalize tbl = Return tblN
      ∧ posts c = publish now tblN
      ∧ post c = link (posts c) tblN
      ∧ latest c = slice0 (reverse (posts c)) (default 0 (latestCount opts'))
      ∧ foldO (archive_step (post c)) (posts c) ∅ = Return (archive c)
      ∧ foldO (tagged_step (post c)) (posts c) ∅ = Return (tagged c)
      ∧ rss c = data2xml "rss" (rssData opts' now (deref (post c) (latest c)))
      ∧ atom c = data2xml "feed"
                   (atomData opts' (clock W 1) (deref (post c) (latest c)))
      ∧ pages c = [].
Proof.
  unfold run, readBlogSync. intros H.
  replace (contentDir (xtend_opts defaults opts)) with (contentDir opts) in H
    by (by destruct opts as [? []]).
  destruct (falsy (domain opts)); [done|].
  destruct (falsy (contentDir opts)); [done|].
  split; [done|]. split; [done|].
  apply bind_Return in H as (now & s0 & Hnow & H).
  apply bind_Return in H as (tbl & s2 & Hload & H).
  apply bind_Return in H as (a & s3 & Ha & H).
  apply bind_Return in H as (at280 & s4 & H280 & H).
  unfold read_clock in Hnow. inversion Hnow; subst; clear Hnow.
  apply load_Return in Hload as (Ht & names & s1 & Hnames & Hfold).
  unfold lift in Ha. inversion Ha as [[Hasm Hs]]; subst s3.
  unfold read_clock in H280. simpl in Ht. rewrite Ht in H280.
  inversion H280; subst; clear H280.
  unfold assemble in Hasm.
  apply bindO_Return in Hasm as (tblN & HN & Hasm).
  apply bindO_Return in Hasm as (ar & Har & Hasm).
  apply bindO_Return in Hasm as (tg & Htg & Hasm).
  inversion Hasm; subst a; clear Hasm.
  unfold ret in H. inversion H; subst; clear H. simpl.
  exists names, tbl, tblN, s1, s2. done.
Qed.
End Runs.

(* ------------------------------------------------------------------------ *)
(** ** Keys, publication, links *)

Lemma insert_sorted_Permutation {A} (R : relation A) `{!RelDecision R} x l :
  insert_sorted R x l ≡ₚ x :: l.
Proof.
  induction l as [|y l IH]; [done|]. cbn [insert_sorted].
  destruct (decide (R x y)); [done|]. rewrite IH. apply Permutation_swap.
Qed.

Lemma stable_sort_Permutation {A} (R : relation A) `{!RelDecision R} l :
  stable_sort R l ≡ₚ l.
Proof.
  induction l as [|x l IH]; [done|]. cbn [stable_sort foldr].
  fold (stable_sort R l). by rewrite insert_sorted_Permutation, IH.
Qed.

Lemma Sorted_insert_sorted {A} (R : relation A) `{!RelDecision R} `{!Total R} x l :
  Sorted R l → Sorted R (insert_sorted R x l).
Proof.
  induction 1 as [|y l Hl IH Hhd]; cbn [insert_sorted].
  - by repeat constructor.
  - destruct (decide (R x y)) as [Hxy|Hxy].
    + by repeat constructor.
    + constructor; [done|].
      assert (R y x) as Hyx by (by destruct (total R x y)).
      destruct Hhd as [|z l' Hyz]; cbn [insert_sorted]; [by constructor|].
      destruct (decide (R x z)); by constructor.
Qed.

Lemma Sorted_stable_sort {A} (R : relation A) `{!RelDecision R} `{!Total R} l :
  Sorted R (stable_sort R l).
Proof.
  induction l as [|x l IH]; [constructor|]. cbn [stable_sort foldr].
  by apply Sorted_insert_sorted.
Qed.

Lemma Object_keys_Permutation tbl : Object_keys tbl ≡ₚ order tbl.
Proof.
  unfold Object_keys. rewrite stable_sort_Permutation.
  apply filter_app_complement.
Qed.

Lemma elem_of_Object_keys tbl k : k ∈ Object_keys tbl ↔ k ∈ order tbl.
Proof. by rewrite Object_keys_Permutation. Qed.

#[local] Instance same_body_refl : Reflexive same_body.
Proof. by intros p. Qed.

#[local] Instance same_body_trans : Transitive same_body.
Proof.
  intros p q r (?&?&?&?) (?&?&?&?). unfold same_body. repeat split; congruence.
Qed.

Lemma same_bodies_refl os : same_bodies os os.
Proof. intros k. by destruct (os !! k); constructor. Qed.

Lemma same_bodies_trans os1 os2 os3 :
  same_bodies os1 os2 → same_bodies os2 os3 → same_bodies os1 os3.
Proof.
  intros H1 H2 k. specialize (H1 k). specialize (H2 k).
  destruct H1 as [p q Hpq|]; inversion H2; subst; constructor.
  by etrans.
Qed.

Lemma same_bodies_alter f k os :
  (∀ p, same_body p (f p)) → same_bodies os (alter f k os).
Proof.
  intros Hf j. destruct (decide (k = j)) as [->|Hne].
  - rewrite lookup_alter_eq. destruct (os !! j); constructor; auto.
  - rewrite lookup_alter_ne by done. by destruct (os !! j); constructor.
Qed.

Section Published.
Context {E : Env}.

Lemma link_one_bodies ps os i : same_bodies os (link_one ps os i).
Proof.
  unfold link_one. destruct (ps !! i) as [k|]; [|apply same_bodies_refl].
  eapply same_bodies_trans with
    (os2 := if (0 <? i)%nat then alter (set_prev (ps !! (i - 1)%nat)) k os else os).
  - destruct (0 <? i)%nat; [|apply same_bodies_refl].
    by apply same_bodies_alter.
  - destruct (i <? length ps - 1)%nat; [|apply same_bodies_refl].
    by apply same_bodies_alter.
Qed.

Lemma link_bodies ps tbl : same_bodies (objs tbl) (objs (link ps tbl)).
Proof.
  unfold link; simpl. generalize (seq 0 (length ps)) as l.
  generalize (objs tbl) as os. intros os l. revert os.
  induction l as [|i l IH]; intros os; simpl.
  - apply same_bodies_refl.
  - eapply same_bodies_trans; [apply link_one_bodies|apply IH].
Qed.

Lemma link_order ps tbl : order (link ps tbl) = order tbl.
Proof. done. Qed.


Lemma elem_of_publish now tbl k :
  k ∈ publish now tbl ↔ published now tbl k = true ∧ k ∈ order tbl.
Proof.
  unfold publish. rewrite stable_sort_Permutation, list_elem_of_filter.
  rewrite elem_of_Object_keys, Is_true_true. done.
Qed.




End Published.

(* ------------------------------------------------------------------------ *)
(** ** What the loop over the files leaves in the [post] object *)

Section Loaded.
Context {E : Env} (W : World).

Lemma lookup_update k f tbl j :
  objs (update k f tbl) !! j =
    if decide (k = j) then f <$> objs tbl !! j else objs tbl !! j.
Proof. unfold update; simpl. rewrite lookup_alter. by case_decide; subst. Qed.

Lemma ensure_proto now tbl : ensure now "__proto__" tbl = tbl.
Proof. done. Qed.

Lemma lookup_ensure now k tbl j :
  objs (ensure now k tbl) !! j =
    match objs tbl !! j with
    | Some p => Some p
    | None => if decide (k = j ∧ k ≠ "__proto__")
              then Some (default_post now k) else None
    end.
Proof.
  unfold ensure. destruct (String.eqb_spec k "__proto__") as [->|Hk'].
  { destruct (objs tbl !! j); [done|]. by rewrite decide_False by (by intros [_ ?]). }
  destruct (objs tbl !! k) as [q|] eqn:Hk; simpl.
  - destruct (objs tbl !! j) eqn:Hj; [done|].
    case_decide as Hd; [|done]. destruct Hd as [-> _]. congruence.
  - rewrite lookup_insert. destruct (decide (k = j)) as [->|Hne].
    + rewrite Hk. by rewrite decide_True.
    + destruct (objs tbl !! j); [done|]. by rewrite decide_False by (by intros [? _]).
Qed.

Lemma file_effect_links ext c p :
  name (file_effect ext c p) = name p
  ∧ prev (file_effect ext c p) = prev p
  ∧ next (file_effect ext c p) = next p.
Proof.
  unfold file_effect, when, overlay; simpl.
  by repeat match goal with
     | |- context [ if ?b then _ else _ ] => destruct b
     | |- context [ match ?d with inl _ => _ | inr _ => _ end ] => destruct d
     end.
Qed.

Lemma file_effect_meta ext c p :
  is_overlay ext = false → meta (file_effect ext c p) = meta p.
Proof.
  unfold is_overlay. intros H.
  apply orb_false_iff in H as [H Hi]. apply orb_false_iff in H as [Hj Hy].
  unfold file_effect, when. rewrite Hj, Hy, Hi; simpl.
  by repeat match goal with
     | |- context [ if ?b then _ else _ ] => destruct b
     end.
Qed.

(** A key stays, and every file that passes the test of line 89 leaves its key. *)
Lemma load_keys now dir files tbl s tbl' s' :
  foldM (processFile W now dir) files tbl s = (Return tbl', s') →
  (∀ k, is_Some (objs tbl !! k) → is_Some (objs tbl' !! k))
  ∧ (∀ f, f ∈ files → accepted f = true → ident f ≠ "__proto__" →
          is_Some (objs tbl' !! ident f)).
Proof.
  revert tbl s. induction files as [|f files IH]; intros tbl s H.
  - inversion H; subst. split; [done|]. by intros f Hf%elem_of_nil.
  - simpl in H. apply bind_Return in H as (t1 & s1 & H1 & H).
    apply IH in H as [Hmono Hfiles].
    assert (∀ k, is_Some (objs tbl !! k) → is_Some (objs t1 !! k)) as Hstep.
    { intros k Hk.
      apply processFile_Return in H1 as [[_ ->]|(_ & _ & c & _ & _ & ->)]; [done|].
      rewrite lookup_update, lookup_ensure. destruct Hk as [p ->].
      case_decide; by eexists. }
    split; [by auto|]. intros g Hg Hacc Hproto.
    apply elem_of_cons in Hg as [->|Hg]; [|by auto].
    apply Hmono.
    apply processFile_Return in H1 as [[Hno _]|(_ & _ & c & _ & _ & ->)];
      [congruence|].
    rewrite lookup_update, lookup_ensure, decide_True by done.
    destruct (objs tbl !! ident f); simpl; rewrite ?decide_True by done; by eexists.
Qed.

End Loaded.

(* ------------------------------------------------------------------------ *)
(** ** Normalisation *)

Section Normalised.
Context {E : Env}.

Lemma normalize_step_keys tbl k tbl' j :
  normalize_step tbl k = Return tbl' →
  is_Some (objs tbl' !! j) ↔ is_Some (objs tbl !! j).
Proof.
  unfold normalize_step. destruct (objs tbl !! k) as [p|] eqn:Hk.
  - intros (p' & _ & [= <-])%bindO_Return. rewrite lookup_update.
    case_decide; [|done]. by rewrite fmap_is_Some.
  - by intros [= <-].
Qed.

Lemma normalize_keys tbl tbl' j :
  normalize tbl = Return tbl' →
  is_Some (objs tbl' !! j) ↔ is_Some (objs tbl !! j).
Proof.
  unfold normalize. intros H.
  eapply (foldO_Return_ind normalize_step
            (λ t, is_Some (objs t !! j) ↔ is_Some (objs tbl !! j)));
    [|exact H|done].
  intros t k t' _ Hstep IH. by rewrite (normalize_step_keys _ _ _ _ Hstep).
Qed.

Lemma normalize_order tbl tbl' :
  normalize tbl = Return tbl' → order tbl' = order tbl.
Proof.
  unfold normalize. intros H.
  eapply (foldO_Return_ind normalize_step (λ t, order t = order tbl));
    [|exact H|done].
  intros t k t' _ Hstep IH. unfold normalize_step in Hstep.
  destruct (objs t !! k); [|by inversion Hstep; subst].
  by apply bindO_Return in Hstep as (p' & _ & [= <-]).
Qed.

(** The default date is a [Date] already: normalisation keeps its time. *)
Lemma normalize_default_date now tbl tbl' k :
  normalize tbl = Return tbl' →
  (∀ p, objs tbl !! k = Some p → meta p !! "date" = Some (VDate (Some now))) →
  (∀ p, objs tbl' !! k = Some p → meta p !! "date" = Some (VDate (Some now))).
Proof.
  unfold normalize. intros H.
  eapply (foldO_Return_ind normalize_step
            (λ t, ∀ p, objs t !! k = Some p →
                       meta p !! "date" = Some (VDate (Some now))));
    [|exact H].
  clear H. intros t j t' _ Hstep IH p Hp. unfold normalize_step in Hstep.
  destruct (objs t !! j) as [q|] eqn:Hj; [|inversion Hstep; subst; auto].
  apply bindO_Return in Hstep as (q' & Hq' & [= <-]).
  rewrite lookup_update in Hp. case_decide; [subst j|by auto].
  rewrite Hj in Hp. inversion Hp; subst q'; clear Hp.
  unfold normalize_post in Hq'. rewrite (IH _ Hj) in Hq'. simpl in Hq'.
  inversion Hq'; subst; simpl. by simplify_map_eq.
Qed.
End Normalised.

(* ------------------------------------------------------------------------ *)
(** ** Published and unpublished posts *)

Section Corpus.
Context {E : Env} (W : World).


Lemma loaded_keys opts c st names f :
  run W opts = (Return c, st) →
  let dir := default "" (contentDir opts) in
  readdirSync W dir = Some names →
  f ∈ regular_files W dir names → accepted f = true →
  ident f ≠ "__proto__" →
  is_Some (objs (post c) !! ident f).
Proof.
  intros Hrun dir Hnames Hf Hacc Hproto.
  apply run_Return in Hrun
    as (_ & _ & names' & tbl & tblN & s1 & s2 & Hn & Hload & HN & _ & Hpost & _).
  fold dir in Hn, Hload. rewrite Hnames in Hn. inversion Hn; subst names'.
  apply load_keys in Hload as [_ Hkeys].
  specialize (Hkeys f Hf Hacc Hproto).
  rewrite <- (normalize_keys _ _ _ HN) in Hkeys.
  rewrite Hpost. pose proof (link_bodies (posts c) tblN (ident f)) as Hb.
  destruct Hkeys as [p Hp]. rewrite Hp in Hb. inversion Hb; subst. by eexists.
Qed.
End Corpus.







(* ------------------------------------------------------------------------ *)
(** ** Configuration errors *)

(** C8. When [domain] or [contentDir] is missing, the call throws the
    configuration error, and the trace of the run is empty: no directory was
    listed, no entry examined, no file read, and the clock was not read
    either. *)
Theorem missing_option_throws_before_any_access `{E : Env} (W : World) opts :
  domain opts = None ∨ contentDir opts = None →
  run W opts =
    (Throw (Error (if falsy (domain opts) then "Provide a domain"
                   else "Provide a contentDir")),
     {| ticks := 0; trace := [] |}).
Proof.
  unfold run, readBlogSync. intros [H|H].
  - by rewrite H.
  - destruct (falsy (domain opts)); [done|]. by rewrite H.
Qed.

Lemma missing_option_throws_before_any_access_witness :
  let opts := {| domain := Some "example.org"; contentDir := None;
                 title := None; description := None; base := None;
                 latestCount := None; indexCount := None |} in
  (domain opts = None ∨ contentDir opts = None)
  ∧ run (E := Sample.env) Sample.blog opts =
      (Throw (Error "Provide a contentDir"), {| ticks := 0; trace := [] |}).
Proof.
  intros opts. split; [by right|].
  apply (missing_option_throws_before_any_access (E := Sample.env) Sample.blog opts).
  by right.
Defined.

(* ------------------------------------------------------------------------ *)
(** ** Runs that go through *)

Section Forward.
Context {E : Env} (W : World).

Lemma processFile_loads now dir tbl f s :
  loads W dir f →
  ∃ s', processFile W now dir tbl f s = (Return (file_step W now dir tbl f), s')
        ∧ ticks s' = ticks s.
Proof.
  unfold file_step. intros [Hno|(Hi & c & Hc & Hd)].
  - rewrite Hno. exists s. by rewrite processFile_skipped.
  - destruct (accepted f) eqn:Ha.
    + rewrite Hc. eexists. by rewrite (processFile_accepted _ _ _ _ _ _ c).
    + exists s. by rewrite processFile_skipped.
Qed.

Lemma foldM_loads now dir files tbl s :
  Forall (loads W dir) files →
  ∃ s', foldM (processFile W now dir) files tbl s
          = (Return (foldl (file_step W now dir) tbl files), s')
        ∧ ticks s' = ticks s.
Proof.
  intros H. revert tbl s. induction H as [|f files Hf _ IH]; intros tbl s.
  - by exists s.
  - simpl. destruct (processFile_loads now dir tbl f s Hf) as (s1 & H1 & Ht1).
    destruct (IH (file_step W now dir tbl f) s1) as (s2 & H2 & Ht2).
    exists s2. unfold bind. rewrite H1. split; [done|congruence].
Qed.

Lemma foldM_app {A B} (f : A → B → M A) l1 l2 a s :
  foldM f (l1 ++ l2) a s = bind (foldM f l1 a) (foldM f l2) s.
Proof.
  revert a s. induction l1 as [|b l1 IH]; intros a s; [reflexivity|].
  simpl. unfold bind in *. destruct (f a b s) as [[a'| | |] s1]; [|done..].
  apply IH.
Qed.

Lemma keep_regular dir n s d :
  isDirectory W (dir ++ "/" ++ n) = Some d →
  (let! d := fs_isDirectory W (dir ++ "/" ++ n) in ret (negb d)) s
  = (Return (negb d),
     {| ticks := ticks s; trace := trace s ++ [Stat (dir ++ "/" ++ n)] |}).
Proof. intros H. unfold bind, fs_isDirectory, call, emit. by rewrite H. Qed.

Lemma filterM_regular dir names s :
  Forall (λ n, is_Some (isDirectory W (dir ++ "/" ++ n))) names →
  ∃ s', filterM (λ filename,
          let! d := fs_isDirectory W (dir ++ "/" ++ filename) in ret (negb d))
          names s = (Return (regular_files W dir names), s')
        ∧ ticks s' = ticks s.
Proof.
  intros H. revert s. induction H as [|n names [d Hd] _ IH]; intros s.
  - by exists s.
  - destruct (IH {| ticks := ticks s;
                    trace := trace s ++ [Stat (dir ++ "/" ++ n)] |})
      as (s' & Hs' & Ht).
    exists s'. split; [|done].
    cbn [filterM]. unfold bind at 1. cbv beta. rewrite (keep_regular _ _ _ d Hd).
    unfold bind at 1. rewrite Hs'. unfold ret, regular_files.
    rewrite filter_cons, Hd. destruct d; simpl.
    + destruct (decide (Some true = Some false)); congruence.
    + destruct (decide (Some false = Some false)); congruence.
Qed.

(** The listing succeeds and every file loads: the loop ends with the fold
    of [file_step]. *)
Lemma load_loads dir now names s :
  readdirSync W dir = Some names →
  Forall (λ n, is_Some (isDirectory W (dir ++ "/" ++ n))) names →
  Forall (loads W dir) (regular_files W dir names) →
  ∃ s', load W dir now s
          = (Return (foldl (file_step W now dir) {| order := []; objs := ∅ |}
                       (regular_files W dir names)), s')
        ∧ ticks s' = ticks s.
Proof.
  intros Hn Hstat Hloads. unfold load.
  assert (fs_readdirSync W dir s
          = (Return names, {| ticks := ticks s; trace := trace s ++ [ReadDir dir] |}))
    as H0 by (unfold fs_readdirSync, call, bind, emit; by rewrite Hn).
  destruct (filterM_regular dir names
              {| ticks := ticks s; trace := trace s ++ [ReadDir dir] |} Hstat)
    as (s1 & H1 & Ht1).
  destruct (foldM_loads now dir (regular_files W dir names)
              {| order := []; objs := ∅ |} s1 Hloads) as (s2 & H2 & Ht2).
  exists s2. split; [|by rewrite Ht2, Ht1].
  unfold bind at 1. rewrite H0. unfold bind at 1. by rewrite H1.
Qed.

Lemma run_loads opts dir names a :
  falsy (domain opts) = false →
  contentDir opts = Some dir → dir ≠ "" →
  readdirSync W dir = Some names →
  Forall (λ n, is_Some (isDirectory W (dir ++ "/" ++ n))) names →
  Forall (loads W dir) (regular_files W dir names) →
  assemble (xtend_opts defaults opts) (clock W 0)
    (foldl (file_step W (clock W 0) dir) {| order := []; objs := ∅ |}
       (regular_files W dir names)) = Return a →
  ∃ st, run W opts =
    (Return {| posts := a_posts a; post := a_post a; pages := [];
               latest := a_latest a; archive := a_archive a;
               tagged := a_tagged a; rss := a_rss a;
               atom := data2xml "feed"
                         (atomData (xtend_opts defaults opts) (clock W 1)
                            (deref (a_post a) (a_latest a))) |}, st).
Proof.
  intros Hdom Hdir Hne Hn Hstat Hloads Ha. unfold run, readBlogSync.
  rewrite Hdom.
  replace (falsy (contentDir opts)) with false
    by (rewrite Hdir; simpl; symmetry; by apply String.eqb_neq).
  replace (contentDir (xtend_opts defaults opts)) with (Some dir)
    by (by destruct opts as [? []]; simpl in *; subst).
  destruct (load_loads dir (clock W 0) names {| ticks := 1; trace := [ClockRead] |}
              Hn Hstat Hloads) as (s1 & H1 & Ht1).
  unfold bind at 1, read_clock. cbn [ticks trace default from_option id app].
  unfold bind at 1. rewrite H1.
  unfold bind at 1, lift. rewrite Ha.
  unfold bind, ret. simpl in Ht1. rewrite Ht1. by eexists.
Qed.
End Forward.

(* ------------------------------------------------------------------------ *)
(** ** Runs that publish nothing *)

Lemma not_elem_of_compute (j : string) (l : list string) :
  bool_decide (j ∈ l) = false → j ∉ l.
Proof. by intros H%bool_decide_eq_false. Qed.

Lemma same_but_dates_refl p : same_but_dates p p.
Proof. by repeat split. Qed.

Lemma same_but_dates_trans p q r :
  same_but_dates p q → same_but_dates q r → same_but_dates p r.
Proof.
  intros (?&?&?&?&?&Hm) (?&?&?&?&?&Hm'). unfold same_but_dates.
  repeat split; try congruence. intros j Hj. by rewrite Hm', Hm.
Qed.

Section Unpublished.
Context {E : Env} (W : World).

Lemma normalize_post_same p p' :
  normalize_post p = Return p' → same_but_dates p p'.
Proof.
  unfold normalize_post. intros (t & _ & [= <-])%bindO_Return.
  repeat split. intros j Hj. simpl.
  rewrite !lookup_insert_ne; [done|..]; intros <-; apply Hj;
    unfold date_fields; set_solver.
Qed.

Lemma normalize_same tbl tblN k :
  normalize tbl = Return tblN →
  option_Forall2 same_but_dates (objs tbl !! k) (objs tblN !! k).
Proof.
  unfold normalize. intros H.
  eapply (foldO_Return_ind normalize_step
            (λ t, option_Forall2 same_but_dates (objs tbl !! k) (objs t !! k)));
    [|exact H|].
  - clear H. intros t j t' _ Hstep IH. unfold normalize_step in Hstep.
    destruct (objs t !! j) as [q|] eqn:Hj; [|by inversion Hstep; subst].
    apply bindO_Return in Hstep as (q' & Hq' & [= <-]).
    rewrite lookup_update. case_decide; [subst j|done].
    rewrite Hj in IH |- *. inversion IH; subst. constructor.
    eapply same_but_dates_trans; [done|]. by apply normalize_post_same.
  - destruct (objs tbl !! k); constructor. apply same_but_dates_refl.
Qed.

(** Normalisation goes through when every date is the default one. *)
Lemma normalize_defaults now keys tbl :
  (∀ k p, objs tbl !! k = Some p → meta p !! "date" = Some (VDate (Some now))) →
  ∃ tblN, foldO normalize_step keys tbl = Return tblN.
Proof.
  revert tbl. induction keys as [|k keys IH]; intros tbl Hd; [by eexists|].
  assert (∃ tbl1, normalize_step tbl k = Return tbl1
            ∧ ∀ j q, objs tbl1 !! j = Some q →
                     meta q !! "date" = Some (VDate (Some now)))
    as (tbl1 & H1 & Hd1).
  { unfold normalize_step.
    destruct (objs tbl !! k) as [p|] eqn:Hk; [|by eexists].
    unfold normalize_post. rewrite (Hd _ _ Hk). simpl.
    eexists; split; [done|].
    intros j q. rewrite lookup_update. case_decide; [subst j|by apply Hd].
    rewrite Hk. intros [= <-]. simpl. by simplify_map_eq. }
  cbn [foldO]. rewrite H1. simpl. by apply IH.
Qed.

Lemma filter_none {A} (P : A → Prop) `{∀ x, Decision (P x)} (l : list A) :
  (∀ x, x ∈ l → ¬ P x) → filter P l = [].
Proof.
  induction l as [|x l IH]; intros Hl; [done|].
  rewrite filter_cons, decide_False by (apply Hl; by left).
  apply IH. intros y Hy. apply Hl. by right.
Qed.

Lemma assemble_unpublished opts now tbl tblN :
  normalize tbl = Return tblN →
  (∀ k, k ∈ order tblN → published now tblN k = false) →
  assemble opts now tbl =
    Return {| a_posts := []; a_post := link [] tblN; a_latest := [];
              a_archive := ∅; a_tagged := ∅;
              a_rss := data2xml "rss" (rssData opts now []) |}.
Proof.
  intros HN Hnone. unfold assemble. rewrite HN. simpl.
  assert (publish now tblN = []) as ->.
  { unfold publish. rewrite filter_none; [done|].
    intros k Hk%elem_of_Object_keys. rewrite (Hnone k Hk). by intros []. }
  assert (∀ e, slice0 (reverse ([] : list ref)) e = []) as ->
    by (intros e; unfold slice0; apply take_nil).
  done.
Qed.

(** Every file loads and every post keeps the default date: the run returns
    a corpus with no published post, whose [post] object holds the posts the
    files made, up to the date fields. *)
Lemma run_unpublished opts dir names :
  falsy (domain opts) = false →
  contentDir opts = Some dir → dir ≠ "" →
  readdirSync W dir = Some names →
  Forall (λ n, is_Some (isDirectory W (dir ++ "/" ++ n))) names →
  Forall (loads W dir) (regular_files W dir names) →
  let tbl := foldl (file_step W (clock W 0) dir) {| order := []; objs := ∅ |}
               (regular_files W dir names) in
  (∀ k p, objs tbl !! k = Some p →
          meta p !! "date" = Some (VDate (Some (clock W 0)))) →
  ∃ c st, run W opts = (Return c, st)
          ∧ posts c = [] ∧ latest c = [] ∧ archive c = ∅ ∧ tagged c = ∅
          ∧ order (post c) = order tbl
          ∧ ∀ k, option_Forall2 same_but_dates (objs tbl !! k) (objs (post c) !! k).
Proof.
  intros Hdom Hdir Hne Hn Hstat Hloads tbl Hdates.
  destruct (normalize_defaults _ (Object_keys tbl) tbl Hdates) as [tblN HN].
  fold (normalize tbl) in HN.
  edestruct (run_loads W opts dir names) as [st Hrun]; try done.
  { apply assemble_unpublished; [exact HN|].
    intros k _. unfold published.
    destruct (objs tblN !! k) as [p|] eqn:Hp; [|done].
    pose proof (normalize_default_date _ _ _ k HN (Hdates k) p Hp) as Hd.
    unfold date_of. rewrite Hd. apply Z.ltb_irrefl. }
  eexists _, st. split; [exact Hrun|]. simpl.
  repeat split; try done.
  - by apply normalize_order.
  - intros k. by apply normalize_same.
Qed.
End Unpublished.

(* ------------------------------------------------------------------------ *)
(** ** A body file and a metadata file *)

(** C6. The directory holds [01-hello.md], whose contents are "World", and
    [hello.json], which decodes to the record with title "Hi" and tags
    ["x"], in either order. The run returns a corpus whose [post] object has
    the single key "hello"; the post under it has that name, the title and
    the tags of the record, the body "World" and for html the markdown
    rendering of "World". *)
Theorem hello_md_and_json_make_one_post `{E : Env} (W : World) opts dir names j :
  falsy (domain opts) = false →
  contentDir opts = Some dir → dir ≠ "" →
  readdirSync W dir = Some names →
  names = ["01-hello.md"; "hello.json"] ∨ names = ["hello.json"; "01-hello.md"] →
  isDirectory W (dir ++ "/" ++ "01-hello.md") = Some false →
  isDirectory W (dir ++ "/" ++ "hello.json") = Some false →
  readFileSync W (dir ++ "/" ++ "01-hello.md") = Some "World" →
  readFileSync W (dir ++ "/" ++ "hello.json") = Some j →
  JSON_parse j = inl (VObj [("title", VStr "Hi"); ("tags", VArr [VStr "x"])]) →
  ∃ c st,
    run W opts = (Return c, st)
    ∧ order (post c) = ["hello"]
    ∧ (∀ k, is_Some (objs (post c) !! k) ↔ k = "hello")
    ∧ ∃ p, objs (post c) !! "hello" = Some p
           ∧ name p = "hello"
           ∧ meta p !! "title" = Some (VStr "Hi")
           ∧ meta p !! "tags" = Some (VArr [VStr "x"])
           ∧ content p = "World"
           ∧ html p = marked "World".
Proof.
  intros Hdom Hdir Hne Hn Hnames Hd1 Hd2 Hr1 Hr2 Hj.
  set (P := set_body "World" (marked "World")
              (set_meta (λ m, xtend m (VObj [("title", VStr "Hi");
                                             ("tags", VArr [VStr "x"])]))
                 (default_post (clock W 0) "hello"))).
  assert (regular_files W dir names = names) as Hreg.
  { unfold regular_files. destruct Hnames as [-> | ->];
      rewrite !filter_cons, Hd1, Hd2; by rewrite !decide_True by done. }
  assert (foldl (file_step W (clock W 0) dir) {| order := []; objs := ∅ |} names
          = {| order := ["hello"]; objs := {[ "hello" := P ]} |}) as Htbl.
  { destruct Hnames as [-> | ->]; cbn [foldl]; unfold file_step.
    - change (accepted "01-hello.md") with true.
      change (accepted "hello.json") with true.
      cbv iota. rewrite Hr1, Hr2. unfold file_effect, overlay. rewrite Hj.
      subst P. vm_compute. reflexivity.
    - change (accepted "01-hello.md") with true.
      change (accepted "hello.json") with true.
      cbv iota. rewrite Hr1, Hr2. unfold file_effect, overlay. rewrite Hj.
      subst P. vm_compute. reflexivity. }
  destruct (run_unpublished W opts dir names Hdom Hdir Hne Hn)
    as (c & st & Hrun & _ & _ & _ & _ & Hord & Hsame).
  - destruct Hnames as [-> | ->]; repeat constructor; by eexists.
  - rewrite Hreg.
    assert (loads W dir "01-hello.md" ∧ loads W dir "hello.json") as [H1 H2].
    { split; right; (split; [done|]); eexists; (split; [done|]).
      - by repeat split.
      - split; [by eauto|]. by split. }
    destruct Hnames as [-> | ->]; auto using Forall_cons, Forall_nil.
  - rewrite Hreg, Htbl. simpl. intros k p.
    intros [<- <-]%lookup_singleton_Some. subst P. simpl. by vm_compute.
  - exists c, st. split; [done|]. rewrite Hreg, Htbl in Hord, Hsame.
    split; [done|]. split.
    + intros k. specialize (Hsame k). simpl in Hsame.
      destruct (decide (k = "hello")) as [->|Hk].
      * rewrite lookup_singleton_eq in Hsame. inversion Hsame. split; by eauto.
      * rewrite lookup_singleton_ne in Hsame by done. inversion Hsame.
        split; [by intros [? ?]|done].
    + specialize (Hsame "hello"). simpl in Hsame.
      rewrite lookup_singleton_eq in Hsame.
      inversion Hsame as [? p (Hname & Hc & Hh & _ & _ & Hm)|]; subst.
      exists p. split; [done|]. rewrite Hname, Hc, Hh.
      rewrite !Hm by (by apply not_elem_of_compute).
      subst P. by vm_compute.
Qed.

Lemma hello_md_and_json_make_one_post_witness :
  let W := Sample.world "content"
             [ ("01-hello.md", Some "World");
               ("hello.json", Some Sample.hello_json) ] Sample.clk in
  JSON_parse (Env := Sample.env) Sample.hello_json
    = inl (VObj [("title", VStr "Hi"); ("tags", VArr [VStr "x"])])
  ∧ ∃ c st,
      run (E := Sample.env) W Sample.opts = (Return c, st)
      ∧ order (post c) = ["hello"]
      ∧ (∀ k, is_Some (objs (post c) !! k) ↔ k = "hello")
      ∧ ∃ p, objs (post c) !! "hello" = Some p
             ∧ name p = "hello"
             ∧ meta p !! "title" = Some (VStr "Hi")
             ∧ meta p !! "tags" = Some (VArr [VStr "x"])
             ∧ content p = "World"
             ∧ html p = marked (Env := Sample.env) "World".
Proof.
  intros W. split; [reflexivity|].
  apply (hello_md_and_json_make_one_post (E := Sample.env) W Sample.opts
           "content" ["01-hello.md"; "hello.json"] Sample.hello_json);
    try reflexivity; [done|by left].
Defined.

(* ------------------------------------------------------------------------ *)
(** ** Plain text, and names with more than one dot *)

Section SingleFile.
Context {E : Env} (W : World).

(** A directory with one file, which passes the test of line 89 and is no metadata
    file: the post of the returned corpus is the default post after
    [file_effect], up to the date fields. *)
Lemma run_single_body opts dir f contents :
  falsy (domain opts) = false →
  contentDir opts = Some dir → dir ≠ "" →
  readdirSync W dir = Some [f] →
  isDirectory W (dir ++ "/" ++ f) = Some false →
  readFileSync W (dir ++ "/" ++ f) = Some contents →
  accepted f = true → inherited (ident f) = false →
  is_overlay (ext_of f) = false →
  ∃ c st p,
    run W opts = (Return c, st)
    ∧ objs (post c) !! ident f = Some p
    ∧ same_but_dates
        (file_effect (ext_of f) contents (default_post (clock W 0) (ident f))) p.
Proof.
  intros Hdom Hdir Hne Hn Hd Hr Hacc Hinh Hov.
  assert (regular_files W dir [f] = [f]) as Hreg.
  { unfold regular_files. rewrite filter_cons, Hd. by rewrite decide_True. }
  assert (foldl (file_step W (clock W 0) dir) {| order := []; objs := ∅ |} [f]
          = {| order := [ident f];
               objs := {[ ident f := file_effect (ext_of f) contents
                                       (default_post (clock W 0) (ident f)) ]} |})
    as Htbl.
  { cbn [foldl]. unfold file_step. rewrite Hacc, Hr. unfold update, ensure.
    replace (String.eqb (ident f) "__proto__") with false
      by (symmetry; apply String.eqb_neq; intros Heq; by rewrite Heq in Hinh).
    simpl. rewrite lookup_empty. simpl. f_equal.
    by rewrite alter_insert_eq, insert_empty. }
  destruct (run_unpublished W opts dir [f] Hdom Hdir Hne Hn)
    as (c & st & Hrun & _ & _ & _ & _ & _ & Hsame).
  - repeat constructor. by eexists.
  - rewrite Hreg. constructor; [|constructor].
    right. split; [by apply leaves_fragment_inherited|].
    exists contents. split; [done|].
    unfold is_overlay in Hov.
    apply orb_false_iff in Hov as [Hov Hi]. apply orb_false_iff in Hov as [Hj Hy].
    unfold decodes. rewrite Hj, Hy, Hi. by repeat split.
  - rewrite Hreg, Htbl. simpl. intros k p [<- <-]%lookup_singleton_Some.
    rewrite file_effect_meta by done. simpl. by simplify_map_eq.
  - specialize (Hsame (ident f)). rewrite Hreg, Htbl in Hsame. simpl in Hsame.
    rewrite lookup_singleton_eq in Hsame.
    inversion Hsame as [? p Hp|]; subst. by exists c, st, p.
Qed.
End SingleFile.

(** C1, on the code. A file [note.txt] passes the test of line 89, but no
    branch of lines 144-160 is taken for it (the last one tests for "text"):
    the post keeps the empty body and the empty html of the default post,
    whatever the file holds. A file [note.text] does not pass it. *)
Theorem txt_file_leaves_body_empty `{E : Env} (W : World) opts dir contents :
  falsy (domain opts) = false →
  contentDir opts = Some dir → dir ≠ "" →
  readdirSync W dir = Some ["note.txt"] →
  isDirectory W (dir ++ "/" ++ "note.txt") = Some false →
  readFileSync W (dir ++ "/" ++ "note.txt") = Some contents →
  accepted "note.text" = false
  ∧ ∃ c st p,
      run W opts = (Return c, st)
      ∧ objs (post c) !! "note" = Some p
      ∧ content p = "" ∧ html p = "".
Proof.
  intros Hdom Hdir Hne Hn Hd Hr. split; [reflexivity|].
  destruct (run_single_body W opts dir "note.txt" contents)
    as (c & st & p & Hrun & Hp & (_ & Hc & Hh & _)); try done.
  exists c, st, p. by rewrite Hc, Hh.
Qed.

Lemma txt_file_leaves_body_empty_witness :
  let W := Sample.world "content" [ ("note.txt", Some "a < b") ] Sample.clk in
  readFileSync W ("content" ++ "/" ++ "note.txt") = Some "a < b"
  ∧ accepted "note.text" = false
  ∧ ∃ c st p,
      run (E := Sample.env) W Sample.opts = (Return c, st)
      ∧ objs (post c) !! "note" = Some p
      ∧ content p = "" ∧ html p = "".
Proof.
  intros W. split; [reflexivity|].
  by apply (txt_file_leaves_body_empty (E := Sample.env) W Sample.opts
              "content" "a < b").
Defined.

(** C2, on the code. The extension the code tests is the text between the
    first and the second dot. The text after the first dot of [post.md.bak]
    is "md.bak", which [validExt] does not hold; the file is nevertheless
    read as markdown into the post "post". *)
Theorem md_bak_file_is_read_as_markdown `{E : Env} (W : World) opts dir contents :
  falsy (domain opts) = false →
  contentDir opts = Some dir → dir ≠ "" →
  readdirSync W dir = Some ["post.md.bak"] →
  isDirectory W (dir ++ "/" ++ "post.md.bak") = Some false →
  readFileSync W (dir ++ "/" ++ "post.md.bak") = Some contents →
  after_first_dot "post.md.bak" = Some "md.bak"
  ∧ assoc "md.bak" validExt = None
  ∧ ext_of "post.md.bak" = Some "md"
  ∧ ∃ c st p,
      run W opts = (Return c, st)
      ∧ objs (post c) !! "post" = Some p
      ∧ content p = contents ∧ html p = marked contents.
Proof.
  intros Hdom Hdir Hne Hn Hd Hr. do 3 (split; [reflexivity|]).
  destruct (run_single_body W opts dir "post.md.bak" contents)
    as (c & st & p & Hrun & Hp & (_ & Hc & Hh & _)); try done.
  exists c, st, p. by rewrite Hc, Hh.
Qed.

Lemma md_bak_file_is_read_as_markdown_witness :
  let W := Sample.world "content" [ ("post.md.bak", Some "old text") ] Sample.clk in
  readFileSync W ("content" ++ "/" ++ "post.md.bak") = Some "old text"
  ∧ ∃ c st p,
      run (E := Sample.env) W Sample.opts = (Return c, st)
      ∧ objs (post c) !! "post" = Some p
      ∧ content p = "old text" ∧ html p = "<p>old text</p>".
Proof.
  intros W. split; [reflexivity|].
  by apply (md_bak_file_is_read_as_markdown (E := Sample.env) W Sample.opts
              "content" "old text").
Defined.

(* ------------------------------------------------------------------------ *)
(** ** A metadata file the decoder rejects *)

Section Rejected.
Context {E : Env} (W : World).

Lemma foldM_Return_loads now dir files tbl s tbl' s' :
  foldM (processFile W now dir) files tbl s = (Return tbl', s') →
  Forall (loads W dir) files.
Proof.
  revert tbl s. induction files as [|f files IH]; intros tbl s H; [constructor|].
  simpl in H. apply bind_Return in H as (t1 & s1 & H1 & H).
  constructor; [|by eapply IH].
  apply processFile_Return in H1 as [[Hno _]|(_ & Hi & c & Hc & Hd & _)].
  - by left.
  - right. eauto.
Qed.

Lemma json_accepted f : ext_of f = Some "json" → accepted f = true.
Proof. unfold accepted. by intros ->. Qed.

Lemma processFile_json_rejected now dir tbl f s contents e :
  ext_of f = Some "json" →
  readFileSync W (dir ++ "/" ++ f) = Some contents →
  JSON_parse contents = inr e →
  processFile W now dir tbl f s =
    (Exit 2,
     {| ticks := ticks s;
        trace := (trace s ++ [ReadFile (dir ++ "/" ++ f)])
                   ++ [ConsoleWarn ("Error parsing " ++ f ++ " file : " ++ e)] |}).
Proof.
  intros Hext Hr Hj. unfold processFile.
  fold (ext_of f) (ident f). rewrite Hext. simpl.
  unfold bind at 1, fs_readFileSync, call, bind at 1, emit. rewrite Hr. simpl.
  unfold bind at 1. by rewrite Hj.
Qed.
End Rejected.

(** C7, as amended. A file of the directory has the extension json and
    contents that [JSON.parse] rejects. Then no run returns a corpus. When,
    moreover, the options pass the checks of lines 49-54, the entries of the
    directory can all be examined and the files before this one load, the
    run ends in [process.exit(2)], and the last thing it did was to warn
    "Error parsing <filename> file : <error>" with the name of this file.
    Without these conditions the run ends earlier, in an exception that is
    none of the decoder. *)
Theorem rejected_json_aborts `{E : Env} (W : World) opts dir names f contents e :
  contentDir opts = Some dir →
  readdirSync W dir = Some names →
  f ∈ regular_files W dir names →
  ext_of f = Some "json" →
  readFileSync W (dir ++ "/" ++ f) = Some contents →
  JSON_parse contents = inr e →
  (∀ c st, run W opts ≠ (Return c, st))
  ∧ (∀ pre rest,
       falsy (domain opts) = false → dir ≠ "" →
       Forall (λ n, is_Some (isDirectory W (dir ++ "/" ++ n))) names →
       regular_files W dir names = (pre ++ f :: rest)%list →
       Forall (loads W dir) pre →
       ∃ st, run W opts = (Exit 2, st)
             ∧ last (trace st)
               = Some (ConsoleWarn ("Error parsing " ++ f ++ " file : " ++ e))).
Proof.
  intros Hdir Hn Hf Hext Hr Hj. split.
  - intros c st Hrun.
    apply run_Return in Hrun
      as (_ & _ & names' & tbl & tblN & s1 & s2 & Hn' & Hload & _).
    rewrite Hdir in Hn', Hload. simpl in Hn', Hload.
    rewrite Hn in Hn'. inversion Hn'; subst names'.
    apply foldM_Return_loads in Hload.
    rewrite Forall_forall in Hload.
    destruct (Hload f Hf) as [Hno|(_ & c' & Hc' & Hd & _)].
    + by rewrite json_accepted in Hno.
    + rewrite Hr in Hc'. inversion Hc'; subst c'.
      rewrite Hext in Hd. destruct Hd as [v Hv]; [done|]. congruence.
  - intros pre rest Hdom Hne Hstat Hsplit Hpre. unfold run, readBlogSync.
    rewrite Hdom.
    replace (falsy (contentDir opts)) with false
      by (rewrite Hdir; simpl; symmetry; by apply String.eqb_neq).
    replace (contentDir (xtend_opts defaults opts)) with (Some dir)
      by (by destruct opts as [? []]; simpl in *; subst).
    unfold bind at 1, read_clock. cbn [ticks trace default from_option id app].
    set (s0 := {| ticks := 1; trace := [ClockRead] |}).
    assert (∃ st, load W dir (clock W 0) s0 = (Exit 2, st)
                  ∧ last (trace st)
                    = Some (ConsoleWarn ("Error parsing " ++ f ++ " file : " ++ e)))
      as (st & Hload & Hlast).
    { unfold load.
      assert (fs_readdirSync W dir s0
              = (Return names,
                 {| ticks := ticks s0; trace := trace s0 ++ [ReadDir dir] |}))
        as H0 by (unfold fs_readdirSync, call, bind, emit; by rewrite Hn).
      destruct (filterM_regular W dir names
                  {| ticks := ticks s0; trace := trace s0 ++ [ReadDir dir] |} Hstat)
        as (s1 & H1 & _).
      destruct (foldM_loads W (clock W 0) dir pre {| order := []; objs := ∅ |} s1 Hpre)
        as (s2 & H2 & _).
      eexists. unfold bind at 1. rewrite H0. unfold bind at 1. rewrite H1.
      rewrite Hsplit, foldM_app. unfold bind at 1. rewrite H2.
      cbn [foldM]. unfold bind at 1.
      rewrite (processFile_json_rejected W _ _ _ _ _ contents e) by done.
      split; [reflexivity|]. simpl. apply last_snoc. }
    exists st. unfold bind at 1. by rewrite Hload.
Qed.

Lemma rejected_json_aborts_witness :
  let W := Sample.world "content"
             [ ("a.md", Some "A"); ("bad.json", Some "{oops"); ("z.md", Some "Z") ]
             Sample.clk in
  JSON_parse (Env := Sample.env) "{oops" = inr "SyntaxError: Unexpected token"
  ∧ (∀ c st, run (E := Sample.env) W Sample.opts ≠ (Return c, st))
  ∧ ∃ st, run (E := Sample.env) W Sample.opts = (Exit 2, st)
          ∧ last (trace st)
            = Some (ConsoleWarn
                      "Error parsing bad.json file : SyntaxError: Unexpected token").
Proof.
  intros W. split; [reflexivity|].
  destruct (rejected_json_aborts (E := Sample.env) W Sample.opts "content"
              ["a.md"; "bad.json"; "z.md"] "bad.json" "{oops"
              "SyntaxError: Unexpected token") as [H1 H2];
    try reflexivity.
  { vm_compute. apply list_elem_of_further, list_elem_of_here. }
  split; [exact H1|].
  apply (H2 ["a.md"] ["z.md"]); try reflexivity.
  - done.
  - repeat (apply Forall_cons_2; [eexists; reflexivity|]). apply Forall_nil_2.
  - apply Forall_cons_2; [|apply Forall_nil_2].
    right. split; [reflexivity|]. exists "A". split; [reflexivity|].
    repeat split; intros H; by vm_compute in H.
Defined.

(** C7, as stated, fails. The directory holds bad.json, which [JSON.parse]
    rejects, and an entry that [statSync] cannot examine. The entries are
    all examined before any file is read (lines 74-78): the run ends in the
    system error of the entry, bad.json is never read and no warning names
    it. *)
Lemma rejected_json_behind_a_failing_stat :
  "bad.json" ∈ regular_files Cases.dangling "content" ["bad.json"; "ghost"]
  ∧ ext_of "bad.json" = Some "json"
  ∧ readFileSync Cases.dangling "content/bad.json" = Some "{oops"
  ∧ JSON_parse (Env := Sample.env) "{oops" = inr "SyntaxError: Unexpected token"
  ∧ run (E := Sample.env) Cases.dangling Sample.opts
    = (Throw (SystemError "content/ghost"),
       {| ticks := 1;
          trace := [ClockRead; ReadDir "content"; Stat "content/bad.json";
                    Stat "content/ghost"] |}).
Proof.
  split; [vm_compute; apply list_elem_of_here|].
  repeat split; vm_compute; reflexivity.
Qed.

(* ------------------------------------------------------------------------ *)
(** ** The order of [posts] *)

(** C3, on the code. Two posts are dated, by their metadata, 70000000000000
    and 80000000000000 milliseconds before the epoch. The comparator orders
    them by [toISOString()], and the string of the later date is the smaller
    one: [posts] holds the later post first. *)
Theorem posts_of_negative_years_not_ascending :
  toISOString (-70000000000000) = "-000249-10-15T19:33:20.000Z"
  ∧ toISOString (-80000000000000) = "-000566-11-26T01:46:40.000Z"
  ∧ ∃ c st pa pb,
      run (E := Sample.env) Sample.antiquity Sample.opts = (Return c, st)
      ∧ posts c = ["a"; "b"]
      ∧ objs (post c) !! "a" = Some pa ∧ date_of pa = Some (-70000000000000)
      ∧ objs (post c) !! "b" = Some pb ∧ date_of pb = Some (-80000000000000)
      ∧ ¬ (-70000000000000 <= -80000000000000).
Proof.
  split; [reflexivity|]. split; [reflexivity|].
  eexists _, _, _, _. split; [vm_compute; reflexivity|].
  split; [reflexivity|]. split; [vm_compute; reflexivity|].
  split; [reflexivity|]. split; [vm_compute; reflexivity|].
  split; [reflexivity|]. lia.
Qed.

(** C5, on the code. On the same directory [latest] is the reversal of
    [posts]; it holds the earlier post first, so it is not descending by
    date. *)
Theorem latest_of_negative_years_not_descending :
  ∃ c st pa pb,
    run (E := Sample.env) Sample.antiquity Sample.opts = (Return c, st)
    ∧ latest c = reverse (posts c)
    ∧ latest c = ["b"; "a"]
    ∧ objs (post c) !! "b" = Some pb ∧ date_of pb = Some (-80000000000000)
    ∧ objs (post c) !! "a" = Some pa ∧ date_of pa = Some (-70000000000000)
    ∧ ¬ (-80000000000000 >= -70000000000000).
Proof.
  eexists _, _, _, _. split; [vm_compute; reflexivity|].
  split; [reflexivity|]. split; [reflexivity|].
  split; [vm_compute; reflexivity|]. split; [reflexivity|].
  split; [vm_compute; reflexivity|]. split; [reflexivity|]. lia.
Qed.

(* ------------------------------------------------------------------------ *)
(** ** Two runs at the same time *)

(** C9, on the code. Two runs find the same directory and read the same
    time at line 69; the clock is read again at line 280 for the [updated]
    field of the Atom feed, and there one run reads a time one second after
    the first reading and the other five seconds after it. They return the same [posts], [post], [latest], [archive],
    [tagged] and [rss], and different [atom] documents. *)
Theorem atom_differs_between_runs_at_the_same_time :
  clock (Sample.first_post Sample.clk) 0 = clock (Sample.first_post Sample.slow_clk) 0
  ∧ ∃ c1 st1 c2 st2,
      run (E := Sample.env) (Sample.first_post Sample.clk) Sample.opts
        = (Return c1, st1)
      ∧ run (E := Sample.env) (Sample.first_post Sample.slow_clk) Sample.opts
        = (Return c2, st2)
      ∧ posts c1 = ["first"] ∧ posts c2 = posts c1 ∧ post c2 = post c1
      ∧ latest c2 = latest c1
      ∧ archive c2 = archive c1 ∧ tagged c2 = tagged c1 ∧ rss c2 = rss c1
      ∧ atom c2 ≠ atom c1.
Proof.
  split; [reflexivity|].
  eexists _, _, _, _. split; [vm_compute; reflexivity|].
  split; [vm_compute; reflexivity|].
  repeat (split; [reflexivity|]). by vm_compute.
Qed.

(* ------------------------------------------------------------------------ *)
(** ** The links between the posts *)

Lemma well_formed_empty : well_formed {| order := []; objs := ∅ |}.
Proof.
  split; simpl.
  - constructor.
  - intros k. rewrite lookup_empty. split; [by intros ?%elem_of_nil|by intros [? ?]].
  - intros k p. by rewrite lookup_empty.
Qed.

Lemma well_formed_update k f tbl :
  (∀ p, name (f p) = name p ∧ prev (f p) = prev p ∧ next (f p) = next p) →
  well_formed tbl → well_formed (update k f tbl).
Proof.
  intros Hf [Hnd Hkeys Hfresh]. split; simpl; [done|..].
  - intros j. rewrite Hkeys, lookup_alter. case_decide; [subst|done].
    by rewrite fmap_is_Some.
  - intros j p. rewrite lookup_alter. case_decide; [subst j|by apply Hfresh].
    destruct (objs tbl !! k) as [q|] eqn:Hq; [|done]. intros [= <-].
    destruct (Hf q) as (-> & -> & ->). by apply Hfresh.
Qed.

Section Linked.
Context {E : Env} (W : World).

Lemma well_formed_ensure now k tbl :
  well_formed tbl → well_formed (ensure now k tbl).
Proof.
  intros [Hnd Hkeys Hfresh]. unfold ensure.
  destruct (String.eqb k "__proto__"); [done|].
  destruct (objs tbl !! k) as [q|] eqn:Hq; [done|]. split; simpl.
  - apply NoDup_app. split; [done|]. split; [|apply NoDup_singleton].
    intros j Hj ->%list_elem_of_singleton.
    apply Hkeys in Hj as [? ?]. congruence.
  - intros j. rewrite elem_of_app, list_elem_of_singleton, Hkeys, lookup_insert.
    case_decide; [subst|]; split; try by eauto.
    intros [?|?]; [done|congruence].
  - intros j p. rewrite lookup_insert. case_decide; [subst|by apply Hfresh].
    by intros [= <-].
Qed.

Lemma load_well_formed now dir files tbl s tbl' s' :
  foldM (processFile W now dir) files tbl s = (Return tbl', s') →
  well_formed tbl → well_formed tbl'.
Proof.
  apply (foldM_Return_ind (processFile W now dir) well_formed).
  intros t f s0 t' s0' _ Hstep Hwf.
  apply processFile_Return in Hstep as [[_ ->]|(_ & _ & c & _ & _ & ->)]; [done|].
  apply well_formed_update; [apply file_effect_links|].
  by apply well_formed_ensure.
Qed.

Lemma normalize_well_formed tbl tblN :
  normalize tbl = Return tblN → well_formed tbl → well_formed tblN.
Proof.
  intros HN [Hnd Hkeys Hfresh]. split.
  - by rewrite (normalize_order _ _ HN).
  - intros k. by rewrite (normalize_order _ _ HN), (normalize_keys _ _ k HN).
  - intros k p Hp. pose proof (normalize_same _ _ k HN) as Hs.
    rewrite Hp in Hs. inversion Hs as [q ? (Hn & _ & _ & Hpr & Hnx & _) Hq|]; subst.
    rewrite Hn, Hpr, Hnx. by apply Hfresh.
Qed.





End Linked.

(* ------------------------------------------------------------------------ *)
(** ** What holds of the order, of [latest] and of two runs *)

Lemma Sorted_weaken {A} (R R' : relation A) l :
  (∀ x y, R x y → R' x y) → Sorted R l → Sorted R' l.
Proof.
  intros HR. induction 1 as [|x l _ IH Hhd]; constructor; [done|].
  destruct Hhd; constructor; auto.
Qed.

Lemma Sorted_weaken_elem_of {A} (R R' : relation A) l :
  (∀ x y, x ∈ l → y ∈ l → R x y → R' x y) → Sorted R l → Sorted R' l.
Proof.
  intros HR Hs. induction Hs as [|x l _ IH Hhd]; constructor.
  - apply IH. intros a b Ha Hb. apply HR; by right.
  - destruct Hhd as [|y l' Hxy]; constructor.
    apply HR; [by left|by right; left|done].
Qed.

Section Order.
Context {E : Env} (W : World).

#[local] Instance iso_le_total tbl : Total (iso_le tbl).
Proof.
  intros a b. unfold iso_le.
  destruct (String.leb_total (iso_of tbl a) (iso_of tbl b)) as [H|H];
    rewrite H; [by left|by right].
Qed.

Lemma iso_of_link ps tbl k : iso_of (link ps tbl) k = iso_of tbl k.
Proof.
  unfold iso_of. pose proof (link_bodies ps tbl k) as H.
  destruct H as [p p' (?&Hm&?&?)|]; [|done].
  unfold date_of. by rewrite Hm.
Qed.

(** Consecutive posts of [posts] are in the order of the comparator: the
    ISO string of the first is not greater than that of the second. *)
Lemma posts_sorted_by_iso_string opts c st :
  run W opts = (Return c, st) → Sorted (iso_le (post c)) (posts c).
Proof.
  intros Hrun.
  apply run_Return in Hrun
    as (_ & _ & names & tbl & tblN & s1 & s2 & _ & _ & _ & Hposts & Hpost & _).
  apply (Sorted_weaken (iso_le tblN)).
  - intros a b. unfold iso_le. by rewrite Hpost, !iso_of_link.
  - rewrite Hposts. apply Sorted_stable_sort, _.
Qed.

(** X17. When the dates of the published posts all lie in the years 0000 to 9999,
    the order of the comparator is the order of time: consecutive posts of
    [posts] are ascending by date. *)
Lemma posts_ascending_within_four_digit_years opts c st :
  run W opts = (Return c, st) →
  (∀ k t, k ∈ posts c → time_of (post c) k = Some t → four_digit_years t) →
  Sorted (date_le (post c)) (posts c).
Proof.
  intros Hrun Hrange. apply posts_sorted_by_iso_string in Hrun.
  eapply Sorted_weaken_elem_of; [|exact Hrun].
  intros a b Ha Hb Hle ta tb Hta Htb.
  destruct (decide (ta <= tb)) as [|Hgt]; [done|]. exfalso.
  pose proof (toISOString_lt tb ta (Hrange b tb Hb Htb) (Hrange a ta Ha Hta)
                ltac:(lia)) as Hlt.
  unfold iso_le, iso_of in Hle. unfold time_of in Hta, Htb.
  destruct (objs (post c) !! a) as [pa|]; [|done].
  destruct (objs (post c) !! b) as [pb|]; [|done].
  simpl in Hta, Htb. rewrite Hta, Htb in Hle.
  unfold String.leb in Hle. rewrite String.compare_antisym, Hlt in Hle.
  done.
Qed.

(** X18. [latest] is the reversal of [posts], cut by [slice(0, latestCount)];
    for a count that is not negative this is a prefix of that length, or
    the whole reversal when there are fewer posts. *)
Lemma latest_is_reversed_prefix opts c st :
  run W opts = (Return c, st) →
  let n := default 10 (latestCount opts) in
  latest c = slice0 (reverse (posts c)) n
  ∧ (0 <= n →
     latest c = take (Z.to_nat n) (reverse (posts c))
     ∧ Z.of_nat (length (latest c)) = Z.min n (Z.of_nat (length (posts c)))).
Proof.
  intros Hrun n.
  apply run_Return in Hrun
    as (_ & _ & names & tbl & tblN & s1 & s2 & _ & _ & _ & _ & _ & Hlatest & _).
  assert (default 0 (latestCount (xtend_opts defaults opts)) = n) as Hn
    by (subst n; simpl; by destruct (latestCount opts)).
  rewrite Hn in Hlatest. split; [done|]. intros Hpos.
  rewrite Hlatest. unfold slice0. rewrite length_reverse.
  replace (n <? 0) with false by (symmetry; apply Z.ltb_ge; lia).
  destruct (Z.min_spec n (Z.of_nat (length (posts c)))) as [[Hlt ->]|[Hge ->]].
  - split; [done|]. rewrite length_take, length_reverse. lia.
  - rewrite Nat2Z.id. rewrite !take_ge by (rewrite length_reverse; lia).
    split; [done|]. by rewrite length_reverse.
Qed.

(** X19. Two runs on the same directory tree that read the same time at line 69
    return the same corpus but for [atom], which is built from the time
    read at line 280; when that reading agrees as well, [atom] is the same
    too. *)
Lemma run_with_clock opts clk c st :
  clk O = clock W 0 →
  run W opts = (Return c, st) →
  ∃ c' st',
    run (with_clock W clk) opts = (Return c', st')
    ∧ posts c' = posts c ∧ post c' = post c ∧ pages c' = pages c
    ∧ latest c' = latest c ∧ archive c' = archive c ∧ tagged c' = tagged c
    ∧ rss c' = rss c
    ∧ atom c' = data2xml "feed"
                  (atomData (xtend_opts defaults opts) (clk 1%nat)
                     (deref (post c) (latest c)))
    ∧ (clk 1%nat = clock W 1 → atom c' = atom c).
Proof.
  intros Hclk Hrun. pose proof Hrun as Hrun'.
  apply run_Return in Hrun' as (_ & _ & _ & _ & _ & _ & _ & _ & _ & _ & _ & _ & _
                                & _ & _ & _ & Hatom & _).
  unfold run, readBlogSync in *.
  destruct (falsy (domain opts)); [done|].
  destruct (falsy (contentDir opts)); [done|].
  apply bind_Return in Hrun as (now & s0 & Hnow & Hrun).
  apply bind_Return in Hrun as (tbl & s2 & Hload & Hrun).
  apply bind_Return in Hrun as (a & s3 & Ha & Hrun).
  apply bind_Return in Hrun as (at280 & s4 & H280 & Hrun).
  unfold read_clock in Hnow. inversion Hnow; subst now s0; clear Hnow.
  pose proof (load_Return _ _ _ _ _ _ Hload) as [Ht _].
  unfold lift in Ha. inversion Ha as [[Hasm Hs]]; subst s3.
  unfold ret in Hrun. inversion Hrun; subst c st; clear Hrun.
  unfold bind at 1, read_clock. cbn [ticks trace clock with_clock].
  rewrite Hclk.
  change (load (with_clock W clk)) with (load W).
  unfold bind at 1. cbn [ticks trace app] in Hload |- *. rewrite Hload.
  unfold bind at 1, lift. rewrite Hasm.
  unfold bind at 1. cbn [clock with_clock]. simpl in Ht. rewrite Ht.
  eexists _, _. split; [reflexivity|]. simpl.
  repeat (split; [done|]). intros H1. simpl in Hatom. by rewrite Hatom, H1.
Qed.
End Order.

(* ======================================================================== *)
(** * Further properties *)

(* ------------------------------------------------------------------------ *)
(** ** The exact shape of a run that returns *)

Section Exact.
Context {E : Env} (W : World).

Lemma foldM_Return_exact now dir files tbl s tbl' s' :
  foldM (processFile W now dir) files tbl s = (Return tbl', s') →
  tbl' = foldl (file_step W now dir) tbl files
  ∧ ticks s' = ticks s
  ∧ trace s' = (trace s ++ (ReadFile ∘ path_of dir <$> filter (λ f, accepted f) files))%list.
Proof.
  revert tbl s. induction files as [|f files IH]; intros tbl s H.
  - inversion H; subst. simpl. by rewrite app_nil_r.
  - simpl in H. apply bind_Return in H as (t1 & s1 & H1 & H).
    apply IH in H as (-> & Ht & Htr). rewrite Ht, Htr. clear IH Ht Htr.
    pose proof H1 as H1'.
    apply processFile_Return in H1' as [[Hno ->]|(Hacc & Hinh & c & Hc & Hd & ->)].
    + rewrite processFile_skipped in H1 by done. inversion H1; subst.
      rewrite filter_cons.
      destruct (decide (accepted f)) as [Hx|Hx]; [by rewrite Hno in Hx|].
      cbn [foldl].
      assert (file_step W now dir tbl f = tbl) as ->
        by (unfold file_step; by rewrite Hno).
      done.
    + rewrite (processFile_accepted _ _ _ _ _ _ c) in H1 by done.
      inversion H1; subst. simpl.
      rewrite filter_cons.
      destruct (decide (accepted f)) as [Hx|Hx]; [|by rewrite Hacc in Hx].
      assert (file_step W now dir tbl f
              = update (ident f) (file_effect (ext_of f) c) (ensure now (ident f) tbl))
        as -> by (unfold file_step; by rewrite Hacc, Hc).
      split; [done|]. split; [done|]. by rewrite <- app_assoc.
Qed.

Lemma filterM_Return_exact dir names s files s' :
  filterM (λ filename,
    let! d := fs_isDirectory W (dir ++ "/" ++ filename) in ret (negb d)) names s
    = (Return files, s') →
  files = regular_files W dir names
  ∧ Forall (λ n, is_Some (isDirectory W (dir ++ "/" ++ n))) names
  ∧ ticks s' = ticks s
  ∧ trace s' = (trace s ++ (Stat ∘ path_of dir <$> names))%list.
Proof.
  revert s files s'. induction names as [|f names IH]; intros s files s' H.
  - inversion H; subst. simpl. by rewrite app_nil_r.
  - pose proof H as H0. apply filterM_files in H0 as [-> _].
    split; [done|]. cbn [filterM] in H.
    apply bind_Return in H as (k & s1 & Hk & H).
    apply bind_Return in H as (r & s2 & Hr & H).
    unfold ret in H. inversion H; subst s2. clear H.
    apply IH in Hr as (_ & Hall & Ht & Htr).
    apply bind_Return in Hk as (d & s0 & Hd & Hk).
    unfold fs_isDirectory, call, bind, emit in Hd.
    destruct (isDirectory W (dir ++ "/" ++ f)) as [d'|] eqn:Hdir; [|done].
    inversion Hd; subst. inversion Hk; subst. simpl in *.
    split; [constructor; [by eexists|done]|]. split; [done|].
    rewrite Htr. by rewrite <- app_assoc.
Qed.

(** A run returns exactly when the directory can be listed, its entries
    examined, its files loaded and the loaded table assembled; the corpus,
    the number of clock readings and the trace are then these. *)
Lemma run_Return_exact opts c st :
  run W opts = (Return c, st) →
  let opts' := xtend_opts defaults opts in
  let dir := default "" (contentDir opts) in
  let now := clock W 0 in
  ∃ names a,
    readdirSync W dir = Some names
    ∧ Forall (λ n, is_Some (isDirectory W (dir ++ "/" ++ n))) names
    ∧ Forall (loads W dir) (regular_files W dir names)
    ∧ assemble opts' now
        (foldl (file_step W now dir) {| order := []; objs := ∅ |}
           (regular_files W dir names)) = Return a
    ∧ c = {| posts := a_posts a; post := a_post a; pages := [];
             latest := a_latest a; archive := a_archive a;
             tagged := a_tagged a; rss := a_rss a;
             atom := data2xml "feed"
                       (atomData opts' (clock W 1) (deref (a_post a) (a_latest a))) |}
    ∧ st = {| ticks := 2;
              trace := [ClockRead; ReadDir dir]
                       ++ (Stat ∘ path_of dir <$> names)
                       ++ (ReadFile ∘ path_of dir
                             <$> filter (λ f, accepted f) (regular_files W dir names))
                       ++ [ClockRead] |}.
Proof.
  intros H opts' dir now. unfold run, readBlogSync in H.
  replace (contentDir (xtend_opts defaults opts)) with (contentDir opts) in H
    by (by destruct opts as [? []]).
  destruct (falsy (domain opts)); [done|].
  destruct (falsy (contentDir opts)); [done|].
  apply bind_Return in H as (now' & s0 & Hnow & H).
  apply bind_Return in H as (tbl & s2 & Hload & H).
  apply bind_Return in H as (a & s3 & Ha & H).
  apply bind_Return in H as (at280 & s4 & H280 & H).
  unfold read_clock in Hnow. inversion Hnow; subst now' s0; clear Hnow.
  unfold load in Hload.
  apply bind_Return in Hload as (names & sa & Hn & Hload).
  apply bind_Return in Hload as (files & sb & Hf & Hload).
  unfold fs_readdirSync, call, bind, emit in Hn. fold dir in Hn, Hf, Hload.
  destruct (readdirSync W dir) as [names'|] eqn:Hnames; [|done].
  inversion Hn; subst names' sa; clear Hn.
  apply filterM_Return_exact in Hf as (-> & Hstat & Htb & Htrb).
  pose proof (foldM_Return_loads _ _ _ _ _ _ _ _ Hload) as Hloads.
  apply foldM_Return_exact in Hload as (-> & Ht2 & Htr2).
  unfold lift in Ha. inversion Ha as [[Hasm Hs]]; subst s3.
  unfold read_clock in H280. inversion H280; subst at280 s4; clear H280.
  unfold ret in H. inversion H; subst c st; clear H.
  simpl in *. rewrite Ht2, Htb, Htr2, Htrb.
  exists names, a. repeat (split; [done|]). f_equal.
  by rewrite <- !app_assoc.
Qed.
End Exact.

Section Footprint.
Context {E : Env} (W : World).

Lemma falsy_false o : falsy o = false → ∃ s, o = Some s ∧ s ≠ "".
Proof.
  destruct o as [s|]; [|done]. simpl. intros H. exists s. split; [done|].
  intros ->. done.
Qed.

Lemma file_step_skipped now dir tbl f :
  accepted f = false → file_step W now dir tbl f = tbl.
Proof. unfold file_step. by intros ->. Qed.

(** Only the files that pass the test of line 89 count. *)
Lemma foldl_file_step_accepted now dir files tbl :
  foldl (file_step W now dir) tbl files
  = foldl (file_step W now dir) tbl (filter (λ f, accepted f) files).
Proof.
  revert tbl. induction files as [|f files IH]; intros tbl; [done|].
  rewrite filter_cons. cbn [foldl].
  destruct (decide (accepted f)) as [Hx|Hx].
  - cbn [foldl]. apply IH.
  - rewrite file_step_skipped by (by destruct (accepted f)). apply IH.
Qed.
End Footprint.

(** X1. The accesses of a run that returns a corpus, in order: the clock is
    read, the directory is listed, every entry is examined once in the order
    of the listing, then the files that are no directories and pass the test
    of line 89 are read, once each and in that order, and the clock is read
    a second and last time. Nothing else is touched. *)
Theorem accesses_of_a_returning_run `{E : Env} (W : World) opts c st :
  run W opts = (Return c, st) →
  let dir := default "" (contentDir opts) in
  ∃ names,
    readdirSync W dir = Some names
    ∧ ticks st = 2%nat
    ∧ trace st =
        ([ClockRead; ReadDir dir]
         ++ (Stat ∘ path_of dir <$> names)
         ++ (ReadFile ∘ path_of dir
               <$> filter (λ f, accepted f) (regular_files W dir names))
         ++ [ClockRead])%list.
Proof.
  intros Hrun dir.
  apply run_Return_exact in Hrun as (names & a & Hn & _ & _ & _ & _ & ->).
  by exists names.
Qed.

Lemma accesses_of_a_returning_run_witness :
  ∃ c st,
    run (E := Sample.env) Cases.three_posts Sample.opts = (Return c, st)
    ∧ trace st =
        [ ClockRead; ReadDir "content";
          Stat "content/01-one.md"; Stat "content/02-two.html";
          Stat "content/one.json"; Stat "content/three.json";
          Stat "content/two.json"; Stat "content/two.md";
          Stat "content/notes.bak"; Stat "content/img";
          ReadFile "content/01-one.md"; ReadFile "content/02-two.html";
          ReadFile "content/one.json"; ReadFile "content/three.json";
          ReadFile "content/two.json"; ReadFile "content/two.md";
          ClockRead ].
Proof.
  assert (∃ c st, run (E := Sample.env) Cases.three_posts Sample.opts
                  = (Return c, st)) as (c & st & Hrun)
    by (eexists _, _; vm_compute; reflexivity).
  exists c, st. split; [exact Hrun|].
  destruct (accesses_of_a_returning_run (E := Sample.env) Cases.three_posts
              Sample.opts c st Hrun) as (names & Hn & _ & Htr).
  rewrite Htr. vm_compute in Hn. injection Hn as <-. vm_compute. reflexivity.
Defined.

(** X2. The corpus is made of the files that are no directories and pass
    the test of line 89, and of nothing else in the directory: a second
    directory with the same such files, in the same order and with the same
    contents, read at the same two times, gives the same corpus, whatever
    else it holds. *)
Theorem corpus_made_of_content_files_only `{E : Env} (W W' : World)
    opts c st names names' :
  run W opts = (Return c, st) →
  let dir := default "" (contentDir opts) in
  readdirSync W dir = Some names →
  readdirSync W' dir = Some names' →
  Forall (λ n, is_Some (isDirectory W' (dir ++ "/" ++ n))) names' →
  filter (λ f, accepted f) (regular_files W' dir names')
    = filter (λ f, accepted f) (regular_files W dir names) →
  (∀ f, f ∈ regular_files W dir names → accepted f = true →
        readFileSync W' (dir ++ "/" ++ f) = readFileSync W (dir ++ "/" ++ f)) →
  clock W' 0 = clock W 0 → clock W' 1 = clock W 1 →
  ∃ st', run W' opts = (Return c, st').
Proof.
  intros Hrun dir Hn Hn' Hstat Hsame Hread Hc0 Hc1.
  pose proof Hrun as Hcfg.
  apply run_Return in Hcfg as (Hdom & Hdir & _).
  apply falsy_false in Hdir as (d & Hd & Hne).
  assert (dir = d) as Hdd by (subst dir; by rewrite Hd).
  apply run_Return_exact in Hrun as (names0 & a & Hn0 & _ & Hloads & Hasm & -> & _).
  fold dir in Hn0, Hloads, Hasm. rewrite Hn in Hn0. inversion Hn0; subst names0.
  rewrite Forall_forall in Hloads.
  assert (∀ f, f ∈ filter (λ f, accepted f) (regular_files W dir names) →
               ∀ tbl, file_step W' (clock W 0) dir tbl f
                      = file_step W (clock W 0) dir tbl f) as Hstep.
  { intros f [Hacc Hf]%list_elem_of_filter tbl. unfold file_step.
    apply Is_true_true in Hacc. by rewrite Hread. }
  assert (foldl (file_step W' (clock W 0) dir) {| order := []; objs := ∅ |}
            (regular_files W' dir names')
          = foldl (file_step W (clock W 0) dir) {| order := []; objs := ∅ |}
              (regular_files W dir names)) as Htbl.
  { rewrite (foldl_file_step_accepted W'), (foldl_file_step_accepted W), Hsame.
    generalize ({| order := []; objs := ∅ |} : Table) as tbl.
    revert Hstep.
    generalize (filter (λ f, accepted f) (regular_files W dir names)) as l.
    induction l as [|f l IH]; intros Hstep tbl; [done|]. cbn [foldl].
    rewrite Hstep by (by left). apply IH.
    intros g Hg. apply Hstep. by right. }
  destruct (run_loads W' opts d names' a) as [st' Hrun']; try done.
  - by rewrite <- Hdd.
  - by rewrite <- Hdd.
  - rewrite <- Hdd. apply Forall_forall. intros f Hf.
    destruct (accepted f) eqn:Hacc; [|by left].
    assert (f ∈ regular_files W dir names) as Hf'.
    { assert (f ∈ filter (λ f, accepted f) (regular_files W' dir names')) as Hin
        by (apply list_elem_of_filter; by rewrite Hacc).
      rewrite Hsame in Hin. by apply list_elem_of_filter in Hin as [_ ?]. }
    destruct (Hloads f Hf') as [Hno|(Hinh & cts & Hcts & Hdec)]; [congruence|].
    right. split; [done|]. exists cts. by rewrite Hread.
  - rewrite <- Hdd, Hc0, Htbl. exact Hasm.
  - exists st'. by rewrite Hrun', Hc1.
Qed.

Lemma corpus_made_of_content_files_only_witness :
  ∃ c st st',
    run (E := Sample.env) Cases.three_posts Sample.opts = (Return c, st)
    ∧ run (E := Sample.env) Cases.three_posts_only Sample.opts = (Return c, st').
Proof.
  assert (∃ c st, run (E := Sample.env) Cases.three_posts Sample.opts
                  = (Return c, st)) as (c & st & Hrun)
    by (eexists _, _; vm_compute; reflexivity).
  destruct (corpus_made_of_content_files_only (E := Sample.env)
              Cases.three_posts Cases.three_posts_only Sample.opts c st
              ["01-one.md"; "02-two.html"; "one.json"; "three.json"; "two.json";
               "two.md"; "notes.bak"; "img"]
              ["01-one.md"; "02-two.html"; "one.json"; "three.json"; "two.json";
               "two.md"] Hrun) as [st' Hrun'].
  - vm_compute; reflexivity.
  - vm_compute; reflexivity.
  - repeat (apply Forall_cons_2; [eexists; vm_compute; reflexivity|]).
    apply Forall_nil_2.
  - vm_compute; reflexivity.
  - intros f Hf. vm_compute in Hf.
    (repeat (apply elem_of_cons in Hf as [->|Hf];
            [intros Hacc; vm_compute in Hacc |- *; first [discriminate Hacc|reflexivity]|])).
    destruct (not_elem_of_nil _ Hf).
  - vm_compute; reflexivity.
  - vm_compute; reflexivity.
  - exists c, st, st'; split; [exact Hrun | exact Hrun'].
Defined.

(* ------------------------------------------------------------------------ *)
(** ** Runs that stop at the directory or at a file *)

Section Stops.
Context {E : Env} (W : World).

Lemma bind_Throw {A B} (m : M A) (k : A → M B) s e s' :
  m s = (Throw e, s') → bind m k s = (Throw e, s').
Proof. unfold bind. by intros ->. Qed.

Lemma bind_ret {A B} (m : M A) (k : A → M B) s a s' :
  m s = (Return a, s') → bind m k s = k a s'.
Proof. unfold bind. by intros ->. Qed.

Lemma processFile_unreadable now dir tbl f s :
  accepted f = true →
  readFileSync W (dir ++ "/" ++ f) = None →
  processFile W now dir tbl f s =
    (Throw (SystemError (dir ++ "/" ++ f)),
     {| ticks := ticks s; trace := trace s ++ [ReadFile (dir ++ "/" ++ f)] |}).
Proof.
  unfold accepted, ext_of, processFile. intros -> Hr. cbn [negb].
  unfold bind at 1, fs_readFileSync, call, bind at 1, emit. by rewrite Hr.
Qed.

Lemma processFile_yaml_rejected now dir tbl f s contents e :
  ext_of f = Some "yaml" →
  readFileSync W (dir ++ "/" ++ f) = Some contents →
  yaml_load contents = inr e →
  processFile W now dir tbl f s =
    (Throw (DecodeFailure e),
     {| ticks := ticks s;
        trace := (trace s ++ [ReadFile (dir ++ "/" ++ f)])
                   ++ [ConsoleLog ("Error parsing file " ++ dir ++ "/" ++ f)] |}).
Proof.
  intros Hext Hr Hy. unfold processFile.
  fold (ext_of f) (ident f). rewrite Hext.
  change (validExt_truthy (Some "yaml")) with true.
  change (ext_is (Some "yaml") "json") with false.
  change (ext_is (Some "yaml") "yaml") with true. cbn [negb].
  unfold bind at 1, fs_readFileSync, call, bind at 1, emit. rewrite Hr. simpl.
  unfold bind at 1, ret. unfold bind at 1. by rewrite Hy.
Qed.

Lemma processFile_ini_rejected now dir tbl f s contents e :
  ext_of f = Some "ini" →
  readFileSync W (dir ++ "/" ++ f) = Some contents →
  ini_decode contents = inr e →
  processFile W now dir tbl f s =
    (Throw (DecodeFailure e),
     {| ticks := ticks s; trace := trace s ++ [ReadFile (dir ++ "/" ++ f)] |}).
Proof.
  intros Hext Hr Hy. unfold processFile.
  fold (ext_of f) (ident f). rewrite Hext.
  change (validExt_truthy (Some "ini")) with true.
  change (ext_is (Some "ini") "json") with false.
  change (ext_is (Some "ini") "yaml") with false.
  change (ext_is (Some "ini") "ini") with true. cbn [negb].
  unfold bind at 1, fs_readFileSync, call, bind at 1, emit. rewrite Hr. simpl.
  unfold bind at 1, ret. unfold bind at 1. unfold bind at 1. by rewrite Hy.
Qed.

(** The files that load leave these accesses behind. *)
Lemma foldM_loads_exact now dir files tbl s :
  Forall (loads W dir) files →
  foldM (processFile W now dir) files tbl s
  = (Return (foldl (file_step W now dir) tbl files),
     {| ticks := ticks s;
        trace := trace s ++ (ReadFile ∘ path_of dir <$> filter (λ f, accepted f) files) |}).
Proof.
  intros H. destruct (foldM_loads W now dir files tbl s H) as (s' & Hs' & _).
  rewrite Hs'. apply foldM_Return_exact in Hs' as (_ & Ht & Htr).
  destruct s' as [t tr]; simpl in *. by rewrite Ht, Htr.
Qed.

Lemma filterM_regular_exact dir names s :
  Forall (λ n, is_Some (isDirectory W (dir ++ "/" ++ n))) names →
  filterM (λ filename,
    let! d := fs_isDirectory W (dir ++ "/" ++ filename) in ret (negb d)) names s
  = (Return (regular_files W dir names),
     {| ticks := ticks s; trace := trace s ++ (Stat ∘ path_of dir <$> names) |}).
Proof.
  intros H. destruct (filterM_regular W dir names s H) as (s' & Hs' & _).
  rewrite Hs'. apply filterM_Return_exact in Hs' as (_ & _ & Ht & Htr).
  destruct s' as [t tr]; simpl in *. by rewrite Ht, Htr.
Qed.

(** An entry that cannot be examined stops the filter of lines 76-78. *)
Lemma filterM_stat_fails dir pre n rest s :
  Forall (λ n, is_Some (isDirectory W (dir ++ "/" ++ n))) pre →
  isDirectory W (dir ++ "/" ++ n) = None →
  filterM (λ filename,
    let! d := fs_isDirectory W (dir ++ "/" ++ filename) in ret (negb d))
    (pre ++ n :: rest) s
  = (Throw (SystemError (dir ++ "/" ++ n)),
     {| ticks := ticks s;
        trace := trace s ++ (Stat ∘ path_of dir <$> pre) ++ [Stat (dir ++ "/" ++ n)] |}).
Proof.
  intros Hpre Hn. revert s. induction Hpre as [|m pre [d Hd] _ IH]; intros s.
  - cbn [app filterM fmap list_fmap]. unfold bind at 1.
    unfold bind at 1, fs_isDirectory, call, bind at 1, emit. by rewrite Hn.
  - cbn [app filterM]. unfold bind at 1. cbv beta.
    rewrite (keep_regular W _ _ _ d Hd). unfold bind at 1. rewrite IH.
    cbn [ticks trace]. rewrite fmap_cons. by rewrite <- !app_assoc.
Qed.

(** A file on which [processFile] throws stops the loop of line 80, after
    the files before it. *)
Lemma load_throws_at_file now dir names pre f rest e evs s :
  readdirSync W dir = Some names →
  Forall (λ n, is_Some (isDirectory W (dir ++ "/" ++ n))) names →
  regular_files W dir names = (pre ++ f :: rest)%list →
  Forall (loads W dir) pre →
  (∀ tbl s, processFile W now dir tbl f s
            = (Throw e, {| ticks := ticks s; trace := trace s ++ evs |})) →
  load W dir now s
  = (Throw e,
     {| ticks := ticks s;
        trace := trace s ++ [ReadDir dir] ++ (Stat ∘ path_of dir <$> names)
                 ++ (ReadFile ∘ path_of dir <$> filter (λ f, accepted f) pre)
                 ++ evs |}).
Proof.
  intros Hn Hstat Hsplit Hpre Hf. unfold load.
  assert (fs_readdirSync W dir s
          = (Return names, {| ticks := ticks s; trace := trace s ++ [ReadDir dir] |}))
    as H0 by (unfold fs_readdirSync, call, bind, emit; by rewrite Hn).
  rewrite (bind_ret _ _ _ _ _ H0).
  rewrite (bind_ret _ _ _ _ _ (filterM_regular_exact dir names _ Hstat)).
  rewrite Hsplit, foldM_app.
  rewrite (bind_ret _ _ _ _ _ (foldM_loads_exact now dir pre _ _ Hpre)).
  cbn [foldM]. rewrite (bind_Throw _ _ _ _ _ (Hf _ _)).
  cbn [ticks trace]. by rewrite <- !app_assoc.
Qed.

Lemma run_enters opts dir :
  falsy (domain opts) = false → contentDir opts = Some dir → dir ≠ "" →
  run W opts
  = bind (load W dir (clock W 0))
      (λ tbl,
         let! a := lift (assemble (xtend_opts defaults opts) (clock W 0) tbl) in
         let! at280 := read_clock W in
         ret {| posts := a_posts a; post := a_post a; pages := [];
                latest := a_latest a; archive := a_archive a;
                tagged := a_tagged a; rss := a_rss a;
                atom := data2xml "feed"
                          (atomData (xtend_opts defaults opts) at280
                             (deref (a_post a) (a_latest a))) |})
      {| ticks := 1; trace := [ClockRead] |}.
Proof.
  intros Hdom Hdir Hne. unfold run, readBlogSync. rewrite Hdom.
  replace (falsy (contentDir opts)) with false
    by (rewrite Hdir; simpl; symmetry; by apply String.eqb_neq).
  replace (contentDir (xtend_opts defaults opts)) with (Some dir)
    by (by destruct opts as [? []]; simpl in *; subst).
  reflexivity.
Qed.

Lemma run_throws_at_file opts dir names pre f rest e evs :
  falsy (domain opts) = false → contentDir opts = Some dir → dir ≠ "" →
  readdirSync W dir = Some names →
  Forall (λ n, is_Some (isDirectory W (dir ++ "/" ++ n))) names →
  regular_files W dir names = (pre ++ f :: rest)%list →
  Forall (loads W dir) pre →
  (∀ tbl s, processFile W (clock W 0) dir tbl f s
            = (Throw e, {| ticks := ticks s; trace := trace s ++ evs |})) →
  run W opts
  = (Throw e,
     {| ticks := 1;
        trace := [ClockRead; ReadDir dir] ++ (Stat ∘ path_of dir <$> names)
                 ++ (ReadFile ∘ path_of dir <$> filter (λ f, accepted f) pre)
                 ++ evs |}).
Proof.
  intros Hdom Hdir Hne Hn Hstat Hsplit Hpre Hf.
  rewrite (run_enters opts dir) by done.
  by rewrite (bind_Throw _ _ _ _ _
                (load_throws_at_file _ dir names pre f rest e evs _ Hn Hstat Hsplit Hpre Hf)).
Qed.
End Stops.

(** X3. A content directory that cannot be listed: the exception of
    [readdirSync] leaves [readBlogSync] as it is, after one reading of the
    clock and the attempt to list the directory; nothing else was touched. *)
Theorem unlistable_directory_throws `{E : Env} (W : World) opts dir :
  falsy (domain opts) = false → contentDir opts = Some dir → dir ≠ "" →
  readdirSync W dir = None →
  run W opts
  = (Throw (SystemError dir), {| ticks := 1; trace := [ClockRead; ReadDir dir] |}).
Proof.
  intros Hdom Hdir Hne Hn. rewrite (run_enters W opts dir) by done.
  apply bind_Throw. unfold load. apply bind_Throw.
  unfold fs_readdirSync, call, bind, emit, throw, lift. by rewrite Hn.
Qed.

Lemma unlistable_directory_throws_witness :
  run (E := Sample.env) Cases.no_directory Sample.opts
  = (Throw (SystemError "content"),
     {| ticks := 1; trace := [ClockRead; ReadDir "content"] |}).
Proof.
  apply (unlistable_directory_throws (E := Sample.env) Cases.no_directory
           Sample.opts "content").
  - reflexivity.
  - reflexivity.
  - intros H; discriminate H.
  - reflexivity.
Defined.

(** X4. An entry of the directory that cannot be examined: the exception of
    [statSync] leaves [readBlogSync] as it is. The entries before it were
    examined, in the order of the listing; no file was read, whatever the
    directory holds. *)
Theorem failing_stat_throws_before_any_read `{E : Env} (W : World)
    opts dir pre n rest :
  falsy (domain opts) = false → contentDir opts = Some dir → dir ≠ "" →
  readdirSync W dir = Some (pre ++ n :: rest)%list →
  Forall (λ n, is_Some (isDirectory W (dir ++ "/" ++ n))) pre →
  isDirectory W (dir ++ "/" ++ n) = None →
  run W opts
  = (Throw (SystemError (dir ++ "/" ++ n)),
     {| ticks := 1;
        trace := [ClockRead; ReadDir dir] ++ (Stat ∘ path_of dir <$> pre)
                 ++ [Stat (dir ++ "/" ++ n)] |}).
Proof.
  intros Hdom Hdir Hne Hn Hpre Hstat. rewrite (run_enters W opts dir) by done.
  apply bind_Throw. unfold load.
  assert (fs_readdirSync W dir {| ticks := 1; trace := [ClockRead] |}
          = (Return (pre ++ n :: rest)%list,
             {| ticks := 1; trace := [ClockRead; ReadDir dir] |}))
    as H0 by (unfold fs_readdirSync, call, bind, emit; by rewrite Hn).
  rewrite (bind_ret _ _ _ _ _ H0). apply bind_Throw.
  by rewrite (filterM_stat_fails W dir pre n rest _ Hpre Hstat).
Qed.

Lemma failing_stat_throws_before_any_read_witness :
  run (E := Sample.env) Cases.no_stat Sample.opts
  = (Throw (SystemError "content/b.md"),
     {| ticks := 1;
        trace := [ClockRead; ReadDir "content"; Stat "content/a.md";
                  Stat "content/b.md"] |}).
Proof.
  apply (failing_stat_throws_before_any_read (E := Sample.env) Cases.no_stat
           Sample.opts "content" ["a.md"] "b.md" []).
  - reflexivity.
  - reflexivity.
  - intros H; discriminate H.
  - reflexivity.
  - apply Forall_cons_2; [eexists; reflexivity|apply Forall_nil_2].
  - reflexivity.
Defined.

(** X5. A file that passes the test of line 89 and cannot be read: the
    exception of [readFileSync] leaves [readBlogSync] as it is. Every entry
    was examined and the files before this one were read; the files after
    it are not touched. *)
Theorem unreadable_file_throws `{E : Env} (W : World)
    opts dir names pre f rest :
  falsy (domain opts) = false → contentDir opts = Some dir → dir ≠ "" →
  readdirSync W dir = Some names →
  Forall (λ n, is_Some (isDirectory W (dir ++ "/" ++ n))) names →
  regular_files W dir names = (pre ++ f :: rest)%list →
  Forall (loads W dir) pre →
  accepted f = true → inherited (ident f) = false →
  readFileSync W (dir ++ "/" ++ f) = None →
  run W opts
  = (Throw (SystemError (dir ++ "/" ++ f)),
     {| ticks := 1;
        trace := [ClockRead; ReadDir dir] ++ (Stat ∘ path_of dir <$> names)
                 ++ (ReadFile ∘ path_of dir <$> filter (λ f, accepted f) pre)
                 ++ [ReadFile (dir ++ "/" ++ f)] |}).
Proof.
  intros Hdom Hdir Hne Hn Hstat Hsplit Hpre Hacc Hinh Hr.
  apply (run_throws_at_file W opts dir names pre f rest); try done.
  intros tbl s. by apply processFile_unreadable.
Qed.

Lemma unreadable_file_throws_witness :
  run (E := Sample.env) Cases.no_read Sample.opts
  = (Throw (SystemError "content/b.md"),
     {| ticks := 1;
        trace := [ClockRead; ReadDir "content"; Stat "content/a.md";
                  Stat "content/b.md"; Stat "content/c.xyz";
                  ReadFile "content/a.md"; ReadFile "content/b.md"] |}).
Proof.
  apply (unreadable_file_throws (E := Sample.env) Cases.no_read Sample.opts
           "content" ["a.md"; "b.md"; "c.xyz"] ["a.md"] "b.md" ["c.xyz"]).
  - reflexivity.
  - reflexivity.
  - intros H; discriminate H.
  - reflexivity.
  - repeat (apply Forall_cons_2; [eexists; reflexivity|]). apply Forall_nil_2.
  - vm_compute; reflexivity.
  - apply Forall_cons_2; [|apply Forall_nil_2].
    right. split; [reflexivity|]. exists "A". split; [reflexivity|].
    repeat split; intros H; vm_compute in H; destruct H.
  - reflexivity.
  - reflexivity.
  - reflexivity.
Defined.

(** X6. A YAML file the decoder rejects: the run prints
    "Error parsing file <contentDir>/<filename>" with [console.log] and
    throws the decoder's exception again; the process does not exit, unlike
    what lines 126-129 do for JSON. The files after it are not read. *)
Theorem rejected_yaml_logs_and_throws `{E : Env} (W : World)
    opts dir names pre f rest contents e :
  falsy (domain opts) = false → contentDir opts = Some dir → dir ≠ "" →
  readdirSync W dir = Some names →
  Forall (λ n, is_Some (isDirectory W (dir ++ "/" ++ n))) names →
  regular_files W dir names = (pre ++ f :: rest)%list →
  Forall (loads W dir) pre →
  ext_of f = Some "yaml" → inherited (ident f) = false →
  readFileSync W (dir ++ "/" ++ f) = Some contents →
  yaml_load contents = inr e →
  run W opts
  = (Throw (DecodeFailure e),
     {| ticks := 1;
        trace := [ClockRead; ReadDir dir] ++ (Stat ∘ path_of dir <$> names)
                 ++ (ReadFile ∘ path_of dir <$> filter (λ f, accepted f) pre)
                 ++ [ReadFile (dir ++ "/" ++ f);
                     ConsoleLog ("Error parsing file " ++ dir ++ "/" ++ f)] |}).
Proof.
  intros Hdom Hdir Hne Hn Hstat Hsplit Hpre Hext Hinh Hr Hy.
  apply (run_throws_at_file W opts dir names pre f rest); try done.
  intros tbl s.
  rewrite (processFile_yaml_rejected W _ _ _ _ _ contents e) by done.
  by rewrite <- app_assoc.
Qed.

Lemma rejected_yaml_logs_and_throws_witness :
  run (E := Sample.env) (Cases.broken "bad.yaml") Sample.opts
  = (Throw (DecodeFailure "SyntaxError: Unexpected token"),
     {| ticks := 1;
        trace := [ClockRead; ReadDir "content"; Stat "content/a.md";
                  Stat "content/bad.yaml"; Stat "content/z.md";
                  ReadFile "content/a.md"; ReadFile "content/bad.yaml";
                  ConsoleLog "Error parsing file content/bad.yaml"] |}).
Proof.
  apply (rejected_yaml_logs_and_throws (E := Sample.env) (Cases.broken "bad.yaml")
           Sample.opts "content" ["a.md"; "bad.yaml"; "z.md"] ["a.md"] "bad.yaml"
           ["z.md"] "{oops" "SyntaxError: Unexpected token").
  - reflexivity.
  - reflexivity.
  - intros H; discriminate H.
  - reflexivity.
  - repeat (apply Forall_cons_2; [eexists; reflexivity|]). apply Forall_nil_2.
  - vm_compute; reflexivity.
  - apply Forall_cons_2; [|apply Forall_nil_2].
    right. split; [reflexivity|]. exists "A". split; [reflexivity|].
    repeat split; intros H; vm_compute in H; destruct H.
  - reflexivity.
  - reflexivity.
  - reflexivity.
  - reflexivity.
Defined.

(** X7. An INI file the decoder rejects: line 141 is in no [try], so the
    decoder's exception leaves [readBlogSync] as it is, and nothing is
    printed: the last thing the run did was to read the file. *)
Theorem rejected_ini_throws_silently `{E : Env} (W : World)
    opts dir names pre f rest contents e :
  falsy (domain opts) = false → contentDir opts = Some dir → dir ≠ "" →
  readdirSync W dir = Some names →
  Forall (λ n, is_Some (isDirectory W (dir ++ "/" ++ n))) names →
  regular_files W dir names = (pre ++ f :: rest)%list →
  Forall (loads W dir) pre →
  ext_of f = Some "ini" → inherited (ident f) = false →
  readFileSync W (dir ++ "/" ++ f) = Some contents →
  ini_decode contents = inr e →
  run W opts
  = (Throw (DecodeFailure e),
     {| ticks := 1;
        trace := [ClockRead; ReadDir dir] ++ (Stat ∘ path_of dir <$> names)
                 ++ (ReadFile ∘ path_of dir <$> filter (λ f, accepted f) pre)
                 ++ [ReadFile (dir ++ "/" ++ f)] |}).
Proof.
  intros Hdom Hdir Hne Hn Hstat Hsplit Hpre Hext Hinh Hr Hy.
  apply (run_throws_at_file W opts dir names pre f rest); try done.
  intros tbl s. by apply (processFile_ini_rejected W _ _ _ _ _ contents e).
Qed.

Lemma rejected_ini_throws_silently_witness :
  run (E := Cases.strict_env) (Cases.broken "bad.ini") Sample.opts
  = (Throw (DecodeFailure "SyntaxError: Unexpected token"),
     {| ticks := 1;
        trace := [ClockRead; ReadDir "content"; Stat "content/a.md";
                  Stat "content/bad.ini"; Stat "content/z.md";
                  ReadFile "content/a.md"; ReadFile "content/bad.ini"] |}).
Proof.
  apply (rejected_ini_throws_silently (E := Cases.strict_env) (Cases.broken "bad.ini")
           Sample.opts "content" ["a.md"; "bad.ini"; "z.md"] ["a.md"] "bad.ini"
           ["z.md"] "{oops" "SyntaxError: Unexpected token").
  - reflexivity.
  - reflexivity.
  - intros H; discriminate H.
  - reflexivity.
  - repeat (apply Forall_cons_2; [eexists; reflexivity|]). apply Forall_nil_2.
  - vm_compute; reflexivity.
  - apply Forall_cons_2; [|apply Forall_nil_2].
    right. split; [reflexivity|]. exists "A". split; [reflexivity|].
    repeat split; intros H; vm_compute in H; destruct H.
  - reflexivity.
  - reflexivity.
  - reflexivity.
  - reflexivity.
Defined.

(* ------------------------------------------------------------------------ *)
(** ** The reading of file names *)

Lemma string_app_assoc (a b c : string) : (a ++ b) ++ c = a ++ b ++ c.
Proof.
  induction a as [|x a IH]; [done|].
  change (String x ((a ++ b) ++ c) = String x (a ++ b ++ c)). by rewrite IH.
Qed.

Lemma split_on_dot_app b r :
  no_dot b → split_on "." (b ++ String "." r) = b :: split_on "." r.
Proof.
  unfold no_dot. induction b as [|a b IH]; simpl; intros H; [done|].
  apply Forall_cons in H as [Ha Hb].
  destruct (Ascii.eqb_spec a "."); [done|]. by rewrite IH.
Qed.

Lemma split_on_no_dot b : no_dot b → split_on "." b = [b].
Proof.
  unfold no_dot. induction b as [|a b IH]; simpl; intros H; [done|].
  apply Forall_cons in H as [Ha Hb].
  destruct (Ascii.eqb_spec a "."); [done|]. by rewrite IH.
Qed.

Lemma no_dot_app a b : no_dot a → no_dot b → no_dot (a ++ b).
Proof.
  unfold no_dot. induction a as [|x a IH]; simpl; intros Ha Hb; [done|].
  apply Forall_cons in Ha as [Hx Ha]. constructor; auto.
Qed.

Lemma all_digits_no_dot ds : all_digits ds → no_dot ds.
Proof.
  unfold all_digits, no_dot. intros H. eapply Forall_impl; [exact H|].
  intros a Ha ->. vm_compute in Ha. discriminate Ha.
Qed.

Lemma drop_digits_app ds r :
  all_digits ds → drop_digits (ds ++ String "-" r) = String "-" r.
Proof.
  unfold all_digits. induction ds as [|a ds IH]; simpl; intros H; [done|].
  apply Forall_cons in H as [-> Hd]. by apply IH.
Qed.

Lemma strip_number_prefix_app ds b :
  all_digits ds → ds ≠ "" → strip_number_prefix (ds ++ "-" ++ b) = b.
Proof.
  intros Hd Hne. destruct ds as [|a ds]; [done|].
  unfold all_digits in Hd. simpl in Hd. apply Forall_cons in Hd as [Ha Hd].
  unfold strip_number_prefix. simpl. rewrite Ha.
  change (ds ++ "-" ++ b) with (ds ++ String "-" b).
  by rewrite (drop_digits_app ds b Hd).
Qed.

(** X8. How lines 83-97 read a file name. The extension is the text between
    the first and the second dot, the identifier of the post the text before
    the first dot, without one leading group of digits followed by a hyphen:
    [01-name.ext] and [name.ext] name the same post. What follows a second
    dot is not looked at, and a name without a dot is skipped. *)
Theorem reading_of_a_file_name ds b e r :
  no_dot b → no_dot e → all_digits ds → ds ≠ "" →
  ext_of (b ++ "." ++ e) = Some e
  ∧ ident (b ++ "." ++ e) = strip_number_prefix b
  ∧ ext_of (b ++ "." ++ e ++ "." ++ r) = Some e
  ∧ ident (b ++ "." ++ e ++ "." ++ r) = strip_number_prefix b
  ∧ ext_of (ds ++ "-" ++ b ++ "." ++ e) = Some e
  ∧ ident (ds ++ "-" ++ b ++ "." ++ e) = b
  ∧ accepted b = false.
Proof.
  intros Hb He Hd Hne. unfold ext_of, ident, accepted, ext_of.
  assert (no_dot (ds ++ "-" ++ b)) as Hdb.
  { apply no_dot_app; [by apply all_digits_no_dot|].
    apply (no_dot_app "-" b); [|done]. by repeat constructor. }
  assert (ds ++ "-" ++ b ++ "." ++ e = (ds ++ "-" ++ b) ++ String "." e) as ->.
  { by rewrite !string_app_assoc. }
  change (b ++ "." ++ e) with (b ++ String "." e).
  change (b ++ "." ++ e ++ "." ++ r) with (b ++ String "." (e ++ String "." r)).
  rewrite !split_on_dot_app by done.
  rewrite (split_on_no_dot e), (split_on_no_dot b) by done.
  cbn [hd lookup list_lookup].
  by rewrite strip_number_prefix_app.
Qed.

Lemma reading_of_a_file_name_witness :
  ext_of "2013-first-post.md" = Some "md"
  ∧ ident "2013-first-post.md" = "first-post"
  ∧ ident "first-post.json" = "first-post"
  ∧ ext_of "first-post.md.orig" = Some "md"
  ∧ accepted "first-post" = false.
Proof.
  destruct (reading_of_a_file_name "2013" "first-post" "md" "orig")
    as (_ & _ & H3 & _ & H5 & H6 & H7).
  - repeat constructor; intros H; discriminate H.
  - repeat constructor; intros H; discriminate H.
  - repeat constructor.
  - intros H; discriminate H.
  - split; [exact H5|]. split; [exact H6|]. split; [reflexivity|].
    split; [exact H3|exact H7].
Defined.

(* ------------------------------------------------------------------------ *)
(** ** The post a key holds after the loop over the files *)

Lemma ext_is_Some ext lit : ext_is ext lit = true → ext = Some lit.
Proof.
  destruct ext as [e|]; simpl; [|done]. by intros ->%String.eqb_eq.
Qed.

Lemma is_body_cases ext :
  is_body ext = true → ext = Some "html" ∨ ext = Some "md" ∨ ext = Some "textile".
Proof.
  unfold is_body. intros H.
  apply orb_true_iff in H as [H|H]; [apply orb_true_iff in H as [H|H]|];
    apply ext_is_Some in H; auto.
Qed.

Lemma is_overlay_cases ext :
  is_overlay ext = true → ext = Some "json" ∨ ext = Some "yaml" ∨ ext = Some "ini".
Proof.
  unfold is_overlay. intros H.
  apply orb_true_iff in H as [H|H]; [apply orb_true_iff in H as [H|H]|];
    apply ext_is_Some in H; auto.
Qed.

Lemma is_body_accepted ext : is_body ext = true → validExt_truthy ext = true.
Proof. by intros [->| [->| ->]]%is_body_cases. Qed.

Lemma is_overlay_accepted ext : is_overlay ext = true → validExt_truthy ext = true.
Proof. by intros [->| [->| ->]]%is_overlay_cases. Qed.

Lemma omap_none {A B} (f : A → option B) l :
  (∀ x, x ∈ l → f x = None) → omap f l = [].
Proof.
  induction l as [|x l IH]; intros H; [done|]. cbn [omap list_omap].
  rewrite (H x) by (by left). apply IH. intros y Hy. apply H. by right.
Qed.

Section Loaded_post.
Context {E : Env} (W : World).

Lemma file_effect_body_set ext c q :
  is_body ext = true →
  content (file_effect ext c q) = c ∧ html (file_effect ext c q) = rendered ext c.
Proof. by intros [->| [->| ->]]%is_body_cases. Qed.

Lemma file_effect_body_kept ext c q :
  validExt_truthy ext = true → is_body ext = false →
  content (file_effect ext c q) = content q ∧ html (file_effect ext c q) = html q.
Proof.
  intros Hv Hb. unfold is_body in Hb.
  apply orb_false_iff in Hb as [Hb Ht]. apply orb_false_iff in Hb as [Hh Hm].
  assert (ext_is ext "text" = false) as Hx.
  { destruct (ext_is ext "text") eqn:Hx; [|done].
    apply ext_is_Some in Hx as ->. vm_compute in Hv. discriminate Hv. }
  unfold file_effect, when, overlay. rewrite Hh, Hm, Ht, Hx. simpl.
  by repeat match goal with
     | |- context [ if ?b then _ else _ ] => destruct b
     | |- context [ match ?d with inl _ => _ | inr _ => _ end ] => destruct d
     end.
Qed.

Lemma file_effect_meta_overlay ext c q :
  decodes ext c → is_overlay ext = true →
  ∃ v, decoder_of ext c = inl v ∧ meta (file_effect ext c q) = xtend (meta q) v.
Proof.
  intros (Hj & Hy & Hi) [->| [->| ->]]%is_overlay_cases.
  - destruct Hj as [v Hv]; [done|]. exists v. split; [done|].
    unfold file_effect, when, overlay. simpl. by rewrite Hv.
  - destruct Hy as [v Hv]; [done|]. exists v. split; [done|].
    unfold file_effect, when, overlay. simpl. by rewrite Hv.
  - destruct Hi as [v Hv]; [done|]. exists v. split; [done|].
    unfold file_effect, when, overlay. simpl. by rewrite Hv.
Qed.

Lemma foldl_file_step_keys now dir files f :
  Forall (loads W dir) files → f ∈ files → accepted f = true →
  ident f ≠ "__proto__" →
  is_Some (objs (foldl (file_step W now dir) {| order := []; objs := ∅ |} files)
             !! ident f).
Proof.
  intros Hl Hf Hacc Hproto.
  pose proof (foldM_loads_exact W now dir files {| order := []; objs := ∅ |}
                {| ticks := 0; trace := [] |} Hl) as H.
  apply load_keys in H as [_ H]. by apply H.
Qed.

Lemma foldl_file_step_well_formed now dir files :
  Forall (loads W dir) files →
  well_formed (foldl (file_step W now dir) {| order := []; objs := ∅ |} files).
Proof.
  intros Hl.
  pose proof (foldM_loads_exact W now dir files {| order := []; objs := ∅ |}
                {| ticks := 0; trace := [] |} Hl) as H.
  apply load_well_formed in H; [done|apply well_formed_empty].
Qed.


Lemma body_files_snoc k l f :
  body_files k (l ++ [f])
  = (body_files k l
     ++ if decide (ident f = k) then if is_body (ext_of f) then [f] else [] else [])%list.
Proof.
  unfold body_files. rewrite filter_app. f_equal. rewrite filter_cons, filter_nil.
  destruct (decide (ident f = k)) as [Hi|Hi], (is_body (ext_of f)) eqn:Hb.
  - by rewrite decide_True.
  - rewrite decide_False; [done|]. intros [_ ?]; congruence.
  - rewrite decide_False; [done|]. by intros [? _].
  - rewrite decide_False; [done|]. by intros [? _].
Qed.

Lemma overlays_snoc dir k l f :
  overlays W dir k (l ++ [f])
  = (overlays W dir k l
     ++ if decide (ident f = k) then
          if is_overlay (ext_of f) then
            match readFileSync W (dir ++ "/" ++ f) with
            | Some contents =>
                match decoder_of (ext_of f) contents with
                | inl v => [v]
                | inr _ => []
                end
            | None => []
            end
          else []
        else [])%list.
Proof.
  unfold overlays. rewrite omap_app. f_equal. cbn [omap list_omap].
  destruct (decide (ident f = k)); [|done].
  destruct (is_overlay (ext_of f)); [|done].
  destruct (readFileSync W (dir ++ "/" ++ f)) as [c|]; [|done].
  by destruct (decoder_of (ext_of f) c).
Qed.

(** The metadata and the body of the post under a key when every file has
    loaded: the default metadata overlaid by the values of its metadata
    files, in their order, and the body of the last of its body files. *)
Lemma loaded_post now dir files k p :
  Forall (loads W dir) files →
  objs (foldl (file_step W now dir) {| order := []; objs := ∅ |} files) !! k = Some p →
  meta p = foldl xtend (meta (default_post now k)) (overlays W dir k files)
  ∧ match last (body_files k files) with
    | Some f =>
        ∃ contents, readFileSync W (dir ++ "/" ++ f) = Some contents
                    ∧ content p = contents
                    ∧ html p = rendered (ext_of f) contents
    | None => content p = "" ∧ html p = ""
    end.
Proof.
  revert p. induction files as [|f l IH] using rev_ind; intros p Hl.
  - simpl. by rewrite lookup_empty.
  - apply Forall_app in Hl as [Hl Hf]. rewrite Forall_singleton in Hf.
    rewrite foldl_app. cbn [foldl].
    pose proof (foldl_file_step_keys now dir l) as Hkeys.
    set (t := foldl (file_step W now dir) {| order := []; objs := ∅ |} l) in *.
    rewrite overlays_snoc, body_files_snoc. intros Hp.
    destruct (accepted f) eqn:Hacc.
    2: { unfold file_step in Hp. rewrite Hacc in Hp.
         assert (is_overlay (ext_of f) = false) as ->.
         { destruct (is_overlay (ext_of f)) eqn:Ho; [|done].
           apply is_overlay_accepted in Ho. unfold accepted in Hacc. congruence. }
         assert (is_body (ext_of f) = false) as ->.
         { destruct (is_body (ext_of f)) eqn:Hb; [|done].
           apply is_body_accepted in Hb. unfold accepted in Hacc. congruence. }
         destruct (decide (ident f = k)); rewrite !app_nil_r; by apply IH. }
    destruct Hf as [Hno|(Hinh & c & Hc & Hdec)]; [congruence|].
    unfold file_step in Hp. rewrite Hacc, Hc in Hp.
    rewrite lookup_update, lookup_ensure in Hp. rewrite Hc.
    destruct (decide (ident f = k)) as [Hid|Hne].
    2: { rewrite !app_nil_r. apply IH; [done|].
         destruct (objs t !! k); [done|].
         rewrite decide_False in Hp by (by intros [? _]). done. }
    (* the post before this file *)
    assert (∃ q, p = file_effect (ext_of f) c q
                 ∧ meta q = foldl xtend (meta (default_post now k)) (overlays W dir k l)
                 ∧ match last (body_files k l) with
                   | Some f =>
                       ∃ contents, readFileSync W (dir ++ "/" ++ f) = Some contents
                                   ∧ content q = contents
                                   ∧ html q = rendered (ext_of f) contents
                   | None => content q = "" ∧ html q = ""
                   end) as (q & -> & Hmq & Hbq).
    { destruct (objs t !! k) as [q|] eqn:Hq.
      { simpl in Hp; inversion Hp; subst p. exists q. split; [done|]. by apply IH. }
      case_decide as Hd; [|simpl in Hp; discriminate Hp].
      destruct Hd as [_ Hproto].
      simpl in Hp; inversion Hp; subst p.
      - exists (default_post now (ident f)). split; [done|].
        assert (∀ g, g ∈ l → accepted g = true → ident g ≠ k) as Hfresh.
        { intros g Hg Hag Hig.
          assert (ident g ≠ "__proto__") as Hgp by (by rewrite Hig, <- Hid).
          destruct (Hkeys g Hl Hg Hag Hgp) as [? Hx].
          rewrite Hig in Hx. congruence. }
        assert (overlays W dir k l = []) as ->.
        { apply omap_none. intros g Hg.
          destruct (decide (ident g = k)) as [Hig|]; [|done].
          destruct (is_overlay (ext_of g)) eqn:Ho; [|done].
          destruct (Hfresh g Hg (is_overlay_accepted _ Ho) Hig). }
        assert (body_files k l = []) as ->.
        { apply filter_none. intros g Hg [Hig Hb].
          destruct (Hfresh g Hg (is_body_accepted _ Hb) Hig). }
        rewrite Hid. by repeat split. }
    clear Hp. split.
    + destruct (is_overlay (ext_of f)) eqn:Ho.
      * destruct (file_effect_meta_overlay (ext_of f) c q Hdec Ho) as (v & Hv & ->).
        rewrite Hv. by rewrite foldl_app, Hmq.
      * rewrite file_effect_meta by done. by rewrite app_nil_r.
    + destruct (is_body (ext_of f)) eqn:Hb.
      * rewrite last_snoc.
        exists c. split; [done|]. by apply file_effect_body_set.
      * rewrite app_nil_r.
        destruct (file_effect_body_kept (ext_of f) c q Hacc Hb) as [-> ->].
        exact Hbq.
Qed.

(** The stages of a run that returns. *)
Lemma run_stages opts c st names :
  run W opts = (Return c, st) →
  let now := clock W 0 in
  let dir := default "" (contentDir opts) in
  readdirSync W dir = Some names →
  let tbl := foldl (file_step W now dir) {| order := []; objs := ∅ |}
               (regular_files W dir names) in
  Forall (loads W dir) (regular_files W dir names)
  ∧ well_formed tbl
  ∧ ∃ tblN, normalize tbl = Return tblN
            ∧ well_formed tblN
            ∧ posts c = publish now tblN
            ∧ post c = link (posts c) tblN.
Proof.
  intros Hrun now dir Hn tbl.
  apply run_Return in Hrun
    as (_ & _ & names' & tbl' & tblN & s1 & s2 & Hn' & Hload & HN & Hposts & Hpost & _).
  fold dir now in Hn', Hload. rewrite Hn in Hn'. inversion Hn'; subst names'.
  pose proof (foldM_Return_loads _ _ _ _ _ _ _ _ Hload) as Hloads.
  apply foldM_Return_exact in Hload as (-> & _). fold tbl in HN.
  split; [done|].
  assert (well_formed tbl) as Hwf by (by apply foldl_file_step_well_formed).
  split; [done|]. exists tblN. split; [done|].
  split; [by eapply normalize_well_formed|done].
Qed.

(** The post of the returned corpus and the post the files made: they
    differ in the date fields, and in the links, at most. *)
Lemma corpus_post opts c st names k p :
  run W opts = (Return c, st) →
  let now := clock W 0 in
  let dir := default "" (contentDir opts) in
  readdirSync W dir = Some names →
  objs (post c) !! k = Some p →
  ∃ p0 q tblN,
    objs (foldl (file_step W now dir) {| order := []; objs := ∅ |}
            (regular_files W dir names)) !! k = Some p0
    ∧ normalize (foldl (file_step W now dir) {| order := []; objs := ∅ |}
                   (regular_files W dir names)) = Return tblN
    ∧ objs tblN !! k = Some q
    ∧ same_but_dates p0 q ∧ same_body q p ∧ name p = k.
Proof.
  intros Hrun now dir Hn Hp.
  destruct (run_stages opts c st names Hrun Hn)
    as (Hloads & Hwf & tblN & HN & HwfN & Hposts & Hpost).
  rewrite Hpost in Hp. pose proof (link_bodies (posts c) tblN k) as Hb.
  rewrite Hp in Hb. inversion Hb as [q ? Hqp Hq|]; subst.
  pose proof (normalize_same _ _ k HN) as Hs. rewrite <- Hq in Hs.
  inversion Hs as [p0 ? Hpq Hp0|]; subst.
  exists p0, q, tblN. repeat (split; [done|]).
  destruct Hqp as (-> & _). symmetry in Hq. by apply (wf_fresh _ HwfN) in Hq as [? _].
Qed.
End Loaded_post.







(** A metadata file may decode to a string: [xtend] then copies its
    characters under their indices, as it copies the elements of an array. *)
Example xtend_of_a_string :
  xtend ∅ (VStr "ab") = <["1" := VStr "b"]> (<["0" := VStr "a"]> ∅)
  ∧ xtend ∅ (VArr [VNum 7]) = <["0" := VNum 7]> ∅
  ∧ xtend (<["title" := VStr "T"]> ∅) (VNum 7) = <["title" := VStr "T"]> ∅.
Proof. repeat split; vm_compute; reflexivity. Qed.

(* ------------------------------------------------------------------------ *)
(** ** The date fields *)

Section Dates.
Context {E : Env} (W : World).



End Dates.



(* ------------------------------------------------------------------------ *)
(** ** The archive and the tags *)

Lemma foldO_Return_each {A B} (f : A → B → outcome A) l a a' :
  foldO f l a = Return a' → ∀ b, b ∈ l → ∃ a1 a2, f a1 b = Return a2.
Proof.
  revert a. induction l as [|x l IH]; intros a H b Hb; [by apply elem_of_nil in Hb|].
  cbn [foldO] in H. apply bindO_Return in H as (a1 & H1 & H).
  apply elem_of_cons in Hb as [->|Hb]; [by eauto|]. by eapply IH.
Qed.

Section Buckets.
Context {E : Env}.

Lemma archive_step_bucket tbl ar k ar' y m :
  archive_step tbl ar k = Return ar' →
  archive_bucket ar' y m
  = (archive_bucket ar y m
     ++ if decide (year_month tbl k = Some (y, m)) then [k] else [])%list.
Proof.
  unfold archive_step, year_month, archive_bucket.
  destruct (objs tbl !! k) as [p|]; simpl.
  2: { intros [= <-]. by rewrite app_nil_r. }
  set (Y := meta_string "year" p). set (M := meta_string "month" p).
  intros H.
  assert (∃ months bucket,
            ar' = <[Y := <[M := (bucket ++ [k])%list]> months]> ar
            ∧ default ∅ (ar !! Y) = months
            ∧ default [] (months !! M) = bucket) as (months & bucket & -> & Hms & Hb).
  { destruct (ar !! Y) as [months|] eqn:HY.
    - destruct (months !! M) as [bucket|] eqn:HM.
      + inversion H; subst. exists months, bucket. by rewrite HM.
      + destruct (inherited M); [done|]. inversion H; subst.
        exists months, []. by rewrite HM.
    - destruct (inherited Y); [done|]. destruct (inherited M); [done|].
      inversion H; subst. exists ∅, []. split; [|done].
      by rewrite insert_empty. }
  destruct (decide (Y = y)) as [<-|HneY].
  - rewrite lookup_insert_eq. simpl.
    destruct (decide (M = m)) as [<-|HneM].
    + rewrite lookup_insert_eq, decide_True by done. simpl.
      f_equal. rewrite <- Hb, <- Hms. by destruct (ar !! Y).
    + rewrite lookup_insert_ne by done.
      rewrite decide_False by congruence. rewrite app_nil_r.
      rewrite <- Hms. destruct (ar !! Y); simpl; [done|]. by rewrite lookup_empty.
  - rewrite lookup_insert_ne by done.
    rewrite decide_False by congruence. by rewrite app_nil_r.
Qed.

Lemma archive_fold_bucket tbl l ar0 ar y m :
  foldO (archive_step tbl) l ar0 = Return ar →
  archive_bucket ar y m
  = (archive_bucket ar0 y m ++ filter (λ k, year_month tbl k = Some (y, m)) l)%list.
Proof.
  revert ar0. induction l as [|k l IH]; intros ar0 H.
  - inversion H; subst. by rewrite app_nil_r.
  - cbn [foldO] in H. apply bindO_Return in H as (ar1 & H1 & H).
    rewrite (IH _ H), (archive_step_bucket _ _ _ _ y m H1), filter_cons.
    rewrite <- app_assoc. f_equal.
    by destruct (decide (year_month tbl k = Some (y, m))).
Qed.

(** The loop of lines 224-234 makes no empty year and no empty month. *)
Lemma archive_fold_inhabited tbl l ar :
  foldO (archive_step tbl) l ∅ = Return ar →
  ∀ y months, ar !! y = Some months →
    months ≠ ∅ ∧ ∀ m bucket, months !! m = Some bucket → bucket ≠ [].
Proof.
  intros H.
  eapply (foldO_Return_ind (archive_step tbl)
            (λ ar, ∀ y (months : gmap string (list ref)), ar !! y = Some months →
               months ≠ ∅ ∧ ∀ m bucket, months !! m = Some bucket → bucket ≠ []) l);
    [|exact H|].
  2: { intros y months. by rewrite lookup_empty. }
  clear H. intros ar0 k ar1 _ Hstep IH y months Hy. unfold archive_step in Hstep.
  destruct (objs tbl !! k) as [p|]; [|inversion Hstep; subst; eauto].
  set (Y := meta_string "year" p) in *. set (M := meta_string "month" p) in *.
  assert (∃ months0 bucket,
            ar1 = <[Y := <[M := (bucket ++ [k])%list]> months0]> ar0
            ∧ (ar0 !! Y = Some months0 ∨ months0 = ∅))
    as (months0 & bucket & -> & Hms).
  { destruct (ar0 !! Y) as [months0|] eqn:HY.
    - destruct (months0 !! M) as [bucket|] eqn:HM.
      + inversion Hstep; subst. exists months0, bucket. auto.
      + destruct (inherited M); [done|]. inversion Hstep; subst.
        exists months0, []. auto.
    - destruct (inherited Y); [done|]. destruct (inherited M); [done|].
      inversion Hstep; subst. exists ∅, []. split; [|auto].
      by rewrite insert_empty. }
  destruct (decide (Y = y)) as [<-|Hne].
  - rewrite lookup_insert_eq in Hy. inversion Hy; subst months. split.
    + apply insert_non_empty.
    + intros m b. destruct (decide (M = m)) as [<-|Hm].
      * rewrite lookup_insert_eq. intros [= <-]. by destruct bucket.
      * rewrite lookup_insert_ne by done. destruct Hms as [Hms| ->].
        -- destruct (IH _ _ Hms) as [_ Hb]. apply Hb.
        -- by rewrite lookup_empty.
  - rewrite lookup_insert_ne in Hy by done. eauto.
Qed.

Lemma tag_one_bucket k tg tag tg' :
  tag_one k tg tag = Return tg' →
  ∃ key, tag_key tag = Return key
    ∧ tg' !! key = Some (tagged_bucket tg key ++ [k])%list
    ∧ (∀ j, j ≠ key → tg' !! j = tg !! j).
Proof.
  unfold tag_one, tagged_bucket. intros (key & Hkey & H)%bindO_Return.
  exists key. split; [done|].
  destruct (tg !! key) as [bucket|] eqn:Hb.
  - inversion H; subst. rewrite lookup_insert_eq. split; [done|].
    intros j Hj. by rewrite lookup_insert_ne.
  - destruct (inherited key); [done|]. inversion H; subst.
    rewrite lookup_insert_eq. split; [done|].
    intros j Hj. by rewrite lookup_insert_ne.
Qed.

Lemma tag_fold_bucket k tags tg tg' t :
  foldO (tag_one k) tags tg = Return tg' →
  tagged_bucket tg' t
  = (tagged_bucket tg t
     ++ ((λ _, k) <$> filter (λ s, s = t)
           (omap (λ tag, match tag_key tag with Return s => Some s | _ => None end)
              tags)))%list.
Proof.
  revert tg. induction tags as [|tag tags IH]; intros tg H.
  - inversion H; subst. by rewrite app_nil_r.
  - cbn [foldO] in H. apply bindO_Return in H as (tg1 & H1 & H).
    rewrite (IH _ H). clear IH H.
    destruct (tag_one_bucket _ _ _ _ H1) as (key & Hkey & Hk & Hother).
    cbn [omap list_omap]. rewrite Hkey, filter_cons.
    destruct (decide (key = t)) as [->|Hne].
    + unfold tagged_bucket at 1. rewrite Hk. simpl.
      by rewrite <- app_assoc.
    + unfold tagged_bucket. by rewrite (Hother t) by congruence.
Qed.

Lemma tagged_step_bucket tbl tg k tg' t :
  tagged_step tbl tg k = Return tg' →
  tagged_bucket tg' t = (tagged_bucket tg t ++ tag_entries tbl t k)%list.
Proof.
  unfold tagged_step, tag_entries, tag_keys.
  destruct (objs tbl !! k) as [p|].
  2: { intros [= <-]. by rewrite app_nil_r. }
  destruct (meta p !! "tags") as [[]|]; try done.
  apply tag_fold_bucket.
Qed.

Lemma tagged_fold_bucket tbl l tg0 tg t :
  foldO (tagged_step tbl) l tg0 = Return tg →
  tagged_bucket tg t = (tagged_bucket tg0 t ++ (l ≫= tag_entries tbl t))%list.
Proof.
  revert tg0. induction l as [|k l IH]; intros tg0 H.
  - inversion H; subst. by rewrite app_nil_r.
  - cbn [foldO] in H. apply bindO_Return in H as (tg1 & H1 & H).
    rewrite (IH _ H), (tagged_step_bucket _ _ _ _ t H1), bind_cons.
    by rewrite <- app_assoc.
Qed.

(** The loop of lines 237-242 makes no empty list. *)
Lemma tagged_fold_inhabited tbl l tg :
  foldO (tagged_step tbl) l ∅ = Return tg →
  ∀ t bucket, tg !! t = Some bucket → bucket ≠ [].
Proof.
  intros H.
  eapply (foldO_Return_ind (tagged_step tbl)
            (λ tg, ∀ t (bucket : list ref), tg !! t = Some bucket → bucket ≠ []) l);
    [|exact H|].
  2: { intros t bucket. by rewrite lookup_empty. }
  clear H. intros tg0 k tg1 _ Hstep IH. unfold tagged_step in Hstep.
  destruct (objs tbl !! k) as [p|]; [|by inversion Hstep; subst].
  destruct (meta p !! "tags") as [[| | | | |tags| | |]|]; try done.
  eapply (foldO_Return_ind (tag_one k)
            (λ tg, ∀ t (bucket : list ref), tg !! t = Some bucket → bucket ≠ []) tags);
    [|exact Hstep|exact IH].
  intros a tag a' _ Hone Ha t bucket Hb.
  destruct (tag_one_bucket _ _ _ _ Hone) as (key & _ & Hk & Hother).
  destruct (decide (t = key)) as [->|Hne].
  - rewrite Hk in Hb. inversion Hb. by destruct (tagged_bucket a key).
  - rewrite Hother in Hb by done. by eapply Ha.
Qed.
End Buckets.

Section Listings.
Context {E : Env} (W : World).

(** Every published post is in the [post] object. *)
Lemma posts_in_post opts c st k :
  run W opts = (Return c, st) → k ∈ posts c → is_Some (objs (post c) !! k).
Proof.
  intros Hrun Hk.
  apply run_Return in Hrun
    as (_ & _ & names & tbl & tblN & s1 & s2 & _ & Hload & HN & Hposts & Hpost & _).
  apply load_well_formed in Hload; [|apply well_formed_empty].
  apply normalize_well_formed in HN; [|done].
  rewrite Hposts in Hk. apply elem_of_publish in Hk as [_ Hk].
  apply (wf_keys _ HN) in Hk as [q Hq].
  rewrite Hpost. pose proof (link_bodies (posts c) tblN k) as Hb.
  rewrite Hq in Hb. inversion Hb. by eexists.
Qed.

End Listings.

(** X13. The archive of lines 224-234 lists, under a year and a month, the
    published posts whose [year] and [month] fields are these, in the order
    of [posts], and it holds no empty year and no empty month. *)
Theorem archive_lists_posts_by_year_and_month `{E : Env} (W : World) opts c st :
  run W opts = (Return c, st) →
  (∀ y m, archive_bucket (archive c) y m
          = filter (λ k, year_month (post c) k = Some (y, m)) (posts c))
  ∧ (∀ y months, archive c !! y = Some months →
       months ≠ ∅ ∧ ∀ m bucket, months !! m = Some bucket → bucket ≠ []).
Proof.
  intros Hrun.
  apply run_Return in Hrun
    as (_ & _ & names & tbl & tblN & s1 & s2 & _ & _ & _ & _ & _ & _ & Har & _).
  split.
  - intros y m. rewrite (archive_fold_bucket _ _ _ _ y m Har).
    unfold archive_bucket. by rewrite lookup_empty.
  - by eapply archive_fold_inhabited.
Qed.

Lemma archive_lists_posts_by_year_and_month_witness :
  ∃ c st,
    run (E := Sample.env) Cases.three_posts Sample.opts = (Return c, st)
    ∧ (∀ y m, archive_bucket (archive c) y m
              = filter (λ k, year_month (post c) k = Some (y, m)) (posts c))
    ∧ (∀ y months, archive c !! y = Some months →
         months ≠ ∅ ∧ ∀ m bucket, months !! m = Some bucket → bucket ≠ []).
Proof.
  assert (∃ c st, run (E := Sample.env) Cases.three_posts Sample.opts
                  = (Return c, st)) as (c & st & Hrun)
    by (eexists _, _; vm_compute; reflexivity).
  exists c, st. split; [exact Hrun|].
  exact (archive_lists_posts_by_year_and_month (E := Sample.env)
           Cases.three_posts Sample.opts c st Hrun).
Defined.

(** X14. The [tagged] object of lines 237-242 lists, under a tag, the
    published posts that carry it, in the order of [posts] and once for
    each time the post's [tags] array holds the tag; it holds no empty
    list, and the [tags] field of every published post is an array. *)
Theorem tagged_lists_posts_by_tag `{E : Env} (W : World) opts c st :
  run W opts = (Return c, st) →
  (∀ t, tagged_bucket (tagged c) t = posts c ≫= tag_entries (post c) t)
  ∧ (∀ t bucket, tagged c !! t = Some bucket → bucket ≠ [])
  ∧ (∀ k, k ∈ posts c →
       ∃ p tags, objs (post c) !! k = Some p ∧ meta p !! "tags" = Some (VArr tags)).
Proof.
  intros Hrun. pose proof Hrun as Hrun'.
  apply run_Return in Hrun'
    as (_ & _ & names & tbl & tblN & s1 & s2 & _ & _ & _ & _ & _ & _ & _ & Htg & _).
  split; [|split].
  - intros t. rewrite (tagged_fold_bucket _ _ _ _ t Htg).
    unfold tagged_bucket. by rewrite lookup_empty.
  - by eapply tagged_fold_inhabited.
  - intros k Hk. destruct (posts_in_post W opts c st k Hrun Hk) as [p Hp].
    destruct (foldO_Return_each _ _ _ _ Htg k Hk) as (tg1 & tg2 & Hstep).
    unfold tagged_step in Hstep. rewrite Hp in Hstep.
    destruct (meta p !! "tags") as [[| | | | |tags| | |]|] eqn:Ht; try done.
    exists p, tags. split; [exact Hp|exact Ht].
Qed.

Lemma tagged_lists_posts_by_tag_witness :
  ∃ c st,
    run (E := Sample.env) Cases.three_posts Sample.opts = (Return c, st)
    ∧ (∀ t, tagged_bucket (tagged c) t
            = posts c ≫= tag_entries (E := Sample.env) (post c) t)
    ∧ (∀ t bucket, tagged c !! t = Some bucket → bucket ≠ [])
    ∧ (∀ k, k ∈ posts c →
         ∃ p tags, objs (post c) !! k = Some p
                   ∧ meta p !! "tags" = Some (VArr tags)).
Proof.
  assert (∃ c st, run (E := Sample.env) Cases.three_posts Sample.opts
                  = (Return c, st)) as (c & st & Hrun)
    by (eexists _, _; vm_compute; reflexivity).
  exists c, st. split; [exact Hrun|].
  exact (tagged_lists_posts_by_tag (E := Sample.env)
           Cases.three_posts Sample.opts c st Hrun).
Defined.





(* ------------------------------------------------------------------------ *)
(** ** Links, order and [latest] on a directory *)


Lemma posts_ascending_within_four_digit_years_witness :
  ∃ c st,
    run (E := Sample.env) Cases.three_posts Sample.opts = (Return c, st)
    ∧ posts c = ["one"; "two"; "three"]
    ∧ Sorted (date_le (post c)) (posts c).
Proof.
  eexists _, _. split; [vm_compute; reflexivity|]. split; [vm_compute; reflexivity|].
  eapply (posts_ascending_within_four_digit_years (E := Sample.env)
            Cases.three_posts Sample.opts).
  - vm_compute; reflexivity.
  - intros k t Hk Ht. vm_compute in Hk.
    repeat (apply elem_of_cons in Hk as [->|Hk];
            [vm_compute in Ht; injection Ht as <-; unfold four_digit_years; lia|]).
    destruct (not_elem_of_nil _ Hk).
Defined.

(** The sort of line 191 is stable: posts of one date stay in the order in
    which the loop of line 80 made them, that of the directory listing. *)
Example posts_of_one_date_keep_the_listing_order :
  ∃ c st,
    run (E := Sample.env) Cases.same_date Sample.opts = (Return c, st)
    ∧ posts c = ["c"; "a"; "b"]
    ∧ latest c = ["b"; "a"; "c"].
Proof. eexists _, _. repeat split; vm_compute; reflexivity. Qed.

Lemma latest_is_reversed_prefix_witness :
  ∃ c st,
    run (E := Sample.env) Cases.three_posts Sample.opts = (Return c, st)
    ∧ latest c = slice0 (reverse (posts c)) 10
    ∧ (0 <= 10 →
       latest c = take (Z.to_nat 10) (reverse (posts c))
       ∧ Z.of_nat (length (latest c)) = Z.min 10 (Z.of_nat (length (posts c)))).
Proof.
  assert (∃ c st, run (E := Sample.env) Cases.three_posts Sample.opts
                  = (Return c, st)) as (c & st & Hrun)
    by (eexists _, _; vm_compute; reflexivity).
  exists c, st. split; [exact Hrun|].
  exact (latest_is_reversed_prefix (E := Sample.env) Cases.three_posts
           Sample.opts c st Hrun).
Defined.

Lemma run_with_clock_witness :
  ∃ c st c' st',
    run (E := Sample.env) (Sample.first_post Sample.clk) Sample.opts = (Return c, st)
    ∧ run (E := Sample.env)
        (with_clock (Sample.first_post Sample.clk) Sample.slow_clk) Sample.opts
      = (Return c', st')
    ∧ posts c' = posts c ∧ post c' = post c ∧ pages c' = pages c
    ∧ latest c' = latest c ∧ archive c' = archive c ∧ tagged c' = tagged c
    ∧ rss c' = rss c.
Proof.
  assert (∃ c st, run (E := Sample.env) (Sample.first_post Sample.clk) Sample.opts
                  = (Return c, st)) as (c & st & Hrun)
    by (eexists _, _; vm_compute; reflexivity).
  destruct (run_with_clock (E := Sample.env) (Sample.first_post Sample.clk)
              Sample.opts Sample.slow_clk c st)
    as (c' & st' & Hrun' & H1 & H2 & H3 & H4 & H5 & H6 & H7 & _).
  - reflexivity.
  - exact Hrun.
  - exists c, st, c', st'.
    repeat (split; [assumption|]). assumption.
Defined.

(** X20. A negative [latestCount]: [slice(0, n)] counts its end from the end
    of the reversed array, so [latest] holds all the published posts but
    the [-n] oldest ones, newest first. *)
Theorem latest_of_a_negative_count `{E : Env} (W : World) opts c st n :
  run W opts = (Return c, st) →
  latestCount opts = Some n → n < 0 →
  latest c = reverse (drop (Z.to_nat (- n)) (posts c)).
Proof.
  intros Hrun Hn Hneg.
  apply run_Return in Hrun
    as (_ & _ & names & tbl & tblN & s1 & s2 & _ & _ & _ & _ & _ & Hlatest & _).
  assert (default 0 (latestCount (xtend_opts defaults opts)) = n) as Hn'
    by (simpl; by rewrite Hn).
  rewrite Hn' in Hlatest. rewrite Hlatest. unfold slice0.
  rewrite length_reverse.
  replace (n <? 0) with true by (symmetry; apply Z.ltb_lt; lia).
  rewrite take_reverse. f_equal.
  destruct (decide (Z.of_nat (length (posts c)) + n <= 0)) as [Hle|Hgt].
  - rewrite Z.max_r by lia. simpl. rewrite Nat.sub_0_r.
    rewrite !drop_ge; [done|lia..].
  - rewrite Z.max_l by lia. f_equal. lia.
Qed.

Lemma latest_of_a_negative_count_witness :
  let opts := {| domain := Some "example.org"; contentDir := Some "content";
                 title := None; description := None; base := None;
                 latestCount := Some (-1); indexCount := None |} in
  ∃ c st,
    run (E := Sample.env) Cases.three_posts opts = (Return c, st)
    ∧ posts c = ["one"; "two"; "three"]
    ∧ latest c = ["three"; "two"].
Proof.
  intros opts.
  assert (∃ c st, run (E := Sample.env) Cases.three_posts opts = (Return c, st)
                  ∧ posts c = ["one"; "two"; "three"]) as (c & st & Hrun & Hposts)
    by (eexists _, _; split; vm_compute; reflexivity).
  exists c, st. split; [exact Hrun|]. split; [exact Hposts|].
  rewrite (latest_of_a_negative_count (E := Sample.env) Cases.three_posts
             opts c st (-1) Hrun).
  - rewrite Hposts. reflexivity.
  - reflexivity.
  - lia.
Defined.

(* ------------------------------------------------------------------------ *)
(** ** The only way to [process.exit] *)

Section Exits.
Context {E : Env} (W : World).

Lemma bind_Exit {A B} (m : M A) (k : A → M B) s code s' :
  bind m k s = (Exit code, s') →
  m s = (Exit code, s') ∨ ∃ a s1, m s = (Return a, s1) ∧ k a s1 = (Exit code, s').
Proof.
  unfold bind. destruct (m s) as [[a| | |] s1]; intros H; try discriminate.
  - right. by exists a, s1.
  - left. by inversion H.
Qed.

Lemma foldO_not_Exit {A B} (f : A → B → outcome A) l a code :
  (∀ a b code, f a b ≠ Exit code) → foldO f l a ≠ Exit code.
Proof.
  intros Hf. revert a. induction l as [|b l IH]; intros a; [done|].
  cbn [foldO]. destruct (f a b) as [a1| | |] eqn:H1; simpl.
  - apply IH.
  - done.
  - destruct (Hf _ _ _ H1).
  - done.
Qed.

Lemma call_not_Exit {A} ev path (r : option A) s code s' :
  call ev path r s ≠ (Exit code, s').
Proof. unfold call, bind, emit. by destruct r. Qed.

Lemma filterM_not_Exit dir names s code s' :
  filterM (λ filename,
    let! d := fs_isDirectory W (dir ++ "/" ++ filename) in ret (negb d)) names s
  ≠ (Exit code, s').
Proof.
  revert s s'. induction names as [|n names IH]; intros s s' H; [done|].
  cbn [filterM] in H. apply bind_Exit in H as [H|(k & s1 & _ & H)].
  - apply bind_Exit in H as [H|(d & s1 & _ & H)]; [|done].
    by apply call_not_Exit in H.
  - apply bind_Exit in H as [H|(r & s2 & _ & H)]; [|done].
    by apply IH in H.
Qed.

Lemma write_not_Exit k g t s code s' : write k g t s ≠ (Exit code, s').
Proof. unfold write, lift, ret. by destruct (inherited k). Qed.

Lemma write_not_Throw k g t s e s' : write k g t s ≠ (Throw e, s').
Proof. unfold write, lift, ret. by destruct (inherited k). Qed.

Lemma stage_not_Exit (b : bool) k g (t : Table) s code s' :
  (if b then write k g t else ret t) s ≠ (Exit code, s').
Proof. destruct b; [apply write_not_Exit|done]. Qed.

Lemma stage_not_Throw (b : bool) k g (t : Table) s e s' :
  (if b then write k g t else ret t) s ≠ (Throw e, s').
Proof. destruct b; [apply write_not_Throw|done]. Qed.

Lemma processFile_Exit now dir tbl f s code s' :
  processFile W now dir tbl f s = (Exit code, s') →
  code = 2
  ∧ ∃ contents e,
      ext_of f = Some "json"
      ∧ readFileSync W (dir ++ "/" ++ f) = Some contents
      ∧ JSON_parse contents = inr e
      ∧ trace s' = (trace s ++ [ReadFile (dir ++ "/" ++ f);
                                ConsoleWarn ("Error parsing " ++ f ++ " file : " ++ e)])%list.
Proof.
  unfold processFile. fold (ext_of f) (ident f).
  destruct (negb (validExt_truthy (ext_of f))); [done|].
  generalize (if prototype_function (ident f) then tbl
              else ensure now (ident f) tbl). intros t0.
  intros H. apply bind_Exit in H as [H|(c & s1 & Hc & H)];
    [by apply call_not_Exit in H|].
  unfold fs_readFileSync, call, bind, emit in Hc.
  destruct (readFileSync W (dir ++ "/" ++ f)) as [c'|] eqn:Hr; [|done].
  inversion Hc; subst c' s1; clear Hc.
  apply bind_Exit in H as [H|(t1 & s1 & _ & H)].
  { destruct (ext_is (ext_of f) "json") eqn:Hj; [|done].
    destruct (JSON_parse c) as [v|e] eqn:Hp; [by apply write_not_Exit in H|].
    unfold bind, emit, process_exit, lift in H. inversion H; subst.
    split; [done|]. exists c, e. apply ext_is_Some in Hj.
    repeat (split; [done|]). simpl. by rewrite <- app_assoc. }
  apply bind_Exit in H as [H|(t2 & s2 & _ & H)].
  { destruct (ext_is (ext_of f) "yaml"); [|done].
    destruct (yaml_load c); [by apply write_not_Exit in H|done]. }
  apply bind_Exit in H as [H|(t3 & s3 & _ & H)].
  { destruct (ext_is (ext_of f) "ini"); [|done].
    destruct (ini_decode c); [by apply write_not_Exit in H|done]. }
  do 4 (apply bind_Exit in H as [H|(? & ? & _ & H)];
        [by apply stage_not_Exit in H|]).
  by destruct (prototype_function (ident f)).
Qed.

Lemma foldM_Exit now dir files tbl s code s' :
  foldM (processFile W now dir) files tbl s = (Exit code, s') →
  ∃ f tbl1 s1, f ∈ files ∧ processFile W now dir tbl1 f s1 = (Exit code, s').
Proof.
  revert tbl s. induction files as [|f files IH]; intros tbl s H; [done|].
  cbn [foldM] in H. apply bind_Exit in H as [H|(t1 & s1 & _ & H)].
  - exists f, tbl, s. split; [by left|done].
  - destruct (IH _ _ H) as (g & t2 & s2 & Hg & H2).
    exists g, t2, s2. split; [by right|done].
Qed.

Lemma assemble_not_Exit opts now tbl code : assemble opts now tbl ≠ Exit code.
Proof.
  unfold assemble, normalize.
  destruct (foldO normalize_step (Object_keys tbl) tbl) as [tblN| | |] eqn:HN;
    simpl; try done.
  2: { exfalso. revert HN. apply foldO_not_Exit. clear. intros t k code.
       unfold normalize_step, normalize_post, new_Date.
       destruct (objs t !! k) as [p|]; [|done].
       destruct (default VUndef (meta p !! "date")); try done;
         by destruct (ToString _). }
  destruct (foldO (archive_step _) _ ∅) as [ar| | |] eqn:Har; simpl; try done.
  2: { exfalso. revert Har. apply foldO_not_Exit. clear. intros ar k code.
       unfold archive_step. destruct (objs _ !! k) as [p|]; [|done].
       destruct (ar !! _) as [months|].
       - destruct (months !! _); [done|]. by destruct (inherited _).
       - destruct (inherited _); [done|]. by destruct (inherited _). }
  destruct (foldO (tagged_step _) _ ∅) as [tg| | |] eqn:Htg; simpl; try done.
  exfalso. revert Htg. apply foldO_not_Exit. clear. intros tg k code.
  unfold tagged_step. destruct (objs _ !! k) as [p|]; [|done].
  destruct (meta p !! "tags") as [[| | | | |tags| | |]|]; try done.
  apply foldO_not_Exit. clear. intros tg tag code. unfold tag_one, tag_key.
  assert (∀ key, match tg !! key with
                 | Some bucket => Return (<[key:=(bucket ++ [k])%list]> tg)
                 | None => if inherited key then Throw TypeError
                           else Return (<[key:=[k]]> tg)
                 end ≠ Exit code) as Hk.
  { intros key. destruct (tg !! key); [done|]. by destruct (inherited key). }
  destruct tag; simpl; try apply Hk; by destruct (ToString _); simpl.
Qed.
End Exits.

(** X21. The process exits in one way only: a run that ends in
    [process.exit] ends with the code 2, after it has read a file of the
    content directory whose extension is json and whose contents
    [JSON.parse] rejects, and the last thing it did was to warn
    "Error parsing <filename> file : <error>". *)
Theorem exit_only_after_a_rejected_json `{E : Env} (W : World) opts code st :
  run W opts = (Exit code, st) →
  let dir := default "" (contentDir opts) in
  code = 2
  ∧ ∃ names f contents e,
      readdirSync W dir = Some names
      ∧ f ∈ regular_files W dir names
      ∧ ext_of f = Some "json"
      ∧ readFileSync W (dir ++ "/" ++ f) = Some contents
      ∧ JSON_parse contents = inr e
      ∧ last (trace st)
        = Some (ConsoleWarn ("Error parsing " ++ f ++ " file : " ++ e)).
Proof.
  intros H dir. unfold run, readBlogSync in H.
  replace (contentDir (xtend_opts defaults opts)) with (contentDir opts) in H
    by (by destruct opts as [? []]).
  destruct (falsy (domain opts)); [done|].
  destruct (falsy (contentDir opts)); [done|].
  apply bind_Exit in H as [H|(now & s0 & _ & H)]; [done|].
  apply bind_Exit in H as [H|(tbl & s1 & _ & H)].
  - unfold load in H. fold dir in H.
    apply bind_Exit in H as [H|(names & s1 & Hn & H)];
      [by apply call_not_Exit in H|].
    unfold fs_readdirSync, call, bind, emit in Hn.
    destruct (readdirSync W dir) as [names'|] eqn:Hnames; [|done].
    inversion Hn; subst names' s1; clear Hn.
    apply bind_Exit in H as [H|(files & s2 & Hf & H)];
      [by apply filterM_not_Exit in H|].
    apply filterM_files in Hf as [-> _].
    apply foldM_Exit in H as (f & t1 & s3 & Hf & H).
    apply processFile_Exit in H as (-> & contents & e & Hext & Hr & Hp & Htr).
    split; [done|]. exists names, f, contents, e.
    repeat (split; [done|]). rewrite Htr.
    change [ReadFile (dir ++ "/" ++ f);
            ConsoleWarn ("Error parsing " ++ f ++ " file : " ++ e)]
      with ([ReadFile (dir ++ "/" ++ f)]
            ++ [ConsoleWarn ("Error parsing " ++ f ++ " file : " ++ e)])%list.
    rewrite app_assoc. apply last_snoc.
  - apply bind_Exit in H as [H|(a & s2 & _ & H)].
    + unfold lift in H. inversion H as [[Ha Hs]].
      by apply assemble_not_Exit in Ha.
    + by apply bind_Exit in H as [H|(? & ? & _ & H)].
Qed.

Lemma exit_only_after_a_rejected_json_witness :
  ∃ st,
    run (E := Sample.env) (Cases.broken "bad.json") Sample.opts = (Exit 2, st)
    ∧ ∃ names f contents e,
        readdirSync (Cases.broken "bad.json") "content" = Some names
        ∧ f ∈ regular_files (Cases.broken "bad.json") "content" names
        ∧ ext_of f = Some "json"
        ∧ readFileSync (Cases.broken "bad.json") ("content" ++ "/" ++ f)
          = Some contents
        ∧ JSON_parse (Env := Sample.env) contents = inr e
        ∧ last (trace st)
          = Some (ConsoleWarn ("Error parsing " ++ f ++ " file : " ++ e)).
Proof.
  assert (∃ st, run (E := Sample.env) (Cases.broken "bad.json") Sample.opts
                = (Exit 2, st)) as (st & Hrun)
    by (eexists; vm_compute; reflexivity).
  exists st. split; [exact Hrun|].
  exact (proj2 (exit_only_after_a_rejected_json (E := Sample.env)
                  (Cases.broken "bad.json") Sample.opts 2 st Hrun)).
Defined.

(** X22. A post none of whose files is a metadata file keeps the title and
    the tags of lines 105-114: the title is its identifier with every
    hyphen turned into a space and the first letter of every word in upper
    case, and it has no tags. *)
Theorem post_without_metadata_keeps_default_title `{E : Env} (W : World)
    opts c st names k p :
  run W opts = (Return c, st) →
  let dir := default "" (contentDir opts) in
  readdirSync W dir = Some names →
  objs (post c) !! k = Some p →
  (∀ f, f ∈ regular_files W dir names → accepted f = true → ident f = k →
        is_overlay (ext_of f) = false) →
  meta p !! "title" = Some (VStr (join " " (capitalize <$> split_on "-" k)))
  ∧ meta p !! "tags" = Some (VArr []).
Proof.
  intros Hrun dir Hn Hp Hbody.
  destruct (corpus_post W opts c st names k p Hrun Hn Hp)
    as (p0 & q & tblN & Hp0 & _ & _ & (_ & _ & _ & _ & _ & Hm) & (_ & Hm' & _) & _).
  destruct (run_stages W opts c st names Hrun Hn) as (Hloads & _).
  destruct (loaded_post W _ _ _ k p0 Hloads Hp0) as [Hmeta _].
  fold dir in Hmeta.
  assert (overlays W dir k (regular_files W dir names) = []) as Hnone.
  { apply omap_none. intros f Hf.
    destruct (decide (ident f = k)) as [Hid|]; [|done].
    destruct (is_overlay (ext_of f)) eqn:Ho; [|done].
    rewrite Hbody in Ho; [done|done| |done].
    by apply is_overlay_accepted. }
  rewrite Hnone in Hmeta. cbn [foldl] in Hmeta.
  rewrite Hm', !Hm, Hmeta by (by apply not_elem_of_compute).
  unfold default_post. cbn [meta]. split; by simplify_map_eq.
Qed.

Lemma post_without_metadata_keeps_default_title_witness :
  ∃ c st p,
    run (E := Sample.env) Cases.numbered_post Sample.opts = (Return c, st)
    ∧ objs (post c) !! "my-first-post" = Some p
    ∧ meta p !! "title" = Some (VStr "My First Post")
    ∧ meta p !! "tags" = Some (VArr []).
Proof.
  assert (∃ c st, run (E := Sample.env) Cases.numbered_post Sample.opts
                  = (Return c, st))
    as (c & st & Hrun) by (eexists _, _; vm_compute; reflexivity).
  assert (readdirSync Cases.numbered_post "content" = Some ["2013-my-first-post.md"])
    as Hn by (vm_compute; reflexivity).
  destruct (loaded_keys (E := Sample.env) Cases.numbered_post Sample.opts c st
              ["2013-my-first-post.md"] "2013-my-first-post.md" Hrun Hn) as [p Hp].
  { vm_compute. repeat constructor. }
  { reflexivity. }
  { intros H; discriminate H. }
  change (ident "2013-my-first-post.md") with "my-first-post" in Hp.
  exists c, st, p. split; [exact Hrun|]. split; [exact Hp|].
  eapply (post_without_metadata_keeps_default_title (E := Sample.env)
            Cases.numbered_post Sample.opts c st _ "my-first-post" p Hrun Hn Hp).
  intros f Hf. vm_compute in Hf.
  apply elem_of_cons in Hf as [->|Hf]; [|destruct (not_elem_of_nil _ Hf)].
  intros _ _. reflexivity.
Defined.

(* ------------------------------------------------------------------------ *)
(** ** The exceptions of a run *)

Section Throws.
Context {E : Env} (W : World).

Lemma bind_Throw_inv {A B} (m : M A) (k : A → M B) s e s' :
  bind m k s = (Throw e, s') →
  m s = (Throw e, s') ∨ ∃ a s1, m s = (Return a, s1) ∧ k a s1 = (Throw e, s').
Proof.
  unfold bind. destruct (m s) as [[a| | |] s1]; intros H; try discriminate.
  - right. by exists a, s1.
  - left. by inversion H.
Qed.

Lemma foldO_Throw {A B} (f : A → B → outcome A) (P : exn → Prop) l a e :
  (∀ a b e, f a b = Throw e → P e) → foldO f l a = Throw e → P e.
Proof.
  intros Hf. revert a. induction l as [|b l IH]; intros a; [done|].
  cbn [foldO]. destruct (f a b) as [a1| | |] eqn:H1; simpl; try done.
  - apply IH.
  - intros [= <-]. by eapply Hf.
Qed.

Lemma call_Throw {A} ev path (r : option A) s e s' :
  call ev path r s = (Throw e, s') → r = None ∧ e = SystemError path.
Proof.
  unfold call, bind, emit, throw, lift. destruct r; [done|]. by intros [= <- <-].
Qed.

Lemma filterM_Throw dir names s e s' :
  filterM (λ filename,
    let! d := fs_isDirectory W (dir ++ "/" ++ filename) in ret (negb d)) names s
  = (Throw e, s') →
  ∃ n, n ∈ names ∧ isDirectory W (dir ++ "/" ++ n) = None
       ∧ e = SystemError (dir ++ "/" ++ n).
Proof.
  revert s s'. induction names as [|n names IH]; intros s s' H; [done|].
  cbn [filterM] in H. apply bind_Throw_inv in H as [H|(k & s1 & _ & H)].
  - apply bind_Throw_inv in H as [H|(d & s1 & _ & H)]; [|done].
    apply call_Throw in H as [Hn ->]. exists n. split; [by left|done].
  - apply bind_Throw_inv in H as [H|(r & s2 & _ & H)]; [|done].
    destruct (IH _ _ H) as (m & Hm & Hd & ->). exists m. split; [by right|done].
Qed.

Lemma processFile_Throw now dir tbl f s e s' :
  processFile W now dir tbl f s = (Throw e, s') →
  (readFileSync W (dir ++ "/" ++ f) = None ∧ e = SystemError (dir ++ "/" ++ f))
  ∨ ∃ contents d,
      readFileSync W (dir ++ "/" ++ f) = Some contents
      ∧ e = DecodeFailure d
      ∧ ((ext_of f = Some "yaml" ∧ yaml_load contents = inr d)
         ∨ (ext_of f = Some "ini" ∧ ini_decode contents = inr d)).
Proof.
  unfold processFile. fold (ext_of f) (ident f).
  destruct (negb (validExt_truthy (ext_of f))); [done|].
  generalize (if prototype_function (ident f) then tbl
              else ensure now (ident f) tbl). intros t0.
  intros H. apply bind_Throw_inv in H as [H|(c & s1 & Hc & H)].
  { apply call_Throw in H as [Hr ->]. by left. }
  right. unfold fs_readFileSync, call, bind, emit in Hc.
  destruct (readFileSync W (dir ++ "/" ++ f)) as [c'|] eqn:Hr; [|done].
  inversion Hc; subst c' s1; clear Hc. exists c.
  apply bind_Throw_inv in H as [H|(t1 & s1 & _ & H)].
  { destruct (ext_is (ext_of f) "json"); [|done].
    destruct (JSON_parse c); [by apply write_not_Throw in H|done]. }
  apply bind_Throw_inv in H as [H|(t2 & s2 & _ & H)].
  { destruct (ext_is (ext_of f) "yaml") eqn:Hy; [|done].
    destruct (yaml_load c) as [v|d] eqn:Hd; [by apply write_not_Throw in H|].
    unfold bind, emit, throw, lift in H. inversion H; subst.
    exists d. apply ext_is_Some in Hy. auto. }
  apply bind_Throw_inv in H as [H|(t3 & s3 & _ & H)].
  { destruct (ext_is (ext_of f) "ini") eqn:Hi; [|done].
    destruct (ini_decode c) as [v|d] eqn:Hd; [by apply write_not_Throw in H|].
    unfold throw, lift in H. inversion H; subst.
    exists d. apply ext_is_Some in Hi. auto. }
  do 4 (apply bind_Throw_inv in H as [H|(? & ? & _ & H)];
        [by apply stage_not_Throw in H|]).
  by destruct (prototype_function (ident f)).
Qed.

Lemma foldM_Throw now dir files tbl s e s' :
  foldM (processFile W now dir) files tbl s = (Throw e, s') →
  ∃ f tbl1 s1, f ∈ files ∧ processFile W now dir tbl1 f s1 = (Throw e, s').
Proof.
  revert tbl s. induction files as [|f files IH]; intros tbl s H; [done|].
  cbn [foldM] in H. apply bind_Throw_inv in H as [H|(t1 & s1 & _ & H)].
  - exists f, tbl, s. split; [by left|done].
  - destruct (IH _ _ H) as (g & t2 & s2 & Hg & H2).
    exists g, t2, s2. split; [by right|done].
Qed.

Lemma assemble_Throw opts now tbl e : assemble opts now tbl = Throw e → e = TypeError.
Proof.
  unfold assemble, normalize.
  destruct (foldO normalize_step (Object_keys tbl) tbl) as [tblN| | |] eqn:HN;
    simpl; try done.
  2: { intros [= <-]. revert HN. apply (foldO_Throw _ (λ e, e = TypeError)). clear. intros t k e.
       unfold normalize_step, normalize_post, new_Date.
       destruct (objs t !! k) as [p|]; [|done].
       destruct (default VUndef (meta p !! "date")); try done;
         destruct (ToString _); simpl; try done; by intros [= <-]. }
  destruct (foldO (archive_step _) _ ∅) as [ar| | |] eqn:Har; simpl; try done.
  2: { intros [= <-]. revert Har. apply (foldO_Throw _ (λ e, e = TypeError)). clear. intros ar k e.
       unfold archive_step. destruct (objs _ !! k) as [p|]; [|done].
       destruct (ar !! _) as [months|].
       - destruct (months !! _); [done|]. destruct (inherited _); [|done].
         by intros [= <-].
       - destruct (inherited _); [done|]. destruct (inherited _); [|done].
         by intros [= <-]. }
  destruct (foldO (tagged_step _) _ ∅) as [tg| | |] eqn:Htg; simpl; try done.
  intros [= <-]. revert Htg. apply (foldO_Throw _ (λ e, e = TypeError)). clear. intros tg k e.
  unfold tagged_step. destruct (objs _ !! k) as [p|]; [|done].
  destruct (meta p !! "tags") as [[| | | | |tags| | |]|];
    try (by intros [= <-]).
  apply (foldO_Throw _ (λ e, e = TypeError)). clear. intros tg tag e. unfold tag_one, tag_key.
  assert (∀ key, match tg !! key with
                 | Some bucket => Return (<[key:=(bucket ++ [k])%list]> tg)
                 | None => if inherited key then Throw TypeError
                           else Return (<[key:=[k]]> tg)
                 end = Throw e → e = TypeError) as Hk.
  { intros key. destruct (tg !! key); [done|].
    destruct (inherited key); [|done]. by intros [= <-]. }
  destruct tag; simpl; try apply Hk;
    destruct (ToString _); simpl; try apply Hk; by intros [= <-].
Qed.
End Throws.

(** X23. The exceptions of [readBlogSync]. An [Error] is one of the two
    configuration errors, thrown before anything is touched. A system error
    comes from listing the content directory, from examining one of its
    entries or from reading one of its files. A decoder's exception comes
    from a YAML or an INI file of the directory that the decoder rejects (a
    rejected JSON file throws nothing). A [TypeError] is thrown after every
    file was loaded. *)
Theorem exceptions_of_a_run `{E : Env} (W : World) opts e st :
  run W opts = (Throw e, st) →
  let dir := default "" (contentDir opts) in
  match e with
  | Error msg =>
      st = {| ticks := 0; trace := [] |}
      ∧ ((msg = "Provide a domain" ∧ falsy (domain opts) = true)
         ∨ (msg = "Provide a contentDir" ∧ falsy (contentDir opts) = true))
  | SystemError path =>
      (path = dir ∧ readdirSync W dir = None)
      ∨ ∃ names n, readdirSync W dir = Some names ∧ n ∈ names
                   ∧ path = dir ++ "/" ++ n
                   ∧ (isDirectory W path = None ∨ readFileSync W path = None)
  | DecodeFailure d =>
      ∃ names f contents,
        readdirSync W dir = Some names
        ∧ f ∈ regular_files W dir names
        ∧ readFileSync W (dir ++ "/" ++ f) = Some contents
        ∧ ((ext_of f = Some "yaml" ∧ yaml_load contents = inr d)
           ∨ (ext_of f = Some "ini" ∧ ini_decode contents = inr d))
  | TypeError =>
      ∃ names, readdirSync W dir = Some names
               ∧ Forall (loads W dir) (regular_files W dir names)
  end.
Proof.
  intros H dir. unfold run, readBlogSync in H.
  replace (contentDir (xtend_opts defaults opts)) with (contentDir opts) in H
    by (by destruct opts as [? []]).
  destruct (falsy (domain opts)) eqn:Hdom.
  { unfold throw, lift in H. inversion H; subst. split; [done|]. by left. }
  destruct (falsy (contentDir opts)) eqn:Hdir.
  { unfold throw, lift in H. inversion H; subst. split; [done|]. by right. }
  apply bind_Throw_inv in H as [H|(now & s0 & _ & H)]; [done|].
  apply bind_Throw_inv in H as [H|(tbl & s1 & Hload & H)].
  - unfold load in H. fold dir in H.
    apply bind_Throw_inv in H as [H|(names & s1 & Hn & H)].
    { apply call_Throw in H as [Hn ->]. by left. }
    unfold fs_readdirSync, call, bind, emit in Hn.
    destruct (readdirSync W dir) as [names'|] eqn:Hnames; [|done].
    inversion Hn; subst names' s1; clear Hn.
    apply bind_Throw_inv in H as [H|(files & s2 & Hf & H)].
    { apply filterM_Throw in H as (n & Hn & Hd & ->).
      right. exists names, n. auto. }
    apply filterM_files in Hf as [-> _].
    apply foldM_Throw in H as (f & t1 & s3 & Hf & H).
    apply processFile_Throw in H as [[Hr ->]|(contents & d & Hr & -> & Hd)].
    + right. exists names, f. split; [done|].
      split; [by apply list_elem_of_filter in Hf as [_ ?]|]. auto.
    + by exists names, f, contents.
  - apply bind_Throw_inv in H as [H|(a & s2 & _ & H)].
    + unfold lift in H. inversion H as [[Ha Hs]].
      apply assemble_Throw in Ha as ->.
      apply load_Return in Hload as (_ & names & s3 & Hn & Hload).
      exists names. split; [done|]. by eapply foldM_Return_loads.
    + by apply bind_Throw_inv in H as [H|(? & ? & _ & H)].
Qed.

Lemma exceptions_of_a_run_witness :
  ∃ st,
    run (E := Sample.env) Cases.no_read Sample.opts
    = (Throw (SystemError "content/b.md"), st)
    ∧ (("content/b.md" = "content" ∧ readdirSync Cases.no_read "content" = None)
       ∨ ∃ names n,
           readdirSync Cases.no_read "content" = Some names ∧ n ∈ names
           ∧ "content/b.md" = "content" ++ "/" ++ n
           ∧ (isDirectory Cases.no_read "content/b.md" = None
              ∨ readFileSync Cases.no_read "content/b.md" = None)).
Proof.
  assert (∃ st, run (E := Sample.env) Cases.no_read Sample.opts
                = (Throw (SystemError "content/b.md"), st)) as (st & Hrun)
    by (eexists; vm_compute; reflexivity).
  exists st. split; [exact Hrun|].
  exact (exceptions_of_a_run (E := Sample.env) Cases.no_read Sample.opts
           (SystemError "content/b.md") st Hrun).
Defined.
